(** * Provider settings reconciliation and provider detection

    A shallow embedding of two TypeScript modules and a script:

    - the settings store ([LOCAL_PROVIDERS], [getInitialProviderSettings],
      [autoEnableConfiguredProviders], [updateProviderSettings],
      [updateAutoEnabledTracking], the other settings and the tabs), which
      keeps the provider map in a nanostores map and in [localStorage];
    - the route [api.configured-providers] ([loader]), which reports, for
      every local provider, whether the environment configures it;
    - the script [electron-dev.mjs], which builds and starts the
      development processes.

    JavaScript objects used as dictionaries are finite maps, exceptions are
    an outcome type, and the code that mutates the store or the storage runs
    in a small state-and-exception monad. *)

From Stdlib Require Import ZArith Ascii.
From Stdlib Require DecimalString.
From stdpp Require Import base strings gmap list option.
From Equations Require Import Equations.

Open Scope string_scope.
Open Scope list_scope.

(** ** JavaScript values and strings *)

Module JS.

(** The primitive values that an environment table or a settings record
    holds.  Numbers are kept to the integers. *)
Inductive value : Type :=
| Undefined
| Null
| Bool (b : bool)
| Number (z : Z)
| Str (s : string).

#[global] Instance value_eq_dec : EqDecision value.
Proof. solve_decision. Defined.

(** ToBoolean. *)
Definition truthy (v : value) : bool :=
  match v with
  | Undefined | Null => false
  | Bool b => b
  | Number z => negb (z =? 0)%Z
  | Str s => negb (String.eqb s "")
  end.

(** [a || b] yields [a] when it is truthy and [b] otherwise. *)
Definition or (a b : value) : value := if truthy a then a else b.

(** [typeof v === 'string'] *)
Definition is_string (v : value) : bool :=
  match v with Str _ => true | _ => false end.

(** [v !== undefined] *)
Definition defined (v : value) : bool :=
  match v with Undefined => false | _ => true end.

(** [o[k]]: reading a property that the object lacks gives [undefined]. *)
Definition get (o : gmap string value) (k : string) : value :=
  default Undefined (o !! k).

(** A string is a sequence of code units; the model keeps the code units
    below 256, which covers every constant of the source. *)

(** [s.startsWith(p)] *)
Fixpoint startsWith (s p : string) : bool :=
  match p with
  | EmptyString => true
  | String a p' =>
      match s with
      | EmptyString => false
      | String b s' => Ascii.eqb a b && startsWith s' p'
      end
  end.

(** [s.includes(p)] *)
Fixpoint includes (s p : string) : bool :=
  startsWith s p ||
  match s with
  | EmptyString => false
  | String _ s' => includes s' p
  end.

(** White space and line terminators, as [trim] strips them: TAB, LF, VT,
    FF, CR, SP and NBSP are the ones below 256. *)
Definition isWhiteSpace (c : Ascii.ascii) : bool :=
  existsb (N.eqb (Ascii.N_of_ascii c)) [9; 10; 11; 12; 13; 32; 160]%N.

Fixpoint trimStart (s : string) : string :=
  match s with
  | EmptyString => EmptyString
  | String c s' => if isWhiteSpace c then trimStart s' else s
  end.

Fixpoint trimEnd (s : string) : string :=
  match s with
  | EmptyString => EmptyString
  | String c s' =>
      match trimEnd s' with
      | EmptyString => if isWhiteSpace c then EmptyString else String c EmptyString
      | t => String c t
      end
  end.

(** [s.trim()] *)
Definition trim (s : string) : string := trimEnd (trimStart s).

(** [l.includes(x)] on an array of strings. *)
Definition array_includes (l : list string) (x : string) : bool :=
  existsb (String.eqb x) l.

(** What a failing operation throws. *)
Inductive error : Type :=
| SyntaxError
| TypeError
| ReferenceError
| Error (message : string).

Inductive outcome (A : Type) : Type :=
| Return (a : A)
| Throw (e : error).
Arguments Return {A} a.
Arguments Throw {A} e.

End JS.

(** ** The report of the detection endpoint *)

Module ConfiguredProvider.

Inductive ConfigMethod : Type := environment | none.

#[global] Instance ConfigMethod_eq_dec : EqDecision ConfigMethod.
Proof. solve_decision. Defined.

Record t : Type := mk {
  name : string;
  isConfigured : bool;
  configMethod : ConfigMethod
}.

End ConfiguredProvider.

(** ** The settings store *)

Module Settings.

Import JS.

Definition URL_CONFIGURABLE_PROVIDERS : list string :=
  ["Ollama"; "LMStudio"; "OpenAILike"].
Definition LOCAL_PROVIDERS : list string :=
  ["OpenAILike"; "LMStudio"; "Ollama"].

(** An entry of the provider map: the fields of the provider, kept as they
    come from the provider list ([None] for an entry that was spread from
    an object without a field of its own), and the value of [settings]. *)
Record ProviderEntry (ProviderInfo SettingsValue : Type) : Type := {
  info : option ProviderInfo;
  settings : SettingsValue
}.
Arguments info {ProviderInfo SettingsValue} _.
Arguments settings {ProviderInfo SettingsValue} _.

(** [IProviderConfig], the declared type of an entry of the store:
    [settings] is a record, an object whose [enabled] field the store
    reads. *)
Abbreviation IProviderConfig ProviderInfo :=
  (ProviderEntry ProviderInfo (gmap string value)).

(** The names that a plain object inherits from [Object.prototype]: under
    each of them [o[name]] is a function, or [Object.prototype] itself for
    [__proto__], also when [o] has no such property of its own.  These
    objects are taken as the engine makes them: without an enumerable
    property and without a [settings] property. *)
Definition Object_prototype : list string :=
  ["constructor"; "__defineGetter__"; "__defineSetter__"; "hasOwnProperty";
   "__lookupGetter__"; "__lookupSetter__"; "isPrototypeOf";
   "propertyIsEnumerable"; "toString"; "valueOf"; "__proto__";
   "toLocaleString"].

(** A string that [localStorage] holds under a key.  The store only tests
    it for emptiness and hands it to [JSON.parse], so a text that parses
    is identified with the document it stands for. *)
Inductive stored (A : Type) : Type :=
| Empty               (* the empty string *)
| Malformed           (* a non-empty text that JSON.parse rejects *)
| Json (doc : A).     (* a text that JSON.parse maps to [doc] *)
Arguments Empty {A}.
Arguments Malformed {A}.
Arguments Json {A} doc.

(** *** The persisted snapshot

    What [JSON.parse] makes of the text stored under [provider_settings]
    is only ever read by [Object.entries(parsed)] and, for each entry
    [[key, value]], by [value.settings]; a parsed snapshot is identified
    with what these two read. *)

(** The value of a [settings] property. *)
Inductive SavedSettings : Type :=
| settings_record (fields : gmap string value)   (* a plain object *)
| settings_other (v : value).                    (* null, a boolean, a number, a string *)

(** The [value] of an entry, as [value.settings] reads it. *)
Inductive SavedEntry : Type :=
| entry_null                                     (* [null]: reading [.settings] throws *)
| entry_value (own_settings : option SavedSettings).
    (* any other value; [None] when it has no [settings] property, as an
       object without it, an array, a number, a string or a boolean *)

(** [parsed]: [null], or a value with its entries in the order in which
    [Object.entries] lists them (none for a number or a boolean).  The
    keys of an object are distinct; where a list repeats a key, the last
    entry counts. *)
Inductive Snapshot : Type :=
| snapshot_null
| snapshot_entries (entries : list (string * SavedEntry)).

(** The last entry of a list under a key. *)
Definition entry_of {A} (entries : list (string * A)) (key : string) : option A :=
  snd <$> list.last (filter (fun kv => kv.1 = key) entries).

(** [doc !! key]: the settings record that the snapshot holds for [key]. *)
#[global] Instance Snapshot_lookup : Lookup string (gmap string value) Snapshot :=
  fun key doc =>
    match doc with
    | snapshot_entries entries =>
        match entry_of entries key with
        | Some (entry_value (Some (settings_record fields))) => Some fields
        | _ => None
        end
    | snapshot_null => None
    end.

(** The two entries of [localStorage] that the store uses; [None] is the
    [null] that [getItem] returns for a missing key. *)
Record LocalStorage : Type := {
  provider_settings : option (stored Snapshot);
  auto_enabled_providers : option (stored (list string))
}.

(** The mutable state: the object held by [providersStore] and the
    storage. *)
Record State (ProviderInfo : Type) : Type := {
  providersStore : gmap string (IProviderConfig ProviderInfo);
  localStorage : LocalStorage
}.
Arguments providersStore {ProviderInfo} _.
Arguments localStorage {ProviderInfo} _.

(** *** State and exceptions *)

(** A computation over a mutable state [S]: what is written before a
    throw stays written. *)
Definition M (S A : Type) : Type := S -> outcome A * S.

Definition ret {S A} (a : A) : M S A := fun s => (Return a, s).
Definition throw {S A} (e : error) : M S A := fun s => (Throw e, s).
Definition bind {S A B} (m : M S A) (k : A -> M S B) : M S B :=
  fun s =>
    match m s with
    | (Return a, s') => k a s'
    | (Throw e, s') => (Throw e, s')
    end.
Definition try_catch {S A} (m : M S A) (handler : error -> M S A) : M S A :=
  fun s =>
    match m s with
    | (Return a, s') => (Return a, s')
    | (Throw e, s') => handler e s'
    end.
Definition gets {S A} (f : S -> A) : M S A := fun s => (Return (f s), s).
Definition modify {S} (f : S -> S) : M S unit := fun s => (Return tt, f s).

Notation "'let!' x ':=' m 'in' k" := (bind m (fun x => k))
  (at level 10, x name, m at level 100, k at level 200,
   format "'[v' 'let!'  x  ':='  m  'in' '/' k ']'").
Notation "m ';;' k" := (bind m (fun _ => k))
  (at level 100, k at level 200, right associativity).

(** [l.forEach(f)] for a callback that updates local variables [acc]. *)
Fixpoint forEach {S A B} (f : B -> A -> M S B) (acc : B) (l : list A) : M S B :=
  match l with
  | [] => ret acc
  | x :: l' => let! acc' := f acc x in forEach f acc' l'
  end.

(** The state a computation leaves, and its result. *)
Definition exec {S A} (m : M S A) (s : S) : S := snd (m s).
Definition result {S A} (m : M S A) (s : S) : outcome A := fst (m s).

(** *** JSON *)

(** What [getItem] returns is truthy unless it is [null] or the empty
    string. *)
Definition item_truthy {A} (item : option (stored A)) : bool :=
  match item with
  | None | Some Empty => false
  | Some Malformed | Some (Json _) => true
  end.

(** [JSON.parse(text)] *)
Definition JSON_parse {S A} (text : stored A) : M S A :=
  match text with
  | Json doc => ret doc
  | Empty | Malformed => throw SyntaxError
  end.

(** [item ? JSON.parse(item) : []] *)
Definition parse_or_empty {S} (item : option (stored (list string))) :
    M S (list string) :=
  match item with
  | Some text => if item_truthy item then JSON_parse text else ret []
  | None => ret []
  end.

(** [JSON.stringify] leaves out the properties whose value is
    [undefined]. *)
Definition stringify_record (o : gmap string value) : gmap string value :=
  filter (fun kv => kv.2 <> Undefined) o.

(** [JSON.stringify(map)], read back as a snapshot: every entry has its
    [settings] record.  The finite map does not keep the order in which
    the keys were set, and the entries come in the order of
    [map_to_list]; the order of a snapshot only matters when reading it
    stops at a [null] entry, which a written snapshot does not have. *)
Definition JSON_stringify {ProviderInfo}
    (m : gmap string (IProviderConfig ProviderInfo)) : stored Snapshot :=
  Json (snapshot_entries
          ((fun kv =>
              (kv.1, entry_value (Some (settings_record (stringify_record (settings kv.2))))))
             <$> map_to_list m)).

(** [[...new Set(l)]]: the first occurrence of every element, in order. *)
Fixpoint unique_from (seen l : list string) : list string :=
  match l with
  | [] => []
  | x :: l' =>
      if array_includes seen x then unique_from seen l'
      else x :: unique_from (x :: seen) l'
  end.
Definition unique (l : list string) : list string := unique_from [] l.

(** *** The operations of the store *)

Section Store.

Context {ProviderInfo : Type}.

(** [provider.name] *)
Variable provider_name : ProviderInfo -> string.

(** The provider list of the application. *)
Variable PROVIDER_LIST : list ProviderInfo.

(** [typeof window !== 'undefined'] *)
Variable isBrowser : bool.

Abbreviation ProviderSetting := (gmap string (IProviderConfig ProviderInfo)).
Abbreviation Store := (State ProviderInfo).

(** The object [initialSettings] while [getInitialProviderSettings] builds
    it: the cast [(value as IProviderConfig)] checks nothing, and
    [settings] is whatever the snapshot held, [None] for [undefined]. *)
Abbreviation InitialSettings :=
  (gmap string (ProviderEntry ProviderInfo (option SavedSettings))).

(** [localStorage] only exists in a browser. *)
Definition localStorage_object {S} : M S unit :=
  if isBrowser then ret tt else throw ReferenceError.

Definition getItem_PROVIDER_SETTINGS :
    M Store (option (stored Snapshot)) :=
  localStorage_object ;; gets (fun st => provider_settings (localStorage st)).

Definition getItem_AUTO_ENABLED : M Store (option (stored (list string))) :=
  localStorage_object ;; gets (fun st => auto_enabled_providers (localStorage st)).

Definition setItem_PROVIDER_SETTINGS
    (text : stored Snapshot) : M Store unit :=
  localStorage_object ;;
  modify (fun st =>
    {| providersStore := providersStore st;
       localStorage :=
         {| provider_settings := Some text;
            auto_enabled_providers := auto_enabled_providers (localStorage st) |} |}).

Definition setItem_AUTO_ENABLED (names : list string) : M Store unit :=
  localStorage_object ;;
  modify (fun st =>
    {| providersStore := providersStore st;
       localStorage :=
         {| provider_settings := provider_settings (localStorage st);
            auto_enabled_providers := Some (Json names) |} |}).

(** [providersStore.get()] hands out the object that the store holds. *)
Definition providersStore_get : M Store ProviderSetting :=
  gets providersStore.

Definition providersStore_set (m : ProviderSetting) : M Store unit :=
  modify (fun st => {| providersStore := m; localStorage := localStorage st |}).

(** [providersStore.setKey(key, v)] for a fresh object [v]. *)
Definition providersStore_setKey (key : string) (v : IProviderConfig ProviderInfo) :
    M Store unit :=
  modify (fun st =>
    {| providersStore := <[key := v]> (providersStore st);
       localStorage := localStorage st |}).

(** [currentSettings[key] = v], where [currentSettings] is the object that
    [providersStore.get()] handed out: the store sees the write. *)
Definition currentSettings_assign (key : string) (v : IProviderConfig ProviderInfo) :
    M Store unit :=
  modify (fun st =>
    {| providersStore := <[key := v]> (providersStore st);
       localStorage := localStorage st |}).

(** [p.settings.enabled] *)
Definition enabled (p : IProviderConfig ProviderInfo) : value :=
  get (settings p) "enabled".

(** The defaults: [{ ...provider, settings: { enabled: ... } }] for every
    provider of the list, a later provider of the same name replacing an
    earlier one.  (The names of the list are taken to differ from
    [__proto__], under which an assignment sets no property.) *)
Definition default_entry (provider : ProviderInfo) :
    ProviderEntry ProviderInfo (option SavedSettings) :=
  {| info := Some provider;
     settings :=
       Some (settings_record
         {[ "enabled" :=
              Bool (negb (array_includes LOCAL_PROVIDERS (provider_name provider))) ]}) |}.

Definition default_settings : InitialSettings :=
  foldl (fun acc provider => <[provider_name provider := default_entry provider]> acc)
        ∅ PROVIDER_LIST.

(** [Object.entries(parsed)] *)
Definition Object_entries {S} (parsed : Snapshot) : M S (list (string * SavedEntry)) :=
  match parsed with
  | snapshot_null => throw TypeError
  | snapshot_entries entries => ret entries
  end.

(** [value.settings] *)
Definition read_settings {S} (value : SavedEntry) : M S (option SavedSettings) :=
  match value with
  | entry_null => throw TypeError
  | entry_value own_settings => ret own_settings
  end.

(** The callback of [Object.entries(parsed).forEach]: the local object
    [initialSettings] is the state.  [initialSettings[key]] is truthy for
    a key of the object and for a name that the object inherits; in both
    cases [value.settings] is read, which throws when [value] is [null].
    For an inherited name the assignment lands on the inherited object and
    the keys and entries of [initialSettings] are as before; what the
    assignment does to that object is left out (under [__proto__] it is
    [Object.prototype] itself, whose new [settings] property a later
    entry without one would read). *)
Definition overlay_entry (_ : unit) (entry : string * SavedEntry) :
    M InitialSettings unit :=
  let '(key, value) := entry in
  let! initialSettings := gets id in
  match initialSettings !! key with
  | Some p =>
      let! value_settings := read_settings value in
      modify (fun m => <[key := {| info := info p; settings := value_settings |}]> m)
  | None =>
      if array_includes Object_prototype key
      then read_settings value ;; ret tt
      else ret tt
  end.

(** The part of [getInitialProviderSettings] that follows the defaults; it
    runs on the local object [initialSettings].  One [try] holds the
    parsing and the loop: what the loop has written before a throw stays
    written. *)
Definition load_saved_settings (storage : LocalStorage) : M InitialSettings unit :=
  if isBrowser then
    let savedSettings := provider_settings storage in
    match savedSettings with
    | Some text =>
        if item_truthy savedSettings then
          try_catch
            (let! parsed := JSON_parse text in
             let! entries := Object_entries parsed in
             forEach overlay_entry tt entries)
            (fun _ => ret tt)
        else ret tt
    | None => ret tt
    end
  else ret tt.

Definition getInitialProviderSettings (storage : LocalStorage) : InitialSettings :=
  exec (load_saved_settings storage) default_settings.

(** [map<ProviderSetting>(getInitialProviderSettings())]: the store is
    declared to hold entries of type [IProviderConfig], and it is
    modelled with that type.  [as_config] is the entry at that type when
    its [settings] is a record; the store starts with the entries that
    have it, which are all of them when [well_typed] holds. *)
Definition as_config (q : ProviderEntry ProviderInfo (option SavedSettings)) :
    option (IProviderConfig ProviderInfo) :=
  match settings q with
  | Some (settings_record fields) => Some {| info := info q; settings := fields |}
  | _ => None
  end.

Definition well_typed (storage : LocalStorage) : Prop :=
  forall key q,
    getInitialProviderSettings storage !! key = Some q -> is_Some (as_config q).

Definition providersStore_initial (storage : LocalStorage) : ProviderSetting :=
  omap as_config (getInitialProviderSettings storage).

(** The state when the module has been loaded. *)
Definition initial_state (storage : LocalStorage) : Store :=
  {| providersStore := providersStore_initial storage; localStorage := storage |}.

(** The callback of [configuredProviders.forEach]; the local variables
    [newlyAutoEnabled] and [hasChanges] are threaded, and [currentSettings]
    is the object of the store, written in place. *)
Definition autoEnable_entry
    (savedSettings : option (stored Snapshot))
    (previouslyAutoEnabled : list string)
    (locals : list string * bool) (cp : ConfiguredProvider.t) :
    M Store (list string * bool) :=
  let '(newlyAutoEnabled, hasChanges) := locals in
  let name := ConfiguredProvider.name cp in
  if ConfiguredProvider.isConfigured cp
     && bool_decide (ConfiguredProvider.configMethod cp = ConfiguredProvider.environment)
     && array_includes LOCAL_PROVIDERS name
  then
    let! currentSettings := providersStore_get in
    match currentSettings !! name with
    | Some currentProvider =>
        let hasUserSettings := bool_decide (savedSettings <> None) in
        let wasAutoEnabled := array_includes previouslyAutoEnabled name in
        let shouldAutoEnable :=
          negb (truthy (enabled currentProvider))
          && (negb hasUserSettings || wasAutoEnabled) in
        if shouldAutoEnable then
          currentSettings_assign name
            {| info := info currentProvider;
               settings := <["enabled" := Bool true]> (settings currentProvider) |} ;;
          ret (newlyAutoEnabled ++ [name], true)
        else ret locals
    | None => ret locals
    end
  else ret locals.

(** [configuredProviders] is what [fetchConfiguredProviders] resolved
    to. *)
Definition autoEnableConfiguredProviders
    (configuredProviders : list ConfiguredProvider.t) : M Store unit :=
  if negb isBrowser then ret tt
  else
    try_catch
      (let! savedSettings := getItem_PROVIDER_SETTINGS in
       let! autoEnabledProviders := getItem_AUTO_ENABLED in
       let! previouslyAutoEnabled := parse_or_empty autoEnabledProviders in
       let! locals :=
         forEach (autoEnable_entry savedSettings previouslyAutoEnabled)
                 ([], false) configuredProviders in
       let '(newlyAutoEnabled, hasChanges) := locals in
       if (hasChanges : bool) then
         let! currentSettings := providersStore_get in
         providersStore_set currentSettings ;;
         setItem_PROVIDER_SETTINGS (JSON_stringify currentSettings) ;;
         setItem_AUTO_ENABLED (unique (previouslyAutoEnabled ++ newlyAutoEnabled))
       else ret tt)
      (fun _ => ret tt).

Definition updateAutoEnabledTracking (providerName : string) (isEnabled : value) :
    M Store unit :=
  if negb isBrowser then ret tt
  else
    try_catch
      (let! autoEnabledProviders := getItem_AUTO_ENABLED in
       let! currentAutoEnabled := parse_or_empty autoEnabledProviders in
       if truthy isEnabled then
         if negb (array_includes currentAutoEnabled providerName) then
           setItem_AUTO_ENABLED (currentAutoEnabled ++ [providerName])
         else ret tt
       else
         setItem_AUTO_ENABLED
           (filter (fun name => name <> providerName) currentAutoEnabled))
      (fun _ => ret tt).

(** [{ ...a, ...b }]: the properties of [b] win. *)
Definition spread (a b : gmap string value) : gmap string value := b ∪ a.

(** [currentSettings[provider]], as the two spreads of the update read it:
    the entry of the map; for a name that the map lacks and a plain object
    inherits, an object with no field to spread and no [settings]; and
    [undefined] otherwise. *)
Definition spread_source (currentSettings : ProviderSetting) (provider : string) :
    option (IProviderConfig ProviderInfo) :=
  match currentSettings !! provider with
  | Some current => Some current
  | None =>
      if array_includes Object_prototype provider
      then Some {| info := None; settings := ∅ |}
      else None
  end.

Definition updateProviderSettings (provider : string) (settings' : gmap string value) :
    M Store unit :=
  let! currentSettings := providersStore_get in
  match spread_source currentSettings provider with
  | None => throw TypeError
  | Some current =>
      let updatedProvider :=
        {| info := info current; settings := spread (settings current) settings' |} in
      providersStore_setKey provider updatedProvider ;;
      let! allSettings := providersStore_get in
      setItem_PROVIDER_SETTINGS (JSON_stringify allSettings) ;;
      if array_includes LOCAL_PROVIDERS provider && defined (enabled updatedProvider)
      then updateAutoEnabledTracking provider (enabled updatedProvider)
      else ret tt
  end.

(** *** Reading a state *)

(** A provider is enabled when the map has it with a truthy [enabled], and
    disabled when the map has it with a falsy one. *)
Definition is_enabled (m : ProviderSetting) (n : string) : bool :=
  match m !! n with
  | Some p => truthy (enabled p)
  | None => false
  end.

Definition is_disabled (m : ProviderSetting) (n : string) : bool :=
  match m !! n with
  | Some p => negb (truthy (enabled p))
  | None => false
  end.

(** The entry of a provider once it is switched on. *)
Definition enable (p : IProviderConfig ProviderInfo) : IProviderConfig ProviderInfo :=
  {| info := info p; settings := <["enabled" := Bool true]> (settings p) |}.

(** A snapshot exists when [getItem] does not answer [null]. *)
Definition snapshot_exists (storage : LocalStorage) : bool :=
  match provider_settings storage with
  | Some _ => true
  | None => false
  end.

(** The persisted history, empty when nothing readable is stored. *)
Definition history (storage : LocalStorage) : list string :=
  match auto_enabled_providers storage with
  | Some (Json names) => names
  | _ => []
  end.

Definition history_readable (storage : LocalStorage) : bool :=
  match auto_enabled_providers storage with
  | Some Malformed => false
  | _ => true
  end.

(** The report marks [n] configured through the environment. *)
Definition reported_by_environment (report : list ConfiguredProvider.t) (n : string) :
    bool :=
  existsb
    (fun cp =>
       String.eqb (ConfiguredProvider.name cp) n
       && ConfiguredProvider.isConfigured cp
       && bool_decide (ConfiguredProvider.configMethod cp = ConfiguredProvider.environment))
    report.

(** *** The loop of the pass as a function

    [pass] returns the map that the loop leaves and the names that it
    pushed on [newlyAutoEnabled]. *)
Definition shouldAutoEnable
    (savedSettings : option (stored Snapshot))
    (previouslyAutoEnabled : list string)
    (currentProvider : IProviderConfig ProviderInfo) (name : string) : bool :=
  negb (truthy (enabled currentProvider))
  && (negb (bool_decide (savedSettings <> None))
      || array_includes previouslyAutoEnabled name).

Definition eligible (cp : ConfiguredProvider.t) : bool :=
  ConfiguredProvider.isConfigured cp
  && bool_decide (ConfiguredProvider.configMethod cp = ConfiguredProvider.environment)
  && array_includes LOCAL_PROVIDERS (ConfiguredProvider.name cp).

Fixpoint pass
    (savedSettings : option (stored Snapshot))
    (previouslyAutoEnabled : list string)
    (m : ProviderSetting) (report : list ConfiguredProvider.t) :
    ProviderSetting * list string :=
  match report with
  | [] => (m, [])
  | cp :: rest =>
      let name := ConfiguredProvider.name cp in
      match (if eligible cp then m !! name else None) with
      | Some p =>
          if shouldAutoEnable savedSettings previouslyAutoEnabled p name then
            let r := pass savedSettings previouslyAutoEnabled
                          (<[name := enable p]> m) rest in
            (r.1, name :: r.2)
          else pass savedSettings previouslyAutoEnabled m rest
      | None => pass savedSettings previouslyAutoEnabled m rest
      end
  end.

(** *** The overlay of a snapshot as a function *)

(** [initialSettings[key]] is truthy. *)
Definition truthy_key (m : InitialSettings) (key : string) : bool :=
  bool_decide (is_Some (m !! key)) || array_includes Object_prototype key.

(** The entry at which the loop throws. *)
Definition stops (m : InitialSettings) (entry : string * SavedEntry) : bool :=
  match entry.2 with
  | entry_null => truthy_key m entry.1
  | entry_value _ => false
  end.


(** The assignments [initialSettings[key].settings = value.settings] that
    the loop makes to entries of the object, in order, up to the entry at
    which it throws. *)
Fixpoint assignments (m : InitialSettings) (entries : list (string * SavedEntry)) :
    list (string * option SavedSettings) :=
  match entries with
  | [] => []
  | (key, value) :: rest =>
      match value with
      | entry_null => if truthy_key m key then [] else assignments m rest
      | entry_value own_settings =>
          if bool_decide (is_Some (m !! key))
          then (key, own_settings) :: assignments m rest
          else assignments m rest
      end
  end.

(** The object once the assignments are made. *)
Definition overlay (assigned : list (string * option SavedSettings))
    (m : InitialSettings) : InitialSettings :=
  map_imap
    (fun key p =>
       Some match entry_of assigned key with
            | Some value_settings => {| info := info p; settings := value_settings |}
            | None => p
            end)
    m.

End Store.

End Settings.

(** ** The route [api.configured-providers] *)

Module Api.

Import JS.

(** [providerInstance.config]: the names of the environment variables
    that hold the base URL and the API token of the provider. *)
Record ProviderConfig : Type := {
  baseUrlKey : option string;
  apiTokenKey : option string
}.

Record ProviderInstance : Type := {
  config : ProviderConfig
}.

(** The manager that [LLMManager.getInstance] returns: its registry of
    providers, which may fail, and its own environment table. *)
Record LLMManager : Type := {
  getProvider : string -> outcome (option ProviderInstance);
  env : gmap string value
}.

(** What one request sees. *)
Record Context : Type := {
  cloudflare_env : option (gmap string value);  (* context?.cloudflare?.env *)
  process_env : gmap string string;             (* process.env *)
  getInstance : outcome LLMManager              (* LLMManager.getInstance(...) *)
}.

Record Response : Type := {
  status : Z;
  providers : list ConfiguredProvider.t
}.

(** [json(body)] answers with status 200. *)
Definition json (body : list ConfiguredProvider.t) : Response :=
  {| status := 200; providers := body |}.

Definition bind {A B} (m : outcome A) (k : A -> outcome B) : outcome B :=
  match m with
  | Return a => k a
  | Throw e => Throw e
  end.

Notation "'let!' x ':=' m 'in' k" := (bind m (fun x => k))
  (at level 10, x name, m at level 100, k at level 200,
   format "'[v' 'let!'  x  ':='  m  'in' '/' k ']'").

(** [for (const x of l) { out.push(f(x)) }] *)
Fixpoint for_of {A B} (f : A -> outcome B) (l : list A) : outcome (list B) :=
  match l with
  | [] => Return []
  | x :: l' =>
      let! y := f x in
      let! ys := for_of f l' in
      Return (y :: ys)
  end.

(** [if (key)] for an optional string. *)
Definition key_truthy (key : option string) : bool :=
  match key with
  | Some k => negb (String.eqb k "")
  | None => false
  end.

(** [(context?.cloudflare?.env)?.[key]] *)
Definition cloudflare_lookup (ctx : Context) (key : string) : value :=
  match cloudflare_env ctx with
  | Some e => get e key
  | None => Undefined
  end.

(** [process.env[key]] *)
Definition process_lookup (ctx : Context) (key : string) : value :=
  match process_env ctx !! key with
  | Some s => Str s
  | None => Undefined
  end.

(** [cloudflareEnv || processEnv || managerEnv] *)
Definition env_value (ctx : Context) (llmManager : LLMManager) (key : string) : value :=
  JS.or (JS.or (cloudflare_lookup ctx key) (process_lookup ctx key))
        (get (env llmManager) key).

Definition isValidEnvValue (envBaseUrl : value) : bool :=
  truthy envBaseUrl &&
  match envBaseUrl with
  | Str s =>
      (0 <? String.length (trim s))%nat
      && negb (includes s "your_")
      && negb (includes s "_here")
      && startsWith s "http"
  | _ => false
  end.

Definition isValidApiToken (envApiToken : value) : bool :=
  truthy envApiToken &&
  match envApiToken with
  | Str s =>
      (0 <? String.length (trim s))%nat
      && negb (includes s "your_")
      && negb (includes s "_here")
      && (10 <? String.length s)%nat
  | _ => false
  end.

(** The body of the loop for a provider that the registry knows. *)
Definition check_config (ctx : Context) (llmManager : LLMManager)
    (config : ProviderConfig) : bool * ConfiguredProvider.ConfigMethod :=
  let isConfigured := false in
  let configMethod := ConfiguredProvider.none in
  let '(isConfigured, configMethod) :=
    match baseUrlKey config with
    | Some baseUrlEnvVar =>
        if key_truthy (baseUrlKey config)
           && isValidEnvValue (env_value ctx llmManager baseUrlEnvVar)
        then (true, ConfiguredProvider.environment)
        else (isConfigured, configMethod)
    | None => (isConfigured, configMethod)
    end in
  match apiTokenKey config with
  | Some apiTokenEnvVar =>
      if key_truthy (apiTokenKey config) && negb isConfigured
         && isValidApiToken (env_value ctx llmManager apiTokenEnvVar)
      then (true, ConfiguredProvider.environment)
      else (isConfigured, configMethod)
  | None => (isConfigured, configMethod)
  end.

Definition check_provider (ctx : Context) (llmManager : LLMManager)
    (providerName : string) : outcome ConfiguredProvider.t :=
  let! providerInstance := getProvider llmManager providerName in
  let '(isConfigured, configMethod) :=
    match providerInstance with
    | Some instance => check_config ctx llmManager (config instance)
    | None => (false, ConfiguredProvider.none)
    end in
  Return (ConfiguredProvider.mk providerName isConfigured configMethod).

(** The [try] block of the loader. *)
Definition detect (ctx : Context) : outcome (list ConfiguredProvider.t) :=
  let! llmManager := getInstance ctx in
  for_of (check_provider ctx llmManager) Settings.LOCAL_PROVIDERS.

Definition unconfigured (name : string) : ConfiguredProvider.t :=
  ConfiguredProvider.mk name false ConfiguredProvider.none.

Definition loader (ctx : Context) : Response :=
  match detect ctx with
  | Return configuredProviders => json configuredProviders
  | Throw _ => json (map unconfigured Settings.LOCAL_PROVIDERS)
  end.

(** A configuration with one of its keys left out: what the check computes
    when it does not take that path. *)
Definition without_baseUrlKey (config : ProviderConfig) : ProviderConfig :=
  {| baseUrlKey := None; apiTokenKey := apiTokenKey config |}.
Definition without_apiTokenKey (config : ProviderConfig) : ProviderConfig :=
  {| baseUrlKey := baseUrlKey config; apiTokenKey := None |}.

End Api.

(** ** Scenarios *)

Module Examples.

Import JS Settings.

(** A provider list whose entries are just names. *)
Definition providers : list string := ["OpenAI"; "Ollama"; "LMStudio"; "OpenAILike"].

Definition fresh_storage : LocalStorage :=
  {| provider_settings := None; auto_enabled_providers := None |}.

(** The first run on a machine that has stored nothing. *)
Definition first_run : State string := initial_state id providers true fresh_storage.

(** An entry of a snapshot with its settings record. *)
Definition with_settings (fields : gmap string value) : SavedEntry :=
  entry_value (Some (settings_record fields)).

(** The detector found Ollama in the environment and nothing else. *)
Definition ollama_detected : list ConfiguredProvider.t :=
  [ ConfiguredProvider.mk "OpenAILike" false ConfiguredProvider.none;
    ConfiguredProvider.mk "LMStudio" false ConfiguredProvider.none;
    ConfiguredProvider.mk "Ollama" true ConfiguredProvider.environment ].

Definition nothing_detected : list ConfiguredProvider.t :=
  [ ConfiguredProvider.mk "OpenAILike" false ConfiguredProvider.none;
    ConfiguredProvider.mk "LMStudio" false ConfiguredProvider.none;
    ConfiguredProvider.mk "Ollama" false ConfiguredProvider.none ].

(** The user switched Ollama off; the pass never switched it on. *)
Definition user_disabled_storage : LocalStorage :=
  {| provider_settings :=
       Some (Json (snapshot_entries
         [("Ollama", with_settings {[ "enabled" := Bool false ]})]));
     auto_enabled_providers := None |}.

Definition user_disabled : State string :=
  initial_state id providers true user_disabled_storage.

(** A snapshot with Ollama on and no history stored beside it. *)
Definition enabled_storage : LocalStorage :=
  {| provider_settings :=
       Some (Json (snapshot_entries
         [("Ollama", with_settings {[ "enabled" := Bool true ]})]));
     auto_enabled_providers := None |}.

Definition enabled_untracked : State string :=
  initial_state id providers true enabled_storage.

Definition base_url_only : gmap string value :=
  {[ "baseUrl" := Str "http://127.0.0.1:11434" ]}.





(** A request whose process environment holds a placeholder token for a
    provider that declares only a token key. *)
Definition token_only : Api.ProviderConfig :=
  {| Api.baseUrlKey := None; Api.apiTokenKey := Some "OPENAI_LIKE_API_KEY" |}.

Definition url_only : Api.ProviderConfig :=
  {| Api.baseUrlKey := Some "OLLAMA_API_BASE_URL"; Api.apiTokenKey := None |}.

Definition registry : Api.LLMManager :=
  {| Api.getProvider := fun name =>
       if String.eqb name "OpenAILike" then Return (Some {| Api.config := token_only |})
       else if String.eqb name "Ollama" then Return (Some {| Api.config := url_only |})
       else Return None;
     Api.env := ∅ |}.

Definition placeholder_request : Api.Context :=
  {| Api.cloudflare_env := None;
     Api.process_env := {[ "OPENAI_LIKE_API_KEY" := "sk-your_key_here" ]};
     Api.getInstance := Return registry |}.

Definition padded_request : Api.Context :=
  {| Api.cloudflare_env := None;
     Api.process_env := {[ "OLLAMA_API_BASE_URL" := " http://localhost:11434" ]};
     Api.getInstance := Return registry |}.

(** A registry that answers for two providers and fails on the third. *)
Definition failing_registry : Api.LLMManager :=
  {| Api.getProvider := fun name =>
       if String.eqb name "Ollama" then Throw (Error "registry unavailable")
       else Return None;
     Api.env := ∅ |}.

Definition failing_request : Api.Context :=
  {| Api.cloudflare_env := None;
     Api.process_env := ∅;
     Api.getInstance := Return failing_registry |}.

End Examples.

(** ** A session of the store *)

Module Session.

Import JS Settings.

(** *** Fetching the report *)

(** What [fetch] resolves to: the status line and what [response.json()]
    gives, a body with or without [providers], or a rejection when the
    text is not JSON. *)
Record FetchResponse : Type := {
  status : Z;
  statusText : string;
  json : outcome (option (list ConfiguredProvider.t))
}.

(** [response.ok]: the status is in the range 200-299. *)
Definition ok (response : FetchResponse) : bool :=
  (200 <=? status response)%Z && (status response <=? 299)%Z.

(** [`HTTP ${response.status}: ${response.statusText}`] *)
Definition http_error (response : FetchResponse) : error :=
  Error ("HTTP " +:+ DecimalString.NilZero.string_of_int (Z.to_int (status response))
         +:+ ": " +:+ statusText response).

(** [fetchConfiguredProviders], given what [fetch] settled to. *)
Definition fetchConfiguredProviders (fetched : outcome FetchResponse) :
    list ConfiguredProvider.t :=
  let attempt : outcome (list ConfiguredProvider.t) :=
    Api.bind fetched (fun response =>
      if negb (ok response) then Throw (http_error response)
      else
        Api.bind (json response) (fun data =>
          Return match data with
                 | Some providers => providers   (* an array is truthy *)
                 | None => []
                 end)) in
  match attempt with
  | Return configuredProviders => configuredProviders
  | Throw _ => []
  end.

(** The answer of the route as [fetch] sees it when it arrives intact. *)
Definition delivered (response : Api.Response) : outcome FetchResponse :=
  Return {| status := Api.status response;
            statusText := "OK";
            json := Return (Some (Api.providers response)) |}.

Section Actions.

Context {ProviderInfo : Type}.

(** [initializeProviders()]: the fetch, then the pass over what it
    returned. *)
Definition initializeProviders (isBrowser : bool) (fetched : outcome FetchResponse) :
    M (State ProviderInfo) unit :=
  autoEnableConfiguredProviders isBrowser (fetchConfiguredProviders fetched).

(** What can happen to the store during a session: a pass over a report,
    or a change made by the user. *)
Inductive action : Type :=
| AutoEnable (report : list ConfiguredProvider.t)
| Update (provider : string) (settings' : gmap string value).

Definition run_action (isBrowser : bool) (a : action) : M (State ProviderInfo) unit :=
  match a with
  | AutoEnable report => autoEnableConfiguredProviders isBrowser report
  | Update provider settings' => updateProviderSettings isBrowser provider settings'
  end.

(** The state after a sequence of actions; an update that throws ends its
    own handler only. *)
Definition run_session (isBrowser : bool) (actions : list action)
    (st : State ProviderInfo) : State ProviderInfo :=
  foldl (fun st a => exec (run_action isBrowser a) st) st actions.

(** The persisted history names local providers only, each once. *)
Definition history_ok (storage : LocalStorage) : Prop :=
  NoDup (history storage) /\ forall x, x ∈ history storage -> x ∈ LOCAL_PROVIDERS.

(** The persisted snapshot is the map as it stands. *)
Definition in_sync (st : State ProviderInfo) : Prop :=
  provider_settings (localStorage st) = Some (JSON_stringify (providersStore st)).

End Actions.

End Session.

(** ** The other settings of the store *)

Module Preferences.

Import JS Settings.

Module SETTINGS_KEYS.
Definition LATEST_BRANCH : string := "isLatestBranch".
Definition AUTO_SELECT_TEMPLATE : string := "autoSelectTemplate".
Definition CONTEXT_OPTIMIZATION : string := "contextOptimizationEnabled".
Definition EVENT_LOGS : string := "isEventLogsEnabled".
Definition PROMPT_ID : string := "promptId".
Definition DEVELOPER_MODE : string := "isDeveloperMode".
End SETTINGS_KEYS.

(** The entries of [localStorage] behind these settings: the ones that
    are read through [JSON.parse], by key, and the prompt id, which is
    stored and read as plain text. *)
Record PreferenceStorage : Type := {
  flags : gmap string (stored value);
  promptId_item : option string
}.

(** [JSON.parse(stored)] inside [try]: the value, or the exception. *)
Definition parse (text : stored value) : outcome value :=
  result (JSON_parse text) tt.

Definition getStoredBoolean (isBrowser : bool) (storage : PreferenceStorage)
    (key : string) (defaultValue : bool) : value :=
  if negb isBrowser then Bool defaultValue
  else
    match flags storage !! key with
    | None => Bool defaultValue
    | Some stored_text =>
        match parse stored_text with
        | Return v => v
        | Throw _ => Bool defaultValue
        end
    end.

Record InitialSettings : Type := {
  latestBranch : value;
  autoSelectTemplate : value;
  contextOptimization : value;
  eventLogs : value;
  promptId : string;
  developerMode : value
}.

Definition getInitialSettings (isBrowser : bool) (storage : PreferenceStorage) :
    InitialSettings :=
  {| latestBranch := getStoredBoolean isBrowser storage SETTINGS_KEYS.LATEST_BRANCH false;
     autoSelectTemplate :=
       getStoredBoolean isBrowser storage SETTINGS_KEYS.AUTO_SELECT_TEMPLATE true;
     contextOptimization :=
       getStoredBoolean isBrowser storage SETTINGS_KEYS.CONTEXT_OPTIMIZATION true;
     eventLogs := getStoredBoolean isBrowser storage SETTINGS_KEYS.EVENT_LOGS true;
     promptId :=
       if isBrowser then
         match promptId_item storage with
         | Some text => if String.eqb text "" then "default" else text
         | None => "default"
         end
       else "default";
     developerMode :=
       getStoredBoolean isBrowser storage SETTINGS_KEYS.DEVELOPER_MODE false |}.

(** The atoms that hold the settings during a session, with the
    storage. *)
Record Atoms : Type := {
  latestBranchStore : value;
  autoSelectStarterTemplate : value;
  enableContextOptimizationStore : value;
  isEventLogsEnabled : value;
  promptStore : string;
  storage : PreferenceStorage
}.

(** The atoms as the module creates them. *)
Definition initial_atoms (isBrowser : bool) (s : PreferenceStorage) : Atoms :=
  let initialSettings := getInitialSettings isBrowser s in
  {| latestBranchStore := latestBranch initialSettings;
     autoSelectStarterTemplate := autoSelectTemplate initialSettings;
     enableContextOptimizationStore := contextOptimization initialSettings;
     isEventLogsEnabled := eventLogs initialSettings;
     promptStore := promptId initialSettings;
     storage := s |}.

Section Updates.

Variable isBrowser : bool.

(** [localStorage.setItem(key, JSON.stringify(enabled))] *)
Definition setItem_flag (key : string) (enabled : bool) : M Atoms unit :=
  (if isBrowser then ret tt else throw ReferenceError) ;;
  modify (fun a =>
    {| latestBranchStore := latestBranchStore a;
       autoSelectStarterTemplate := autoSelectStarterTemplate a;
       enableContextOptimizationStore := enableContextOptimizationStore a;
       isEventLogsEnabled := isEventLogsEnabled a;
       promptStore := promptStore a;
       storage :=
         {| flags := <[key := Json (Bool enabled)]> (flags (storage a));
            promptId_item := promptId_item (storage a) |} |}).

Definition updateLatestBranch (enabled : bool) : M Atoms unit :=
  modify (fun a =>
    {| latestBranchStore := Bool enabled;
       autoSelectStarterTemplate := autoSelectStarterTemplate a;
       enableContextOptimizationStore := enableContextOptimizationStore a;
       isEventLogsEnabled := isEventLogsEnabled a;
       promptStore := promptStore a;
       storage := storage a |}) ;;
  setItem_flag SETTINGS_KEYS.LATEST_BRANCH enabled.

Definition updateAutoSelectTemplate (enabled : bool) : M Atoms unit :=
  modify (fun a =>
    {| latestBranchStore := latestBranchStore a;
       autoSelectStarterTemplate := Bool enabled;
       enableContextOptimizationStore := enableContextOptimizationStore a;
       isEventLogsEnabled := isEventLogsEnabled a;
       promptStore := promptStore a;
       storage := storage a |}) ;;
  setItem_flag SETTINGS_KEYS.AUTO_SELECT_TEMPLATE enabled.

Definition updateContextOptimization (enabled : bool) : M Atoms unit :=
  modify (fun a =>
    {| latestBranchStore := latestBranchStore a;
       autoSelectStarterTemplate := autoSelectStarterTemplate a;
       enableContextOptimizationStore := Bool enabled;
       isEventLogsEnabled := isEventLogsEnabled a;
       promptStore := promptStore a;
       storage := storage a |}) ;;
  setItem_flag SETTINGS_KEYS.CONTEXT_OPTIMIZATION enabled.

Definition updateEventLogs (enabled : bool) : M Atoms unit :=
  modify (fun a =>
    {| latestBranchStore := latestBranchStore a;
       autoSelectStarterTemplate := autoSelectStarterTemplate a;
       enableContextOptimizationStore := enableContextOptimizationStore a;
       isEventLogsEnabled := Bool enabled;
       promptStore := promptStore a;
       storage := storage a |}) ;;
  setItem_flag SETTINGS_KEYS.EVENT_LOGS enabled.

(** The prompt id is stored as it is, not as JSON. *)
Definition updatePromptId (id : string) : M Atoms unit :=
  modify (fun a =>
    {| latestBranchStore := latestBranchStore a;
       autoSelectStarterTemplate := autoSelectStarterTemplate a;
       enableContextOptimizationStore := enableContextOptimizationStore a;
       isEventLogsEnabled := isEventLogsEnabled a;
       promptStore := id;
       storage := storage a |}) ;;
  (if isBrowser then ret tt else throw ReferenceError) ;;
  modify (fun a =>
    {| latestBranchStore := latestBranchStore a;
       autoSelectStarterTemplate := autoSelectStarterTemplate a;
       enableContextOptimizationStore := enableContextOptimizationStore a;
       isEventLogsEnabled := isEventLogsEnabled a;
       promptStore := promptStore a;
       storage :=
         {| flags := flags (storage a); promptId_item := Some id |} |}).

End Updates.

(** What a reload shows: the atoms built again from the storage. *)
Definition reload (a : Atoms) : Atoms := initial_atoms true (storage a).

End Preferences.

(** ** The configuration of the tabs *)

Module Tabs.

Import JS Settings.

Section Tabs.

(** [TabVisibilityConfig] and the default configuration come from the
    settings components; of a tab only its [window] is looked at. *)
Context {Tab : Type}.
Variable window : Tab -> string.
Variable DEFAULT_TAB_CONFIG : list Tab.
Variable isBrowser : bool.

(** [TabWindowConfig] *)
Record TabWindowConfig : Type := { userTabs : list Tab }.

(** What [JSON.parse] makes of the stored configuration: [userTabs] is
    there as an array, or it is not there to be used. *)
Definition TabDocument : Type := option (list Tab).

Record TabState : Type := {
  tabConfigurationStore : TabWindowConfig;
  bolt_tab_configuration : option (stored TabDocument)
}.

(** [tabs.filter((tab) => tab.window === 'user')] *)
Definition user_tabs (tabs : list Tab) : list Tab :=
  List.filter (fun tab => String.eqb (window tab) "user") tabs.

Definition defaultConfig : TabWindowConfig :=
  {| userTabs := user_tabs DEFAULT_TAB_CONFIG |}.

Definition getInitialTabConfiguration (saved : option (stored TabDocument)) :
    TabWindowConfig :=
  if negb isBrowser then defaultConfig
  else
    let attempt : outcome TabWindowConfig :=
      match saved with
      | Some text =>
          if item_truthy saved then
            match result (JSON_parse text) tt with
            | Return parsed =>
                match parsed with
                | Some parsed_userTabs =>
                    Return {| userTabs := user_tabs parsed_userTabs |}
                | None => Return defaultConfig
                end
            | Throw e => Throw e
            end
          else Return defaultConfig
      | None => Return defaultConfig
      end in
    match attempt with
    | Return config => config
    | Throw _ => defaultConfig
    end.

Definition resetTabConfiguration : M TabState unit :=
  modify (fun st =>
    {| tabConfigurationStore := defaultConfig;
       bolt_tab_configuration := bolt_tab_configuration st |}) ;;
  (if isBrowser then ret tt else throw ReferenceError) ;;
  modify (fun st =>
    {| tabConfigurationStore := tabConfigurationStore st;
       bolt_tab_configuration := Some (Json (Some (userTabs defaultConfig))) |}).

End Tabs.

End Tabs.

(** ** The development script for Electron *)

Module ElectronDev.

Import JS Settings.

Definition REMIX_PORT : Z := 5173.
Definition CHECK_INTERVAL : Z := 1000.
Definition MAX_RETRIES : nat := 30.

(** [waitForServer]: [lsof k] is what the [k]-th run of [lsof] printed, the
    first run being number 0.  The loop returns how the promise settled
    and the value of [retries] at that moment, which is also the number of
    timers it has set. *)
Equations checkServer (lsof : nat -> string) (serverName : string) (retries : nat) :
    outcome unit * nat by wf (MAX_RETRIES - retries) lt :=
  checkServer lsof serverName retries with truthy (Str (lsof retries)) := {
    | true => (Return tt, retries)
    | false with le_lt_dec MAX_RETRIES retries := {
        | left _ =>
            (Throw (Error ("Timeout waiting for " +:+ serverName +:+ " to start")),
             retries)
        | right Hlt => checkServer lsof serverName (S retries) } }.
Next Obligation. unfold MAX_RETRIES in *. lia. Qed.

Definition waitForServer (lsof : Z -> nat -> string) (port : Z) (serverName : string) :
    outcome unit * nat :=
  checkServer (lsof port) serverName 0.

(** The time spent on timers, in milliseconds. *)
Definition waited (retries : nat) : Z := Z.of_nat retries * CHECK_INTERVAL.

(** The event of a child process that settles the promise of
    [buildElectronDeps]: the first ['close'], with its exit code or [null],
    or the first ['error']. *)
Inductive ChildEvent : Type :=
| Close (code : option Z)
| ProcessError (message : string).

(** [`${code}`] *)
Definition show_code (code : option Z) : string :=
  match code with
  | Some z => DecimalString.NilZero.string_of_int (Z.to_int z)
  | None => "null"
  end.

Definition buildElectronDeps (first : ChildEvent) : outcome unit :=
  match first with
  | Close code =>
      if bool_decide (code = Some 0%Z) then Return tt
      else Throw (Error ("Build failed with exit code: " +:+ show_code code))
  | ProcessError message => Throw (Error ("Build process error: " +:+ message))
  end.

(** What the script does to the outside. *)
Inductive child : Type := Electron | Remix.

Inductive effect : Type :=
| Spawn (command : string) (args : list string) (env : list (string * string))
| Kill (process : child) (signal : string)
| Exit (code : Z).

#[global] Instance child_eq_dec : EqDecision child.
Proof. solve_decision. Defined.
#[global] Instance effect_eq_dec : EqDecision effect.
Proof. solve_decision. Defined.

(** The two handles of the script, what it has done so far, and whether
    [process.exit] has been called. *)
Record Script : Type := {
  electronProcess : bool;
  remixProcess : bool;
  effects : list effect;
  exited : bool
}.

Definition start : Script :=
  {| electronProcess := false; remixProcess := false; effects := []; exited := false |}.

Definition emit (e : effect) : M Script unit :=
  modify (fun s =>
    {| electronProcess := electronProcess s;
       remixProcess := remixProcess s;
       effects := effects s ++ [e];
       exited := exited s |}).

Definition set_remixProcess : M Script unit :=
  modify (fun s =>
    {| electronProcess := electronProcess s; remixProcess := true;
       effects := effects s; exited := exited s |}).

Definition set_electronProcess : M Script unit :=
  modify (fun s =>
    {| electronProcess := true; remixProcess := remixProcess s;
       effects := effects s; exited := exited s |}).

(** [process.exit(0)] *)
Definition process_exit (code : Z) : M Script unit :=
  emit (Exit code) ;;
  modify (fun s =>
    {| electronProcess := electronProcess s; remixProcess := remixProcess s;
       effects := effects s; exited := true |}).

Definition cleanup : M Script unit :=
  let! s := gets id in
  (if electronProcess s then emit (Kill Electron "SIGTERM") else ret tt) ;;
  (if remixProcess s then emit (Kill Remix "SIGTERM") else ret tt) ;;
  process_exit 0.

(** [await promise] *)
Definition await {A} (settled : outcome A) : M Script A :=
  match settled with
  | Return a => ret a
  | Throw e => throw e
  end.

(** What the script finds outside: how the build ended, what [lsof]
    prints, which files exist, where the script lives and how paths are
    joined. *)
Record World : Type := {
  build : ChildEvent;
  lsof : Z -> nat -> string;
  existsSync : string -> bool;
  dirname : string;
  path_join : list string -> string
}.

Definition electronPath (w : World) : string :=
  path_join w [dirname w; ".."; "node_modules"; ".bin"; "electron"].
Definition mainPath (w : World) : string :=
  path_join w [dirname w; ".."; "build"; "electron"; "main"; "index.mjs"].

Definition startElectronDev (w : World) : M Script unit :=
  try_catch
    (emit (Spawn "pnpm" ["electron:build:deps"] []) ;;
     await (buildElectronDeps (build w)) ;;
     emit (Spawn "pnpm" ["dev"] []) ;;
     set_remixProcess ;;
     await (waitForServer (lsof w) REMIX_PORT "Remix development server").1 ;;
     if negb (existsSync w (mainPath w)) then
       throw (Error ("Main process file not found: " +:+ mainPath w))
     else
       emit (Spawn (electronPath w) [mainPath w]
                   [("NODE_ENV", "development"); ("ELECTRON_IS_DEV", "1")]) ;;
       set_electronProcess)
    (fun _ => cleanup).

(** What reaches the script once it runs: the two events of the Electron
    process that it listens to, and the two signals.  The listeners of
    the Electron process are set when it is spawned; after [process.exit]
    nothing is listened to. *)
Inductive event : Type :=
| ElectronError
| ElectronExit (code : option Z)
| SIGINT
| SIGTERM.

Definition handle (e : event) : M Script unit :=
  let! s := gets id in
  if exited s then ret tt
  else
    match e with
    | ElectronError => if electronProcess s then cleanup else ret tt
    | ElectronExit code =>
        if electronProcess s then
          if bool_decide (code <> Some 0%Z) then cleanup else ret tt
        else ret tt
    | SIGINT | SIGTERM => cleanup
    end.

(** The script from its start through the events that follow. *)
Definition run (w : World) (events : list event) : Script :=
  foldl (fun s e => exec (handle e) s) (exec (startElectronDev w) start) events.

(** The three processes that the script starts. *)
Definition spawn_build : effect := Spawn "pnpm" ["electron:build:deps"] [].
Definition spawn_remix : effect := Spawn "pnpm" ["dev"] [].
Definition spawn_electron (w : World) : effect :=
  Spawn (electronPath w) [mainPath w]
        [("NODE_ENV", "development"); ("ELECTRON_IS_DEV", "1")].

(** What [cleanup] does once both processes run. *)
Definition shutdown : list effect :=
  [Kill Electron "SIGTERM"; Kill Remix "SIGTERM"; Exit 0].

(** The exit of Electron with code 0, the one event the script lets
    pass. *)
Definition clean_exit (e : event) : bool :=
  match e with
  | ElectronExit (Some 0%Z) => true
  | _ => false
  end.

End ElectronDev.

(** ** More example states, requests and machines *)

Module MoreExamples.

Import JS Settings Examples.

(** A session: the detector finds Ollama, the user switches it off, and
    the detector finds it again. *)
Definition detect_disable_detect : list Session.action :=
  [ Session.AutoEnable ollama_detected;
    Session.Update "Ollama" {[ "enabled" := Bool false ]};
    Session.AutoEnable ollama_detected ].

(** A session that stores nothing: a pass that finds nothing and an
    update of a provider that the map does not hold. *)
Definition idle_session : list Session.action :=
  [ Session.AutoEnable nothing_detected;
    Session.Update "Retired" {[ "enabled" := Bool true ]} ].

(** The state after the user has given Ollama a base URL on the first run. *)
Definition ollama_with_url : State string :=
  exec (updateProviderSettings true "Ollama" base_url_only) first_run.

(** The stored history is not JSON. *)
Definition unreadable_history_storage : LocalStorage :=
  {| provider_settings := None; auto_enabled_providers := Some Malformed |}.

Definition unreadable_history : State string :=
  initial_state id providers true unreadable_history_storage.

(** The process environment holds the URL of a running Ollama. *)
Definition valid_request : Api.Context :=
  {| Api.cloudflare_env := None;
     Api.process_env := {[ "OLLAMA_API_BASE_URL" := "http://localhost:11434" ]};
     Api.getInstance := Return registry |}.

(** The same, with a placeholder left in the environment of the request. *)
Definition masked_request : Api.Context :=
  {| Api.cloudflare_env := Some {[ "OLLAMA_API_BASE_URL" := Str "your_ollama_url_here" ]};
     Api.process_env := {[ "OLLAMA_API_BASE_URL" := "http://localhost:11434" ]};
     Api.getInstance := Return registry |}.

Definition join (parts : list string) : string :=
  String.concat "/" parts.

(** A machine on which the build fails. *)
Definition broken_build : ElectronDev.World :=
  {| ElectronDev.build := ElectronDev.Close (Some 1%Z);
     ElectronDev.lsof := fun _ _ => "";
     ElectronDev.existsSync := fun _ => false;
     ElectronDev.dirname := "scripts";
     ElectronDev.path_join := join |}.

(** A machine on which the server listens at the third look and the main
    file is built. *)
Definition working_machine : ElectronDev.World :=
  {| ElectronDev.build := ElectronDev.Close (Some 0%Z);
     ElectronDev.lsof := fun _ k => if (k <? 2)%nat then "" else "4242";
     ElectronDev.existsSync := fun _ => true;
     ElectronDev.dirname := "scripts";
     ElectronDev.path_join := join |}.

End MoreExamples.


(** * Properties *)

(** ** Strings *)

Module StringFacts.

Import JS.

Lemma array_includes_spec (l : list string) (x : string) :
  array_includes l x = true <-> x ∈ l.
Proof.
  unfold array_includes. rewrite existsb_exists. split.
  - intros (y & Hy & Heq). apply String.eqb_eq in Heq. subst y.
    by apply list_elem_of_In.
  - intros Hx. exists x. split; [by apply list_elem_of_In | apply String.eqb_refl].
Qed.

Lemma array_includes_false (l : list string) (x : string) :
  array_includes l x = false <-> x ∉ l.
Proof.
  rewrite <- array_includes_spec. destruct (array_includes l x); naive_solver.
Qed.

(** No white space character is the letter that "http" starts with. *)
Lemma whitespace_not_h (c : Ascii.ascii) :
  isWhiteSpace c = true -> Ascii.eqb "h"%char c = false.
Proof.
  destruct c as [[] [] [] [] [] [] [] []]; vm_compute; congruence.
Qed.

Lemma startsWith_whitespace (c : Ascii.ascii) (s : string) :
  isWhiteSpace c = true -> startsWith (String c s) "http" = false.
Proof.
  intros Hc. cbn [startsWith]. by rewrite (whitespace_not_h c Hc).
Qed.

End StringFacts.

(** ** The detector *)

Module ApiFacts.

Import JS Api StringFacts.

Lemma base_url_path_closed ctx llmManager config key :
  baseUrlKey config = Some key ->
  isValidEnvValue (env_value ctx llmManager key) = false ->
  check_config ctx llmManager config
  = check_config ctx llmManager (without_baseUrlKey config).
Proof.
  intros Hkey Hbad. unfold check_config, without_baseUrlKey.
  cbn [baseUrlKey apiTokenKey].
  by rewrite Hkey, Hbad, andb_false_r.
Qed.

Lemma api_token_path_closed ctx llmManager config key :
  apiTokenKey config = Some key ->
  isValidApiToken (env_value ctx llmManager key) = false ->
  check_config ctx llmManager config
  = check_config ctx llmManager (without_apiTokenKey config).
Proof.
  intros Hkey Hbad. unfold check_config, without_apiTokenKey.
  cbn [baseUrlKey apiTokenKey].
  rewrite Hkey, Hbad.
  destruct (baseUrlKey config) as [k|]; [destruct (_ && _)|];
    by rewrite ?andb_false_r.
Qed.

Lemma no_key_unconfigured ctx llmManager :
  check_config ctx llmManager {| baseUrlKey := None; apiTokenKey := None |}
  = (false, ConfiguredProvider.none).
Proof. reflexivity. Qed.

Lemma isValidEnvValue_rejects (s : string) :
  includes s "your_" = true \/ includes s "_here" = true \/ startsWith s "http" = false ->
  isValidEnvValue (Str s) = false.
Proof.
  intros H. unfold isValidEnvValue.
  destruct H as [-> | [-> | ->]]; cbn [negb]; by rewrite ?andb_false_r.
Qed.

Lemma isValidApiToken_rejects (s : string) :
  includes s "your_" = true \/ includes s "_here" = true \/ String.length s <= 10 ->
  isValidApiToken (Str s) = false.
Proof.
  intros H. unfold isValidApiToken.
  destruct H as [-> | [-> | Hlen]].
  - cbn [negb]. by rewrite ?andb_false_r.
  - cbn [negb]. by rewrite ?andb_false_r.
  - apply Nat.ltb_ge in Hlen. by rewrite Hlen, !andb_false_r.
Qed.

Local Ltac in_list := apply list_elem_of_In; cbn; tauto.

Lemma check_provider_name ctx llmManager providerName cp :
  check_provider ctx llmManager providerName = Return cp ->
  ConfiguredProvider.name cp = providerName.
Proof.
  unfold check_provider, bind.
  destruct (getProvider llmManager providerName) as [[instance|]|]; [| |done].
  - destruct (check_config _ _ _). by intros [= <-].
  - by intros [= <-].
Qed.

Lemma for_of_names ctx llmManager names cps :
  for_of (check_provider ctx llmManager) names = Return cps ->
  ConfiguredProvider.name <$> cps = names.
Proof.
  revert cps. induction names as [|x names IH]; intros cps; cbn.
  - by intros [= <-].
  - destruct (check_provider ctx llmManager x) as [cp|] eqn:Hx; [|done]. cbn.
    destruct (for_of _ names) as [ys|]; [|done]. cbn.
    intros [= <-]. cbn. f_equal; [by eapply check_provider_name | by apply IH].
Qed.

(** X23.  Whatever happens, the answer has status 200 and one entry per
    local provider, in the order of the list. *)
Lemma loader_well_formed ctx :
  status (loader ctx) = 200%Z /\
  ConfiguredProvider.name <$> providers (loader ctx) = Settings.LOCAL_PROVIDERS.
Proof.
  unfold loader. destruct (detect ctx) as [cps|e] eqn:Hd; cbn; split; try done.
  unfold detect, bind in Hd. destruct (getInstance ctx); [|done].
  by eapply for_of_names.
Qed.

(** With a manager and a registry that can fail, and reads of their
    fields that cannot, the pass throws exactly when the manager cannot
    be had or the registry fails on one of the three names. *)
Lemma detect_throws ctx :
  (exists e, detect ctx = Throw e) <->
  (exists e, getInstance ctx = Throw e) \/
  (exists llmManager name e,
      getInstance ctx = Return llmManager /\
      name ∈ Settings.LOCAL_PROVIDERS /\
      getProvider llmManager name = Throw e).
Proof.
  unfold detect, bind. destruct (getInstance ctx) as [m|e0];
    [|split; intros _; [left|]; by exists e0].
  unfold Settings.LOCAL_PROVIDERS. cbn [for_of]. unfold check_provider, bind.
  split.
  - intros [e He]. right. exists m.
    destruct (getProvider m "OpenAILike") as [i1|e1] eqn:H1;
      [|exists "OpenAILike", e1; (split; [done | split; [in_list | done]])].
    destruct (getProvider m "LMStudio") as [i2|e2] eqn:H2;
      [|exists "LMStudio", e2; (split; [done | split; [in_list | done]])].
    destruct (getProvider m "Ollama") as [i3|e3] eqn:H3;
      [|exists "Ollama", e3; (split; [done | split; [in_list | done]])].
    exfalso. revert He.
    repeat match goal with
           | |- context [match ?x with Some _ => _ | None => _ end] => destruct x
           | |- context [let (_, _) := ?x in _] => destruct x
           end; cbn; discriminate.
  - intros [[e He]|(m' & name & e & [= <-] & Hin & He)]; [done|].
    apply list_elem_of_In in Hin. cbn in Hin.
    destruct Hin as [<-|[<-|[<-|[]]]]; rewrite ?He.
    + by eexists.
    + destruct (getProvider m "OpenAILike") as [[i|]|]; [destruct (check_config _ _ _)| |];
        cbn; by eexists.
    + destruct (getProvider m "OpenAILike") as [[i|]|]; [destruct (check_config _ _ _)| |];
        cbn; try by eexists.
      all: destruct (getProvider m "LMStudio") as [[j|]|]; [destruct (check_config _ _ _)| |];
        cbn; by eexists.
Qed.

(** C5.  A candidate value that holds "your_" or "_here" closes the path
    that probes it; so does a base URL that does not start with "http", and
    so does an API token of at most ten characters.  The token
    "sk-your_key_here" is longer than ten characters and still leaves its
    provider unconfigured. *)
Theorem placeholder_rejection ctx llmManager config key s :
  env_value ctx llmManager key = Str s ->
  (baseUrlKey config = Some key ->
   includes s "your_" = true \/ includes s "_here" = true \/
   startsWith s "http" = false ->
   isValidEnvValue (env_value ctx llmManager key) = false /\
   check_config ctx llmManager config
   = check_config ctx llmManager (without_baseUrlKey config))
  /\
  (apiTokenKey config = Some key ->
   includes s "your_" = true \/ includes s "_here" = true \/
   String.length s <= 10 ->
   isValidApiToken (env_value ctx llmManager key) = false /\
   check_config ctx llmManager config
   = check_config ctx llmManager (without_apiTokenKey config))
  /\
  (apiTokenKey config = Some key -> baseUrlKey config = None ->
   s = "sk-your_key_here" ->
   10 < String.length s /\
   forall providerName,
     getProvider llmManager providerName = Return (Some {| config := config |}) ->
     check_provider ctx llmManager providerName = Return (unconfigured providerName)).
Proof.
  intros Hs. split; [|split].
  - intros Hkey Hbad.
    assert (isValidEnvValue (env_value ctx llmManager key) = false) as Hv
      by (rewrite Hs; by apply isValidEnvValue_rejects).
    split; [done | by eapply base_url_path_closed].
  - intros Hkey Hbad.
    assert (isValidApiToken (env_value ctx llmManager key) = false) as Hv
      by (rewrite Hs; by apply isValidApiToken_rejects).
    split; [done | by eapply api_token_path_closed].
  - intros Htok Hbase ->. split; [cbn; lia|].
    intros providerName Hget. unfold check_provider, bind. rewrite Hget.
    cbn [Api.config].
    rewrite (api_token_path_closed ctx llmManager config key Htok)
      by (rewrite Hs; reflexivity).
    unfold without_apiTokenKey. rewrite Hbase.
    by rewrite no_key_unconfigured.
Qed.

(** C6.  When the pass throws, the answer still has status 200 and lists
    the three local providers in order, each unconfigured with method
    "none". *)
Theorem loader_degrades ctx e :
  detect ctx = Throw e ->
  loader ctx =
  {| status := 200;
     providers :=
       [ ConfiguredProvider.mk "OpenAILike" false ConfiguredProvider.none;
         ConfiguredProvider.mk "LMStudio" false ConfiguredProvider.none;
         ConfiguredProvider.mk "Ollama" false ConfiguredProvider.none ] |}.
Proof. intros Hd. unfold loader. by rewrite Hd. Qed.

(** C10.  A base-URL value that begins with white space closes the
    base-URL path: the test for "http" looks at the value as it is. *)
Theorem leading_whitespace_rejected ctx llmManager config key c s :
  baseUrlKey config = Some key ->
  env_value ctx llmManager key = Str (String c s) ->
  isWhiteSpace c = true ->
  isValidEnvValue (env_value ctx llmManager key) = false /\
  check_config ctx llmManager config
  = check_config ctx llmManager (without_baseUrlKey config).
Proof.
  intros Hkey Hs Hc.
  assert (isValidEnvValue (env_value ctx llmManager key) = false) as Hv.
  { rewrite Hs. apply isValidEnvValue_rejects. right. right.
    by apply startsWith_whitespace. }
  split; [done | by eapply base_url_path_closed].
Qed.

(** The value of the example is rejected although its trimmed form would
    pass: only the test for emptiness trims. *)
Lemma leading_space_example :
  isValidEnvValue (Str " http://localhost:11434") = false /\
  trim " http://localhost:11434" = "http://localhost:11434" /\
  isValidEnvValue (Str (trim " http://localhost:11434")) = true.
Proof. by vm_compute. Qed.

End ApiFacts.

(** ** The settings store *)

Module SettingsFacts.

Import JS Settings StringFacts.

(** *** Entries of a snapshot *)

Section Snapshots.

Context {A : Type}.

Implicit Types (l : list (string * A)) (key : string).

Lemma entry_of_nil key : entry_of (A := A) [] key = None.
Proof. reflexivity. Qed.

Lemma entry_of_cons k (x : A) l key :
  entry_of ((k, x) :: l) key =
  match entry_of l key with
  | Some y => Some y
  | None => if decide (k = key) then Some x else None
  end.
Proof.
  unfold entry_of. destruct (decide (k = key)) as [Hk|Hk].
  - rewrite filter_cons_True by done. rewrite last_cons.
    by destruct (list.last _).
  - rewrite filter_cons_False by done. by destruct (list.last _).
Qed.


Lemma entry_of_None l key : key ∉ l.*1 -> entry_of l key = None.
Proof.
  induction l as [|[k x] l IH]; intros Hk; [done|].
  cbn in Hk. apply not_elem_of_cons in Hk as [Hne Hl].
  rewrite entry_of_cons, IH by done. by rewrite decide_False.
Qed.

Lemma entry_of_Some_elem l key (x : A) : entry_of l key = Some x -> (key, x) ∈ l.
Proof.
  induction l as [|[k y] l IH]; [done|].
  rewrite entry_of_cons. destruct (entry_of l key) as [z|].
  - intros [= ->]. right. by apply IH.
  - destruct (decide (k = key)) as [->|]; [|done]. intros [= ->]. left.
Qed.

(** Where the keys are distinct, the entry under a key is the one of the
    finite map that the list stands for. *)
Lemma entry_of_list_to_map l key :
  NoDup l.*1 -> entry_of l key = (list_to_map l : gmap string A) !! key.
Proof.
  induction l as [|[k x] l IH]; intros Hnd; [done|].
  cbn in Hnd. pose proof (NoDup_cons_1_1 _ _ Hnd) as Hk.
  apply NoDup_cons_1_2 in Hnd.
  rewrite entry_of_cons. cbn. destruct (decide (k = key)) as [->|Hne].
  - rewrite lookup_insert_eq. by rewrite entry_of_None.
  - rewrite lookup_insert_ne by done. rewrite IH by done.
    by destruct (list_to_map l !! key).
Qed.

End Snapshots.

Lemma entry_of_fmap {A B} (g : A -> B) (l : list (string * A)) (key : string) :
  entry_of ((fun kv => (kv.1, g kv.2)) <$> l) key = g <$> entry_of l key.
Proof.
  induction l as [|[k x] l IH]; [done|].
  cbn [fmap list_fmap fst snd]. rewrite !entry_of_cons, IH.
  destruct (entry_of l key); [done|]. by destruct (decide (k = key)).
Qed.

(** What a written snapshot holds under a key: the settings record of the
    entry of the map, as [JSON.stringify] writes it. *)
Lemma stringified_entry {ProviderInfo} (m : gmap string (IProviderConfig ProviderInfo))
    (key : string) :
  entry_of
    ((fun kv =>
        (kv.1, entry_value (Some (settings_record (stringify_record (settings kv.2))))))
       <$> map_to_list m) key
  = (fun p => entry_value (Some (settings_record (stringify_record (settings p)))))
      <$> (m !! key).
Proof.
  rewrite (entry_of_fmap
             (fun p : IProviderConfig ProviderInfo =>
                entry_value (Some (settings_record (stringify_record (settings p)))))).
  rewrite entry_of_list_to_map by apply NoDup_fst_map_to_list.
  by rewrite list_to_map_to_list.
Qed.

Lemma stringified_lookup {ProviderInfo} (m : gmap string (IProviderConfig ProviderInfo))
    (key : string) :
  (snapshot_entries
     ((fun kv =>
         (kv.1, entry_value (Some (settings_record (stringify_record (settings kv.2))))))
        <$> map_to_list m) : Snapshot) !! key
  = (fun p => stringify_record (settings p)) <$> (m !! key).
Proof.
  unfold lookup at 1. unfold Snapshot_lookup. rewrite stringified_entry.
  by destruct (m !! key).
Qed.

(** *** The pass *)

Section Pass.

Context {ProviderInfo : Type}.

Abbreviation ProviderSetting := (gmap string (IProviderConfig ProviderInfo)).
Abbreviation Store := (State ProviderInfo).

Implicit Types (m : ProviderSetting) (st : Store) (n : string)
  (p : IProviderConfig ProviderInfo) (report : list ConfiguredProvider.t).

Lemma state_eta st :
  {| providersStore := providersStore st; localStorage := localStorage st |} = st.
Proof. by destruct st. Qed.

Lemma enabled_enable p : enabled (enable p) = Bool true.
Proof. unfold enabled, enable, get. cbn. by rewrite lookup_insert_eq. Qed.

Lemma is_enabled_not_disabled m n :
  is_enabled m n = true -> is_disabled m n = false.
Proof.
  unfold is_enabled, is_disabled. destruct (m !! n); [|done]. by intros ->.
Qed.

Lemma is_disabled_not_enabled m n :
  is_disabled m n = true -> is_enabled m n = false.
Proof.
  unfold is_enabled, is_disabled. destruct (m !! n); [|done].
  by destruct (truthy _).
Qed.

Lemma is_disabled_lookup m n :
  is_disabled m n = true <-> exists p, m !! n = Some p /\ truthy (enabled p) = false.
Proof.
  unfold is_disabled. destruct (m !! n) as [p|]; [|naive_solver].
  rewrite negb_true_iff. naive_solver.
Qed.

Lemma is_enabled_lookup m n :
  is_enabled m n = true <-> exists p, m !! n = Some p /\ truthy (enabled p) = true.
Proof. unfold is_enabled. destruct (m !! n) as [p|]; naive_solver. Qed.

Lemma reported_by_environment_spec report n :
  reported_by_environment report n = true <->
  exists cp, cp ∈ report /\ ConfiguredProvider.name cp = n /\
    ConfiguredProvider.isConfigured cp = true /\
    ConfiguredProvider.configMethod cp = ConfiguredProvider.environment.
Proof.
  unfold reported_by_environment. rewrite existsb_exists.
  split; intros (cp & Hin & H); exists cp.
  - apply andb_true_iff in H as [H Hm]. apply andb_true_iff in H as [Hn Hc].
    apply String.eqb_eq in Hn. apply bool_decide_eq_true in Hm.
    by rewrite list_elem_of_In.
  - destruct H as (Hn & Hc & Hm). split; [by apply list_elem_of_In|].
    rewrite Hc, andb_true_r. apply andb_true_iff. split.
    + by apply String.eqb_eq.
    + by apply bool_decide_eq_true.
Qed.

(** One turn of the loop does what one step of [pass] does. *)
Lemma autoEnable_entry_step saved prev newly has cp st :
  autoEnable_entry saved prev (newly, has) cp st =
  match (if eligible cp then providersStore st !! ConfiguredProvider.name cp else None) with
  | Some p =>
      if shouldAutoEnable saved prev p (ConfiguredProvider.name cp) then
        (Return (newly ++ [ConfiguredProvider.name cp], true),
         {| providersStore :=
              <[ConfiguredProvider.name cp := enable p]> (providersStore st);
            localStorage := localStorage st |})
      else (Return (newly, has), st)
  | None => (Return (newly, has), st)
  end.
Proof.
  unfold autoEnable_entry, eligible.
  destruct (_ && _ && _); [|done].
  unfold bind, providersStore_get, gets.
  destruct (providersStore st !! ConfiguredProvider.name cp) as [p|]; [|done].
  unfold shouldAutoEnable. by destruct (_ && _).
Qed.

Lemma forEach_pass saved prev report : forall newly has st,
  forEach (autoEnable_entry saved prev) (newly, has) report st =
  let r := pass saved prev (providersStore st) report in
  (Return (newly ++ r.2, has || negb (bool_decide (r.2 = []))),
   {| providersStore := r.1; localStorage := localStorage st |}).
Proof.
  induction report as [|cp rest IH]; intros newly has st.
  - cbn. by rewrite app_nil_r, orb_false_r, state_eta.
  - cbn [forEach pass]. unfold bind at 1. rewrite autoEnable_entry_step.
    destruct (if eligible cp then _ else _) as [p|]; [|apply IH].
    destruct (shouldAutoEnable _ _ _ _); [|apply IH].
    rewrite IH. cbn. by rewrite <- app_assoc, orb_true_r.
Qed.

Lemma shouldAutoEnable_enable saved prev p n :
  shouldAutoEnable saved prev (enable p) n = false.
Proof. unfold shouldAutoEnable. by rewrite enabled_enable. Qed.

Lemma shouldAutoEnable_spec saved prev p n :
  shouldAutoEnable saved prev p n = true <->
  truthy (enabled p) = false /\ (saved = None \/ n ∈ prev).
Proof.
  unfold shouldAutoEnable.
  rewrite andb_true_iff, orb_true_iff, !negb_true_iff, array_includes_spec.
  rewrite bool_decide_eq_false. destruct saved; naive_solver.
Qed.

(** The names that the loop pushes: those of the eligible entries of the
    report whose provider the map holds disabled and the policy admits. *)
Lemma pass_newly saved prev report : forall m n,
  n ∈ (pass saved prev m report).2 <->
  (exists cp, cp ∈ report /\ ConfiguredProvider.name cp = n /\ eligible cp = true) /\
  (exists p, m !! n = Some p /\ shouldAutoEnable saved prev p n = true).
Proof.
  induction report as [|cp rest IH]; intros m n; cbn [pass].
  - cbn. split; [by intros ?%elem_of_nil | intros [(cp & ?%elem_of_nil & _) _]; done].
  - destruct (eligible cp) eqn:He.
    + destruct (m !! ConfiguredProvider.name cp) as [p|] eqn:Hm.
      * destruct (shouldAutoEnable saved prev p _) eqn:Hs.
        -- cbn. rewrite elem_of_cons, IH. split.
           ++ intros [-> | ((cp' & Hin & Hn & He') & (p' & Hm' & Hs'))].
              ** split; [exists cp; split; [left|done] | by exists p].
              ** destruct (decide (n = ConfiguredProvider.name cp)) as [->|Hne].
                 --- rewrite lookup_insert_eq in Hm'. injection Hm' as <-.
                     by rewrite shouldAutoEnable_enable in Hs'.
                 --- rewrite lookup_insert_ne in Hm' by done.
                     split; [exists cp'; split; [by right|done] | by exists p'].
           ++ intros ((cp' & Hin & Hn & He') & (p' & Hm' & Hs')).
              destruct (decide (n = ConfiguredProvider.name cp)) as [->|Hne];
                [by left | right].
              apply elem_of_cons in Hin as [->|Hin]; [done|].
              split; [by exists cp' | exists p'; by rewrite lookup_insert_ne].
        -- rewrite IH. split.
           ++ intros ((cp' & Hin & Hn & He') & Hp).
              split; [exists cp'; split; [by right|done] | done].
           ++ intros ((cp' & Hin & Hn & He') & (p' & Hm' & Hs')).
              apply elem_of_cons in Hin as [->|Hin].
              ** subst n. rewrite Hm in Hm'. injection Hm' as <-. congruence.
              ** split; [by exists cp' | by exists p'].
      * rewrite IH. split.
        -- intros ((cp' & Hin & Hn & He') & Hp).
           split; [exists cp'; split; [by right|done] | done].
        -- intros ((cp' & Hin & Hn & He') & (p' & Hm' & Hs')).
           apply elem_of_cons in Hin as [->|Hin]; [congruence|].
           split; [by exists cp' | by exists p'].
    + rewrite IH. split.
      * intros ((cp' & Hin & Hn & He') & Hp).
        split; [exists cp'; split; [by right|done] | done].
      * intros ((cp' & Hin & Hn & He') & (p' & Hm' & Hs')).
        apply elem_of_cons in Hin as [->|Hin]; [congruence|].
        split; [by exists cp' | by exists p'].
Qed.

(** The map that the loop leaves: the pushed names are switched on and
    nothing else moves. *)
Lemma pass_lookup saved prev report : forall m n,
  (pass saved prev m report).1 !! n =
  if bool_decide (n ∈ (pass saved prev m report).2)
  then enable <$> m !! n else m !! n.
Proof.
  induction report as [|cp rest IH]; intros m n; cbn [pass].
  - cbn. by rewrite bool_decide_eq_false_2 by apply not_elem_of_nil.
  - destruct (if eligible cp then _ else _) as [p|] eqn:Hp; [|apply IH].
    destruct (shouldAutoEnable saved prev p _) eqn:Hs; [|apply IH].
    destruct (eligible cp); [|done].
    cbn [fst snd]. rewrite IH.
    destruct (decide (n = ConfiguredProvider.name cp)) as [->|Hne].
    + rewrite (bool_decide_eq_true_2 (_ ∈ _ :: _)) by left.
      rewrite bool_decide_eq_false_2.
      * by rewrite lookup_insert_eq, Hp.
      * intros (_ & (p' & Hm' & Hs'))%pass_newly.
        rewrite lookup_insert_eq in Hm'. injection Hm' as <-.
        by rewrite shouldAutoEnable_enable in Hs'.
    + rewrite lookup_insert_ne by done.
      rewrite (bool_decide_ext (n ∈ _ :: _) (n ∈ (pass saved prev
        (<[ConfiguredProvider.name cp:=enable p]> m) rest).2)); [done|].
      rewrite elem_of_cons. naive_solver.
Qed.

Lemma pass_nil saved prev report m :
  (pass saved prev m report).2 = [] -> (pass saved prev m report).1 = m.
Proof.
  intros Hnil. apply map_eq. intros n. rewrite pass_lookup, Hnil.
  by rewrite bool_decide_eq_false_2 by apply not_elem_of_nil.
Qed.

(** What the whole pass does in a browser. *)
Lemma autoEnable_browser report st :
  exec (autoEnableConfiguredProviders true report) st =
  if history_readable (localStorage st) then
    let r := pass (provider_settings (localStorage st)) (history (localStorage st))
                  (providersStore st) report in
    if bool_decide (r.2 = []) then st
    else
      {| providersStore := r.1;
         localStorage :=
           {| provider_settings := Some (JSON_stringify r.1);
              auto_enabled_providers :=
                Some (Json (unique (history (localStorage st) ++ r.2))) |} |}
  else st.
Proof.
  unfold autoEnableConfiguredProviders, exec, try_catch, history_readable, history.
  cbn [negb].
  unfold bind at 1. unfold getItem_PROVIDER_SETTINGS, getItem_AUTO_ENABLED.
  unfold localStorage_object. cbn.
  destruct (auto_enabled_providers (localStorage st)) as [[| |names]|] eqn:Hh; cbn.
  2: done.
  all: unfold bind; rewrite forEach_pass; cbn;
    destruct (pass _ _ _ _) as [m' fl] eqn:Hpass; cbn;
    destruct fl as [|x fl]; cbn; [|done];
    match type of Hpass with
    | pass ?saved ?prev ?m ?r = _ => pose proof (pass_nil saved prev r m) as Hnil
    end;
    rewrite Hpass in Hnil; cbn in Hnil; rewrite Hnil by done;
    apply state_eta.
Qed.

(** A [try] whose handler only logs ends normally. *)
Lemma try_catch_returns {S} (body : M S unit) (s : S) :
  result (try_catch body (fun _ => ret tt)) s = Return tt.
Proof. unfold result, try_catch, ret. by destruct (body s) as [[[]|e] s']. Qed.

(** The pass never throws. *)
Lemma autoEnable_returns isBrowser report st :
  result (autoEnableConfiguredProviders isBrowser report) st = Return tt.
Proof.
  unfold autoEnableConfiguredProviders.
  destruct isBrowser; cbn [negb]; [apply try_catch_returns | done].
Qed.

(** A stored history that does not parse makes the pass give up before it
    touches anything. *)
Lemma autoEnable_unreadable_history report st :
  history_readable (localStorage st) = false ->
  exec (autoEnableConfiguredProviders true report) st = st.
Proof. intros Hr. by rewrite autoEnable_browser, Hr. Qed.

(** Outside a browser the pass returns at once. *)
Lemma autoEnable_server report st :
  exec (autoEnableConfiguredProviders false report) st = st.
Proof. reflexivity. Qed.

Lemma unique_from_elem l : forall seen x,
  x ∈ unique_from seen l <-> x ∈ l /\ x ∉ seen.
Proof.
  induction l as [|y l IH]; intros seen x; cbn.
  - rewrite !elem_of_nil. tauto.
  - destruct (array_includes seen y) eqn:Hy.
    + apply array_includes_spec in Hy. rewrite IH, elem_of_cons. naive_solver.
    + apply array_includes_false in Hy.
      rewrite !elem_of_cons, IH, not_elem_of_cons.
      destruct (decide (x = y)) as [->|Hne]; naive_solver.
Qed.

Lemma unique_from_NoDup l : forall seen, NoDup (unique_from seen l).
Proof.
  induction l as [|y l IH]; intros seen; cbn; [constructor|].
  destruct (array_includes seen y); [apply IH|].
  constructor; [|apply IH].
  rewrite unique_from_elem, not_elem_of_cons. naive_solver.
Qed.

Lemma unique_elem l x : x ∈ unique l <-> x ∈ l.
Proof. unfold unique. rewrite unique_from_elem. pose proof (not_elem_of_nil x). naive_solver. Qed.

Lemma unique_NoDup l : NoDup (unique l).
Proof. apply unique_from_NoDup. Qed.

Lemma eligible_reported report n :
  (exists cp, cp ∈ report /\ ConfiguredProvider.name cp = n /\ eligible cp = true) <->
  reported_by_environment report n = true /\ n ∈ LOCAL_PROVIDERS.
Proof.
  rewrite reported_by_environment_spec. unfold eligible. split.
  - intros (cp & Hin & <- & He).
    apply andb_true_iff in He as [He Hl]. apply andb_true_iff in He as [Hc Hm].
    apply bool_decide_eq_true in Hm. apply array_includes_spec in Hl.
    split; [by exists cp | done].
  - intros [(cp & Hin & <- & Hc & Hm) Hl]. exists cp. split; [done|]. split; [done|].
    rewrite Hc, andb_true_l. apply andb_true_iff. split.
    + by apply bool_decide_eq_true.
    + by apply array_includes_spec.
Qed.

(** In every setting the pass either leaves the state as it is or writes
    the three things together: the map, its snapshot and the history. *)
Lemma autoEnable_cases isBrowser report st :
  let st' := exec (autoEnableConfiguredProviders isBrowser report) st in
  let r := pass (provider_settings (localStorage st)) (history (localStorage st))
                (providersStore st) report in
  (st' = st /\ (isBrowser = true -> history_readable (localStorage st) = true -> r.2 = []))
  \/
  (isBrowser = true /\ history_readable (localStorage st) = true /\ r.2 <> [] /\
   st' =
   {| providersStore := r.1;
      localStorage :=
        {| provider_settings := Some (JSON_stringify r.1);
           auto_enabled_providers :=
             Some (Json (unique (history (localStorage st) ++ r.2))) |} |}).
Proof.
  intros st' r. subst st'. destruct isBrowser.
  - rewrite autoEnable_browser. fold r.
    destruct (history_readable (localStorage st)); [|by left].
    cbv zeta. case_bool_decide as Hnil; [by left | by right].
  - left. by rewrite autoEnable_server.
Qed.

(** A provider that was disabled and is enabled afterwards is one that the
    loop pushed. *)
Lemma turned_on_pushed isBrowser report st n :
  let st' := exec (autoEnableConfiguredProviders isBrowser report) st in
  let r := pass (provider_settings (localStorage st)) (history (localStorage st))
                (providersStore st) report in
  is_disabled (providersStore st) n = true /\ is_enabled (providersStore st') n = true
  <-> isBrowser = true /\ history_readable (localStorage st) = true /\ n ∈ r.2.
Proof.
  intros st' r.
  destruct (autoEnable_cases isBrowser report st) as [[Heq Hnil]|(Hb & Hr & Hne & Heq)];
    fold st' in Heq; fold r in Hnil || fold r in Hne, Heq.
  - rewrite Heq. split.
    + intros [Hd He]. apply is_disabled_not_enabled in Hd. congruence.
    + intros (Hb & Hr & Hin). rewrite (Hnil Hb Hr) in Hin. by apply elem_of_nil in Hin.
  - rewrite Heq. cbn [providersStore]. split.
    + intros [Hd He]. do 2 (split; [done|]).
      destruct (decide (n ∈ r.2)) as [|Hnot]; [done|].
      assert (r.1 !! n = providersStore st !! n) as Hsame.
      { subst r. rewrite pass_lookup. by rewrite bool_decide_eq_false_2. }
      apply is_disabled_not_enabled in Hd.
      unfold is_enabled in He, Hd. rewrite Hsame in He. congruence.
    + intros (_ & _ & Hin).
      assert (r.1 !! n = enable <$> providersStore st !! n) as Hon.
      { subst r. rewrite pass_lookup. by rewrite bool_decide_eq_true_2. }
      apply pass_newly in Hin as (_ & (p & Hm & Hs)).
      apply shouldAutoEnable_spec in Hs as [Hoff _].
      unfold is_disabled, is_enabled. rewrite Hon, Hm. cbn.
      by rewrite Hoff, enabled_enable.
Qed.

(** What the pass does to one entry of the map. *)
Lemma autoEnable_lookup isBrowser report st n :
  let st' := exec (autoEnableConfiguredProviders isBrowser report) st in
  providersStore st' !! n = providersStore st !! n \/
  (exists p, providersStore st !! n = Some p /\
     truthy (enabled p) = false /\
     providersStore st' !! n = Some (enable p) /\
     (provider_settings (localStorage st) = None \/ n ∈ history (localStorage st))).
Proof.
  intros st'.
  destruct (autoEnable_cases isBrowser report st) as [[Heq _]|(Hb & Hr & Hne & Heq)];
    fold st' in Heq; rewrite Heq; [by left|].
  cbn [providersStore]. rewrite pass_lookup. case_bool_decide as Hin; [|by left].
  apply pass_newly in Hin as (_ & (p & Hm & Hs)).
  apply shouldAutoEnable_spec in Hs as [Hoff Hpol].
  right. exists p. by rewrite Hm.
Qed.

Lemma snapshot_exists_false storage :
  snapshot_exists storage = false <-> provider_settings storage = None.
Proof. unfold snapshot_exists. by destruct (provider_settings storage). Qed.

(** C1.  In a browser whose persisted history can be read, the pass turns
    on a local provider that the report marks configured through the
    environment exactly when the map holds it disabled and either no
    snapshot is persisted or the history names it.  Once a provider is
    turned on, the persisted history is the old one joined with the
    providers turned on, without repetition, and the persisted snapshot is
    the whole map. *)
Theorem autoEnable_policy st report n :
  history_readable (localStorage st) = true ->
  n ∈ LOCAL_PROVIDERS ->
  reported_by_environment report n = true ->
  let st' := exec (autoEnableConfiguredProviders true report) st in
  (is_disabled (providersStore st) n = true /\ is_enabled (providersStore st') n = true
   <->
   is_disabled (providersStore st) n = true /\
   (snapshot_exists (localStorage st) = false \/ n ∈ history (localStorage st)))
  /\
  (forall k,
     is_disabled (providersStore st) k = true ->
     is_enabled (providersStore st') k = true ->
     k ∈ history (localStorage st') /\
     NoDup (history (localStorage st')) /\
     (forall x, x ∈ history (localStorage st') <->
        x ∈ history (localStorage st) \/
        (is_disabled (providersStore st) x = true /\
         is_enabled (providersStore st') x = true)) /\
     provider_settings (localStorage st')
     = Some (JSON_stringify (providersStore st'))).
Proof.
  intros Hread Hlocal Hrep st'. split.
  - subst st'. rewrite turned_on_pushed, pass_newly, eligible_reported.
    rewrite is_disabled_lookup, snapshot_exists_false.
    setoid_rewrite shouldAutoEnable_spec. naive_solver.
  - intros k Hoff Hon.
    assert (forall x,
      is_disabled (providersStore st) x = true /\ is_enabled (providersStore st') x = true
      <-> x ∈ (pass (provider_settings (localStorage st)) (history (localStorage st))
                    (providersStore st) report).2) as Hpushed.
    { intros x. subst st'. rewrite turned_on_pushed. naive_solver. }
    destruct (autoEnable_cases true report st) as [[_ Hnil]|(_ & _ & Hne & Heq)].
    { apply (conj Hoff) in Hon. apply Hpushed in Hon.
      rewrite (Hnil eq_refl Hread) in Hon. by apply elem_of_nil in Hon. }
    fold st' in Heq.
    assert (history (localStorage st')
            = unique (history (localStorage st) ++
                (pass (provider_settings (localStorage st)) (history (localStorage st))
                      (providersStore st) report).2)) as Hhist by (by rewrite Heq).
    split; [|split; [|split]].
    + rewrite Hhist, unique_elem, elem_of_app. right. by apply Hpushed.
    + rewrite Hhist. apply unique_NoDup.
    + intros x. by rewrite Hhist, unique_elem, elem_of_app, Hpushed.
    + by rewrite Heq.
Qed.

Lemma autoEnable_keeps_enabled isBrowser report st n :
  is_enabled (providersStore st) n = true ->
  providersStore (exec (autoEnableConfiguredProviders isBrowser report) st) !! n
  = providersStore st !! n.
Proof.
  intros Hon.
  destruct (autoEnable_lookup isBrowser report st n) as [H|(p & Hm & Hoff & _)];
    [done|].
  unfold is_enabled in Hon. rewrite Hm in Hon. congruence.
Qed.

(** C2.  The pass never takes an enabled provider off: its entry stays as
    it is, and any entry that moves is a disabled one that gains
    [enabled: true]. *)
Theorem autoEnable_never_disables isBrowser st report n :
  is_enabled (providersStore st) n = true ->
  let st' := exec (autoEnableConfiguredProviders isBrowser report) st in
  is_enabled (providersStore st') n = true /\
  providersStore st' !! n = providersStore st !! n /\
  (forall k,
     providersStore st' !! k = providersStore st !! k \/
     exists p, providersStore st !! k = Some p /\
       is_disabled (providersStore st) k = true /\
       providersStore st' !! k = Some (enable p)).
Proof.
  intros Hon st'.
  assert (providersStore st' !! n = providersStore st !! n) as Hsame
    by (by apply autoEnable_keeps_enabled).
  split; [|split; [done|]].
  - unfold is_enabled in *. by rewrite Hsame.
  - intros k.
    destruct (autoEnable_lookup isBrowser report st k) as [H|(p & Hm & Hoff & Hk & _)];
      [by left | right].
    exists p. split; [done|]. split; [|done].
    unfold is_disabled. by rewrite Hm, Hoff.
Qed.

(** C3.  With a snapshot persisted, a disabled provider that the history
    does not name stays disabled whatever the report says, and so when the
    report marks it configured through the environment. *)
Theorem sticky_user_disable isBrowser st report n :
  snapshot_exists (localStorage st) = true ->
  is_disabled (providersStore st) n = true ->
  n ∉ history (localStorage st) ->
  let st' := exec (autoEnableConfiguredProviders isBrowser report) st in
  is_disabled (providersStore st') n = true /\
  providersStore st' !! n = providersStore st !! n.
Proof.
  intros Hsnap Hoff Hnot st'.
  assert (providersStore st' !! n = providersStore st !! n) as Hsame.
  { destruct (autoEnable_lookup isBrowser report st n)
      as [H|(p & _ & _ & _ & [Hnone|Hin])]; [done | | done].
    apply snapshot_exists_false in Hnone. congruence. }
  split; [|done]. unfold is_disabled in *. by rewrite Hsame.
Qed.

(** When the report marks nothing configured the loop pushes nothing. *)
Lemma autoEnable_nothing_detected isBrowser st report :
  (forall cp, cp ∈ report -> ConfiguredProvider.isConfigured cp = false) ->
  exec (autoEnableConfiguredProviders isBrowser report) st = st.
Proof.
  intros Hnone.
  destruct (autoEnable_cases isBrowser report st) as [[Heq _]|(_ & _ & Hne & _)];
    [done|].
  destruct (pass _ _ _ _).2 as [|x fl] eqn:Hfl; [done|].
  assert (x ∈ (pass (provider_settings (localStorage st)) (history (localStorage st))
                    (providersStore st) report).2) as Hx by (rewrite Hfl; left).
  apply pass_newly in Hx as ((cp & Hin & _ & He) & _).
  unfold eligible in He. by rewrite (Hnone cp Hin) in He.
Qed.

(** C9.  A pass that turns no provider on leaves the map, the persisted
    snapshot and the persisted history as they were. *)
Theorem autoEnable_no_flip_no_change isBrowser st report :
  (forall n,
     is_disabled (providersStore st) n = true ->
     is_enabled
       (providersStore (exec (autoEnableConfiguredProviders isBrowser report) st)) n
     = false) ->
  exec (autoEnableConfiguredProviders isBrowser report) st = st.
Proof.
  intros Hnone.
  destruct (autoEnable_cases isBrowser report st) as [[Heq _]|(Hb & Hr & Hne & _)];
    [done|].
  destruct (pass _ _ _ _).2 as [|x fl] eqn:Hfl; [done|].
  assert (is_disabled (providersStore st) x = true /\
          is_enabled
            (providersStore (exec (autoEnableConfiguredProviders isBrowser report) st)) x
          = true) as [Hoff Hon].
  { apply turned_on_pushed. rewrite Hfl. do 2 (split; [done|]). left. }
  rewrite (Hnone x Hoff) in Hon. done.
Qed.

(** A name that the loop pushed is switched on in the map and recorded
    in the persisted history. *)
Lemma pushed_recorded report st n :
  history_readable (localStorage st) = true ->
  n ∈ (pass (provider_settings (localStorage st)) (history (localStorage st))
            (providersStore st) report).2 ->
  let st' := exec (autoEnableConfiguredProviders true report) st in
  providersStore st' !! n = enable <$> providersStore st !! n /\
  n ∈ history (localStorage st').
Proof.
  intros Hread Hin st'.
  destruct (autoEnable_cases true report st) as [[_ Hnil]|(_ & _ & Hne & Heq)].
  { rewrite (Hnil eq_refl Hread) in Hin. by apply elem_of_nil in Hin. }
  fold st' in Heq. rewrite Heq.
  cbn [providersStore localStorage history auto_enabled_providers]. split.
  - by rewrite pass_lookup, bool_decide_eq_true_2.
  - rewrite unique_elem, elem_of_app. by right.
Qed.

(** With no snapshot the policy admits every disabled local provider that
    the report marks configured through the environment. *)
Lemma pushed_without_snapshot report st n p :
  snapshot_exists (localStorage st) = false ->
  n ∈ LOCAL_PROVIDERS ->
  reported_by_environment report n = true ->
  providersStore st !! n = Some p ->
  truthy (enabled p) = false ->
  n ∈ (pass (provider_settings (localStorage st)) (history (localStorage st))
            (providersStore st) report).2.
Proof.
  intros Hsnap Hlocal Hrep Hm Hoff.
  apply pass_newly. split; [by apply eligible_reported|].
  exists p. split; [done|]. apply shouldAutoEnable_spec.
  split; [done|]. left. by apply snapshot_exists_false.
Qed.

(** With no snapshot persisted and a readable history, a local provider
    that the map holds and the report marks configured through the
    environment is enabled after the pass; when the pass is what turned it
    on, the persisted history names it. *)
Lemma no_snapshot_enables st report n p :
  history_readable (localStorage st) = true ->
  snapshot_exists (localStorage st) = false ->
  n ∈ LOCAL_PROVIDERS ->
  reported_by_environment report n = true ->
  providersStore st !! n = Some p ->
  let st' := exec (autoEnableConfiguredProviders true report) st in
  is_enabled (providersStore st') n = true /\
  (truthy (enabled p) = false ->
   providersStore st' !! n = Some (enable p) /\
   n ∈ history (localStorage st')).
Proof.
  intros Hread Hsnap Hlocal Hrep Hm st'.
  destruct (truthy (enabled p)) eqn:Hp.
  - split; [|done].
    assert (is_enabled (providersStore st) n = true) as Hon
      by (unfold is_enabled; by rewrite Hm).
    unfold is_enabled. subst st'. rewrite autoEnable_keeps_enabled by done.
    by rewrite Hm.
  - pose proof (pushed_without_snapshot report st n p Hsnap Hlocal Hrep Hm Hp) as Hin.
    destruct (pushed_recorded report st n Hread Hin) as [Hlook Hhist].
    fold st' in Hlook, Hhist. rewrite Hm in Hlook.
    split; [|done].
    unfold is_enabled. rewrite Hlook. cbn -[enabled enable].
    by rewrite enabled_enable.
Qed.

End Pass.

(** *** Initialisation *)

Section Initial.

Context {ProviderInfo : Type}.
Variable provider_name : ProviderInfo -> string.
Variable PROVIDER_LIST : list ProviderInfo.

Abbreviation Settings_map :=
  (gmap string (ProviderEntry ProviderInfo (option SavedSettings))).

Implicit Types (m : Settings_map) (n key : string)
  (entries : list (string * SavedEntry)).

Abbreviation add_default :=
  (fun (acc : Settings_map) provider =>
     <[provider_name provider := default_entry provider_name provider]> acc).

Abbreviation defaults := (default_settings provider_name PROVIDER_LIST).
Abbreviation names := (provider_name <$> PROVIDER_LIST).

Lemma foldl_defaults_other l : forall m n,
  n ∉ provider_name <$> l -> foldl add_default m l !! n = m !! n.
Proof.
  induction l as [|x l IH]; intros m n Hn; cbn; [done|].
  cbn in Hn. apply not_elem_of_cons in Hn as [Hx Hl].
  rewrite IH by done. by rewrite lookup_insert_ne.
Qed.

Lemma foldl_defaults_known l : forall m n,
  n ∈ provider_name <$> l ->
  exists x, x ∈ l /\ provider_name x = n /\
    foldl add_default m l !! n = Some (default_entry provider_name x).
Proof.
  induction l as [|x l IH]; intros m n Hn; cbn in *.
  - by apply elem_of_nil in Hn.
  - destruct (decide (n ∈ provider_name <$> l)) as [Hl|Hl].
    + destruct (IH (add_default m x) n Hl) as (y & Hy & Hname & Hlook).
      exists y. split; [by right | done].
    + apply elem_of_cons in Hn as [->|Hn]; [|done].
      exists x. split; [left|]. split; [done|].
      rewrite foldl_defaults_other by done. by rewrite lookup_insert_eq.
Qed.

Lemma default_settings_known n :
  n ∈ names ->
  exists provider, provider ∈ PROVIDER_LIST /\ provider_name provider = n /\
    defaults !! n = Some (default_entry provider_name provider).
Proof. apply foldl_defaults_known. Qed.

Lemma default_settings_unknown n : n ∉ names -> defaults !! n = None.
Proof.
  intros Hn. unfold default_settings. rewrite foldl_defaults_other by done.
  apply lookup_empty.
Qed.


(** The defaults hold exactly the providers of the list, each with the
    one field [enabled], off for the local ones and on for the others. *)
Lemma default_settings_lookup n :
  settings <$> (defaults !! n) =
  if bool_decide (n ∈ names)
  then Some (Some (settings_record
         {[ "enabled" := Bool (negb (array_includes LOCAL_PROVIDERS n)) ]}))
  else None.
Proof.
  case_bool_decide as Hn.
  - destruct (default_settings_known n Hn) as (x & _ & <- & ->). reflexivity.
  - by rewrite default_settings_unknown.
Qed.


(** **** The loop as a function *)

Lemma overlay_lookup assigned m n :
  overlay assigned m !! n =
  (fun p => match entry_of assigned n with
            | Some value_settings => {| info := info p; settings := value_settings |}
            | None => p
            end) <$> (m !! n).
Proof. unfold overlay. rewrite map_lookup_imap. by destruct (m !! n). Qed.

Lemma overlay_nil m : overlay [] m = m.
Proof.
  apply map_eq. intros n. rewrite overlay_lookup. by destruct (m !! n).
Qed.

Lemma truthy_key_insert m k q key :
  is_Some (m !! k) -> truthy_key (<[k := q]> m) key = truthy_key m key.
Proof.
  intros Hk. unfold truthy_key. f_equal. apply bool_decide_ext.
  destruct (decide (key = k)) as [->|Hne].
  - rewrite lookup_insert_eq. split; [done | by eexists].
  - by rewrite lookup_insert_ne.
Qed.

Lemma is_Some_insert m k q key :
  is_Some (m !! k) ->
  bool_decide (is_Some (<[k := q]> m !! key)) = bool_decide (is_Some (m !! key)).
Proof.
  intros Hk. apply bool_decide_ext.
  destruct (decide (key = k)) as [->|Hne].
  - rewrite lookup_insert_eq. split; [done | by eexists].
  - by rewrite lookup_insert_ne.
Qed.

Lemma assignments_insert m k q entries :
  is_Some (m !! k) -> assignments (<[k := q]> m) entries = assignments m entries.
Proof.
  intros Hk. induction entries as [|[key value] entries IH]; [done|].
  cbn. rewrite truthy_key_insert, is_Some_insert, IH by done. reflexivity.
Qed.

Lemma stops_insert m k q entries :
  is_Some (m !! k) ->
  existsb (stops (<[k := q]> m)) entries = existsb (stops m) entries.
Proof.
  intros Hk. induction entries as [|[key value] entries IH]; [done|].
  cbn. rewrite IH. f_equal. unfold stops. cbn.
  destruct value; [|done]. by apply truthy_key_insert.
Qed.

(** The loop throws at the first [null] under a truthy key, and leaves
    the object with the assignments made before. *)
Lemma forEach_overlay entries : forall m,
  forEach overlay_entry tt entries m =
  (if existsb (stops m) entries then Throw TypeError else Return tt,
   overlay (assignments m entries) m).
Proof.
  induction entries as [|[key value] entries IH]; intros m.
  - cbn. unfold ret. by rewrite overlay_nil.
  - cbn [forEach existsb assignments]. unfold bind at 1. unfold overlay_entry.
    unfold bind at 1. unfold gets, id. unfold stops at 1. cbn [fst snd].
    unfold truthy_key at 1 2.
    destruct (m !! key) as [p|] eqn:Hm.
    + rewrite (bool_decide_eq_true_2 (is_Some (Some p))) by (by eexists).
      destruct value as [|own_settings]; cbn.
      * by rewrite overlay_nil.
      * rewrite IH, assignments_insert, stops_insert by (by eexists).
        f_equal. apply map_eq. intros n. rewrite !overlay_lookup, entry_of_cons.
        destruct (decide (n = key)) as [->|Hne].
        -- rewrite lookup_insert_eq, Hm, decide_True by done. cbn.
           by destruct (entry_of _ key).
        -- rewrite lookup_insert_ne, decide_False by done.
           by destruct (entry_of _ n).
    + rewrite (bool_decide_eq_false_2 (is_Some None)) by (by intros [? ?]).
      cbn [orb].
      destruct (array_includes Object_prototype key); destruct value; cbn.
      * by rewrite overlay_nil.
      * apply IH.
      * apply IH.
      * apply IH.
Qed.

(** Loading never throws.  In a browser, a snapshot that parses to
    something else than [null] leaves the object with the assignments
    that the loop made; in every other case the object is as it was. *)
Lemma load_saved_settings_run isBrowser storage m :
  load_saved_settings isBrowser storage m =
  (Return tt,
   match (if isBrowser then provider_settings storage else None) with
   | Some (Json (snapshot_entries entries)) => overlay (assignments m entries) m
   | _ => m
   end).
Proof.
  unfold load_saved_settings.
  destruct isBrowser; [|done].
  destruct (provider_settings storage) as [[| |[|entries]]|]; cbn; try done.
  unfold try_catch, bind, ret, Object_entries. cbn.
  rewrite forEach_overlay. by destruct (existsb _ _).
Qed.

Lemma getInitialProviderSettings_overlay isBrowser storage :
  getInitialProviderSettings provider_name PROVIDER_LIST isBrowser storage =
  match (if isBrowser then provider_settings storage else None) with
  | Some (Json (snapshot_entries entries)) =>
      overlay (assignments defaults entries) defaults
  | _ => defaults
  end.
Proof.
  unfold getInitialProviderSettings, exec. by rewrite load_saved_settings_run.
Qed.

Lemma getInitialProviderSettings_entries storage entries :
  provider_settings storage = Some (Json (snapshot_entries entries)) ->
  getInitialProviderSettings provider_name PROVIDER_LIST true storage
  = overlay (assignments defaults entries) defaults.
Proof. intros Hs. by rewrite getInitialProviderSettings_overlay, Hs. Qed.

(** **** The assignments of the loop *)




(** Where the loop runs through, the last assignment to a key of the
    object is the last entry of the snapshot under the key. *)
Lemma entry_of_assignments m entries n :
  existsb (stops m) entries = false ->
  is_Some (m !! n) ->
  entry_of (assignments m entries) n =
  match entry_of entries n with
  | Some (entry_value own_settings) => Some own_settings
  | _ => None
  end.
Proof.
  intros Hrun Hn.
  assert (truthy_key m n = true) as Htn
    by (unfold truthy_key; by rewrite bool_decide_eq_true_2).
  assert (forall l, existsb (stops m) l = false -> entry_of l n <> Some entry_null)
    as Hnull.
  { intros l Hl Hin%entry_of_Some_elem.
    assert (existsb (stops m) l = true) as Hex; [|congruence].
    apply existsb_exists. exists (n, entry_null).
    split; [by apply list_elem_of_In | exact Htn]. }
  induction entries as [|[key value] entries IH]; [done|].
  cbn [existsb] in Hrun. apply orb_false_iff in Hrun as [Hstop Hrest].
  specialize (IH Hrest). specialize (Hnull entries Hrest).
  unfold stops in Hstop. cbn [fst snd] in Hstop.
  rewrite entry_of_cons. cbn [assignments].
  destruct value as [|own_settings].
  - rewrite Hstop, IH.
    destruct (entry_of entries n) as [[|s]|]; [done|done|].
    rewrite decide_False; [done|]. intros ->. congruence.
  - case_bool_decide as Hkey.
    + rewrite entry_of_cons, IH.
      destruct (entry_of entries n) as [[|s]|]; [done|done|].
      by destruct (decide (key = n)).
    + rewrite IH. destruct (entry_of entries n) as [[|s]|]; [done|done|].
      rewrite decide_False; [done|]. by intros ->.
Qed.

(** A written snapshot has no [null] entry. *)
Lemma written_runs_through {Info} m (store : gmap string (IProviderConfig Info)) :
  existsb (stops m)
    ((fun kv =>
        (kv.1, entry_value (Some (settings_record (stringify_record (settings kv.2))))))
       <$> map_to_list store) = false.
Proof.
  induction (map_to_list store) as [|kv l IH]; [done|]. cbn. by rewrite IH.
Qed.


(** **** The store when the module is loaded *)

Lemma as_config_default provider :
  as_config (default_entry provider_name provider)
  = Some {| info := Some provider;
            settings :=
              {[ "enabled" :=
                   Bool (negb (array_includes LOCAL_PROVIDERS (provider_name provider))) ]} |}.
Proof. reflexivity. Qed.

Lemma providersStore_initial_lookup isBrowser storage n :
  providersStore_initial provider_name PROVIDER_LIST isBrowser storage !! n
  = getInitialProviderSettings provider_name PROVIDER_LIST isBrowser storage !! n
      ≫= as_config.
Proof. unfold providersStore_initial. apply lookup_omap. Qed.

(** Without a snapshot the store starts with the defaults. *)
Lemma providersStore_initial_defaults isBrowser storage n :
  provider_settings storage = None ->
  providersStore_initial provider_name PROVIDER_LIST isBrowser storage !! n
  = if bool_decide (n ∈ names)
    then Some {| info := defaults !! n ≫= info;
                 settings :=
                   {[ "enabled" := Bool (negb (array_includes LOCAL_PROVIDERS n)) ]} |}
    else None.
Proof.
  intros Hnone. rewrite providersStore_initial_lookup.
  rewrite getInitialProviderSettings_overlay, Hnone.
  assert ((if isBrowser then None else None) = @None (stored Snapshot)) as ->
    by (by destruct isBrowser).
  case_bool_decide as Hn.
  - destruct (default_settings_known n Hn) as (x & _ & <- & ->). reflexivity.
  - by rewrite default_settings_unknown.
Qed.

End Initial.

(** *** Updates by the user *)

Section Update.

Context {ProviderInfo : Type}.

Implicit Types (st : State ProviderInfo) (n : string)
  (p : IProviderConfig ProviderInfo).

(** What the tracking of a user's change does in a browser. *)
Lemma updateAutoEnabledTracking_browser n (v : value) st :
  updateAutoEnabledTracking true n v st =
  (Return tt,
   if history_readable (localStorage st) then
     if truthy v then
       if array_includes (history (localStorage st)) n then st
       else
         {| providersStore := providersStore st;
            localStorage :=
              {| provider_settings := provider_settings (localStorage st);
                 auto_enabled_providers :=
                   Some (Json (history (localStorage st) ++ [n])) |} |}
     else
       {| providersStore := providersStore st;
          localStorage :=
            {| provider_settings := provider_settings (localStorage st);
               auto_enabled_providers :=
                 Some (Json (filter (fun x => x <> n) (history (localStorage st)))) |} |}
   else st).
Proof.
  unfold updateAutoEnabledTracking, try_catch, history_readable, history. cbn [negb].
  unfold bind at 1. unfold getItem_AUTO_ENABLED, localStorage_object.
  cbn -[array_includes].
  destruct (auto_enabled_providers (localStorage st)) as [[| |names]|];
    cbn -[array_includes]; try done.
  all: destruct (truthy v); cbn -[array_includes]; [|done].
  all: by destruct (array_includes _ n).
Qed.

Lemma spread_source_own (m : gmap string (IProviderConfig ProviderInfo)) n p :
  m !! n = Some p -> spread_source m n = Some p.
Proof. unfold spread_source. by intros ->. Qed.

Lemma spread_source_local (m : gmap string (IProviderConfig ProviderInfo)) n p :
  n ∈ LOCAL_PROVIDERS -> spread_source m n = Some p -> m !! n = Some p.
Proof.
  unfold spread_source. intros Hlocal. destruct (m !! n); [done|].
  destruct (array_includes Object_prototype n) eqn:Hin; [|done].
  apply array_includes_spec in Hin. exfalso. revert Hlocal Hin.
  unfold LOCAL_PROVIDERS, Object_prototype. rewrite !elem_of_cons, !elem_of_nil.
  intros [->|[->|[->|[]]]]; naive_solver.
Qed.

Lemma updateProviderSettings_browser n partial p st :
  spread_source (providersStore st) n = Some p ->
  let updatedProvider :=
    {| info := info p; settings := spread (settings p) partial |} in
  let st1 :=
    {| providersStore := <[n := updatedProvider]> (providersStore st);
       localStorage :=
         {| provider_settings :=
              Some (JSON_stringify (<[n := updatedProvider]> (providersStore st)));
            auto_enabled_providers := auto_enabled_providers (localStorage st) |} |} in
  updateProviderSettings true n partial st =
  if array_includes LOCAL_PROVIDERS n && defined (enabled updatedProvider)
  then updateAutoEnabledTracking true n (enabled updatedProvider) st1
  else (Return tt, st1).
Proof.
  intros Hm updatedProvider st1.
  unfold updateProviderSettings, bind at 1, providersStore_get, gets.
  rewrite Hm.
  unfold bind at 1. unfold providersStore_setKey, modify.
  unfold bind at 1. unfold providersStore_get, gets. cbn [providersStore].
  unfold bind at 1. unfold setItem_PROVIDER_SETTINGS, localStorage_object.
  cbn. fold updatedProvider. fold st1.
  by destruct (_ && _).
Qed.

(** C8, as the code has it.  For a provider that the map holds, in a
    browser whose history can be read, the update merges the partial
    settings over the settings record and persists the whole map.  When the
    provider is local and [enabled] is defined in the merged record, be
    it from the partial settings or from the record as it was, the
    history follows the merged value: a truthy value adds the name unless
    it is there, a falsy one removes it.  Otherwise the stored history is
    left alone.  Enabling "LMStudio" leaves it in the history and enabled
    in the snapshot. *)
Theorem updateProviderSettings_spec st n partial p :
  providersStore st !! n = Some p ->
  history_readable (localStorage st) = true ->
  let merged := spread (settings p) partial in
  let st' := exec (updateProviderSettings true n partial) st in
  result (updateProviderSettings true n partial) st = Return tt /\
  providersStore st'
  = <[n := {| info := info p; settings := merged |}]> (providersStore st) /\
  provider_settings (localStorage st') = Some (JSON_stringify (providersStore st')) /\
  (if array_includes LOCAL_PROVIDERS n && defined (get merged "enabled")
   then
     history (localStorage st') =
     if truthy (get merged "enabled")
     then if array_includes (history (localStorage st)) n
          then history (localStorage st)
          else history (localStorage st) ++ [n]
     else filter (fun x => x <> n) (history (localStorage st))
   else
     auto_enabled_providers (localStorage st')
     = auto_enabled_providers (localStorage st)) /\
  (n = "LMStudio" -> partial !! "enabled" = Some (Bool true) ->
   "LMStudio" ∈ history (localStorage st') /\
   is_enabled (providersStore st') "LMStudio" = true /\
   exists doc record,
     provider_settings (localStorage st') = Some (Json doc) /\
     doc !! "LMStudio" = Some record /\
     record !! "enabled" = Some (Bool true)).
Proof.
  intros Hm Hread merged st'.
  pose proof (updateProviderSettings_browser n partial p st
                (spread_source_own _ _ _ Hm)) as Hrun.
  cbv zeta in Hrun. fold merged in Hrun.
  unfold enabled in Hrun. cbn [settings] in Hrun.
  set (up := {| info := info p; settings := merged |}) in *.
  set (st1 := {| providersStore := <[n := up]> (providersStore st);
                 localStorage := _ |}) in *.
  assert (history_readable (localStorage st1) = true) as Hread1 by done.
  assert (history (localStorage st1) = history (localStorage st)) as Hh1 by done.
  rewrite updateAutoEnabledTracking_browser, Hread1, Hh1 in Hrun.
  assert (result (updateProviderSettings true n partial) st = Return tt) as Hres
    by (unfold result; rewrite Hrun; by destruct (_ && _)).
  assert (providersStore st' = <[n := up]> (providersStore st)) as Hstore.
  { subst st'. unfold exec. rewrite Hrun.
    destruct (_ && _); [|done]. destruct (truthy _); [|done].
    by destruct (array_includes _ n). }
  assert (provider_settings (localStorage st')
          = Some (JSON_stringify (<[n := up]> (providersStore st)))) as Hsnap.
  { subst st'. unfold exec. rewrite Hrun.
    destruct (_ && _); [|done]. destruct (truthy _); [|done].
    by destruct (array_includes _ n). }
  assert (if array_includes LOCAL_PROVIDERS n && defined (get merged "enabled")
          then history (localStorage st') =
               if truthy (get merged "enabled")
               then if array_includes (history (localStorage st)) n
                    then history (localStorage st)
                    else history (localStorage st) ++ [n]
               else filter (fun x => x <> n) (history (localStorage st))
          else auto_enabled_providers (localStorage st')
               = auto_enabled_providers (localStorage st)) as Hhist.
  { subst st'. unfold exec. rewrite Hrun.
    destruct (_ && _); [|done]. destruct (truthy _); [|done].
    by destruct (array_includes _ n). }
  split; [done|]. split; [done|]. split; [by rewrite Hsnap, Hstore|].
  split; [done|].
  intros -> Hon.
  assert (merged !! "enabled" = Some (Bool true)) as Hmerged
    by (subst merged; unfold spread; by apply lookup_union_Some_l).
  assert (get merged "enabled" = Bool true) as Hget
    by (unfold get; by rewrite Hmerged).
  rewrite Hget in Hhist. cbn in Hhist.
  split; [|split].
  - rewrite Hhist. destruct (array_includes _ _) eqn:Hin.
    + by apply array_includes_spec.
    + apply elem_of_app. right. left.
  - unfold is_enabled, enabled. rewrite Hstore, lookup_insert_eq. cbn.
    by rewrite Hget.
  - eexists _, _. split; [exact Hsnap|]. split.
    + rewrite stringified_lookup, lookup_insert_eq. reflexivity.
    + cbn. unfold stringify_record. by apply map_lookup_filter_Some.
Qed.

End Update.

(** *** Two runs of the store *)

Section Runs.

Context {ProviderInfo : Type}.
Variable provider_name : ProviderInfo -> string.
Variable PROVIDER_LIST : list ProviderInfo.

(** The first run: the map is the one that initialisation builds on a
    machine without a snapshot.  Every local provider of the list that the
    report marks configured through the environment ends up enabled and
    in the persisted history. *)
Lemma first_run_from_defaults storage report n :
  provider_settings storage = None ->
  history_readable storage = true ->
  n ∈ LOCAL_PROVIDERS ->
  n ∈ provider_name <$> PROVIDER_LIST ->
  reported_by_environment report n = true ->
  let st := initial_state provider_name PROVIDER_LIST true storage in
  let st' := exec (autoEnableConfiguredProviders true report) st in
  is_enabled (providersStore st') n = true /\ n ∈ history (localStorage st').
Proof.
  intros Hnone Hread Hlocal Hknown Hrep st st'.
  pose proof (providersStore_initial_defaults provider_name PROVIDER_LIST true
                storage n Hnone) as Hm.
  rewrite bool_decide_eq_true_2 in Hm by done.
  apply array_includes_spec in Hlocal as Hinc. rewrite Hinc in Hm. cbn [negb] in Hm.
  set (d := {| info := _; settings := _ |}) in Hm.
  assert (truthy (enabled d) = false) as Hoff by done.
  assert (providersStore st !! n = Some d) as Hst by exact Hm.
  assert (snapshot_exists (localStorage st) = false) as Hsnap
    by (by apply snapshot_exists_false).
  pose proof (pushed_without_snapshot report st n d Hsnap Hlocal Hrep Hst Hoff) as Hin.
  destruct (pushed_recorded report st n Hread Hin) as [Hlook Hhist].
  fold st' in Hlook, Hhist. rewrite Hst in Hlook. split; [|done].
  unfold is_enabled. rewrite Hlook. cbn -[enabled enable].
  by rewrite enabled_enable.
Qed.

(** The user switches a local provider off and the pass runs afterwards:
    the provider stays off, whatever the report and the history. *)
Lemma disable_then_autoEnable (st : State ProviderInfo) report n p :
  providersStore st !! n = Some p ->
  n ∈ LOCAL_PROVIDERS ->
  let st1 := exec (updateProviderSettings true n {[ "enabled" := Bool false ]}) st in
  let st2 := exec (autoEnableConfiguredProviders true report) st1 in
  is_disabled (providersStore st2) n = true.
Proof.
  intros Hm Hlocal st1 st2.
  pose proof (updateProviderSettings_browser n {[ "enabled" := Bool false ]} p st
                (spread_source_own _ _ _ Hm)) as Hrun.
  cbv zeta in Hrun. unfold enabled in Hrun. cbn [settings] in Hrun.
  assert (get (spread (settings p) {[ "enabled" := Bool false ]}) "enabled"
          = Bool false) as Hget.
  { unfold get, spread. by rewrite (lookup_union_Some_l _ _ _ (Bool false)). }
  apply array_includes_spec in Hlocal as Hinc.
  rewrite Hget, Hinc in Hrun. cbn [defined andb] in Hrun.
  rewrite updateAutoEnabledTracking_browser in Hrun. cbn [truthy] in Hrun.
  set (up := {| info := info p; settings := _ |}) in *.
  assert (providersStore st1 !! n = Some up) as Hm1.
  { subst st1. unfold exec. rewrite Hrun. cbn [snd].
    destruct (history_readable _); cbn; by rewrite lookup_insert_eq. }
  assert (snapshot_exists (localStorage st1) = true) as Hsnap1.
  { subst st1. unfold exec. rewrite Hrun. cbn [snd].
    by destruct (history_readable _). }
  assert (n ∉ history (localStorage st1)) as Hnot.
  { subst st1. unfold exec. rewrite Hrun. cbn [snd].
    destruct (history_readable _) eqn:Hr; cbn.
    - rewrite list_elem_of_filter. naive_solver.
    - unfold history_readable in Hr. cbn in Hr. unfold history.
      destruct (auto_enabled_providers (localStorage st)) as [[]|];
        try done; apply not_elem_of_nil. }
  assert (truthy (enabled up) = false) as Hoff
    by (unfold enabled; cbn [settings up]; by rewrite Hget).
  destruct (autoEnable_lookup true report st1 n)
    as [Hsame|(q & _ & _ & _ & [Hnone|Hin])].
  - fold st2 in Hsame. unfold is_disabled. by rewrite Hsame, Hm1, Hoff.
  - apply snapshot_exists_false in Hnone. congruence.
  - done.
Qed.

End Runs.

End SettingsFacts.

(** ** The properties at work on the scenarios *)

Module Scenarios.

Import JS Settings Examples StringFacts SettingsFacts ApiFacts.

Local Ltac by_computation := vm_compute; reflexivity.
Local Ltac is_member := apply array_includes_spec; by_computation.
Local Ltac not_member := apply array_includes_false; by_computation.

(** The first run with Ollama detected: Ollama is turned on and recorded. *)
Lemma autoEnable_policy_witness :
  history_readable (localStorage first_run) = true /\
  "Ollama" ∈ LOCAL_PROVIDERS /\
  reported_by_environment ollama_detected "Ollama" = true /\
  is_enabled
    (providersStore (exec (autoEnableConfiguredProviders true ollama_detected) first_run))
    "Ollama" = true /\
  "Ollama" ∈
    history (localStorage (exec (autoEnableConfiguredProviders true ollama_detected)
                                first_run)).
Proof.
  assert (history_readable (localStorage first_run) = true) as Hread
    by by_computation.
  assert ("Ollama" ∈ LOCAL_PROVIDERS) as Hlocal by is_member.
  assert (reported_by_environment ollama_detected "Ollama" = true) as Hrep
    by by_computation.
  assert (is_disabled (providersStore first_run) "Ollama" = true) as Hoff
    by by_computation.
  assert (snapshot_exists (localStorage first_run) = false) as Hsnap
    by by_computation.
  destruct (autoEnable_policy first_run ollama_detected "Ollama" Hread Hlocal Hrep)
    as [Hiff Hrecord].
  destruct (proj2 Hiff (conj Hoff (or_introl Hsnap))) as [_ Hon].
  destruct (Hrecord "Ollama" Hoff Hon) as [Hin _].
  split; [exact Hread|]. split; [exact Hlocal|]. split; [exact Hrep|].
  split; [exact Hon | exact Hin].
Defined.

(** C1 as stated fails where the stored history does not parse: on the
    first run Ollama is disabled, no snapshot is persisted and the
    detector finds Ollama, yet the pass leaves it disabled. *)
Lemma autoEnable_policy_counterexample :
  "Ollama" ∈ LOCAL_PROVIDERS /\
  reported_by_environment ollama_detected "Ollama" = true /\
  is_disabled (providersStore MoreExamples.unreadable_history) "Ollama" = true /\
  snapshot_exists (localStorage MoreExamples.unreadable_history) = false /\
  is_enabled
    (providersStore (exec (autoEnableConfiguredProviders true ollama_detected)
                          MoreExamples.unreadable_history))
    "Ollama" = false.
Proof. split; [is_member|]. repeat split; by_computation. Qed.

(** An enabled Ollama stays enabled when the detector finds nothing. *)
Lemma autoEnable_never_disables_witness :
  is_enabled (providersStore enabled_untracked) "Ollama" = true /\
  is_enabled
    (providersStore (exec (autoEnableConfiguredProviders true nothing_detected)
                          enabled_untracked))
    "Ollama" = true.
Proof.
  assert (is_enabled (providersStore enabled_untracked) "Ollama" = true) as Hon
    by by_computation.
  split; [exact Hon|].
  exact (proj1 (autoEnable_never_disables true enabled_untracked nothing_detected
                  "Ollama" Hon)).
Defined.

(** Scenario B: the user switched Ollama off, the detector finds it, it
    stays off. *)
Lemma sticky_user_disable_witness :
  snapshot_exists (localStorage user_disabled) = true /\
  is_disabled (providersStore user_disabled) "Ollama" = true /\
  ("Ollama" ∉ history (localStorage user_disabled)) /\
  reported_by_environment ollama_detected "Ollama" = true /\
  is_disabled
    (providersStore (exec (autoEnableConfiguredProviders true ollama_detected)
                          user_disabled))
    "Ollama" = true.
Proof.
  assert (snapshot_exists (localStorage user_disabled) = true) as Hsnap
    by by_computation.
  assert (is_disabled (providersStore user_disabled) "Ollama" = true) as Hoff
    by by_computation.
  assert ("Ollama" ∉ history (localStorage user_disabled)) as Hnot by not_member.
  split; [exact Hsnap|]. split; [exact Hoff|]. split; [exact Hnot|].
  split; [by_computation|].
  exact (proj1 (sticky_user_disable true user_disabled ollama_detected "Ollama"
                  Hsnap Hoff Hnot)).
Defined.

(** Scenario B again: the pass turns nothing on and writes nothing. *)
Lemma autoEnable_no_flip_no_change_witness :
  exec (autoEnableConfiguredProviders true ollama_detected) user_disabled
  = user_disabled.
Proof.
  apply (autoEnable_no_flip_no_change true user_disabled ollama_detected).
  intros n Hoff.
  assert (exec (autoEnableConfiguredProviders true ollama_detected) user_disabled
          = user_disabled) as -> by by_computation.
  by apply is_disabled_not_enabled.
Defined.

(** Scenario D: the user enables LMStudio. *)
Lemma updateProviderSettings_spec_witness :
  "LMStudio" ∈
    history (localStorage
      (exec (updateProviderSettings true "LMStudio" {[ "enabled" := Bool true ]})
            first_run)) /\
  is_enabled
    (providersStore
      (exec (updateProviderSettings true "LMStudio" {[ "enabled" := Bool true ]})
            first_run))
    "LMStudio" = true.
Proof.
  assert (providersStore first_run !! "LMStudio"
          = Some {| info := Some "LMStudio";
                    settings := {[ "enabled" := Bool false ]} |})
    as Hm by by_computation.
  assert (history_readable (localStorage first_run) = true) as Hread
    by by_computation.
  destruct (updateProviderSettings_spec first_run "LMStudio"
              {[ "enabled" := Bool true ]} _ Hm Hread) as (_ & _ & _ & _ & Hlm).
  destruct (Hlm eq_refl eq_refl) as (Hin & Hon & _).
  split; assumption.
Defined.

(** C8 as stated fails: the update carries a base URL and no [enabled],
    and the history gains Ollama all the same; on the first run the same
    update of the disabled Ollama writes an empty history where none was
    stored. *)
Lemma updateProviderSettings_counterexample :
  base_url_only !! "enabled" = None /\
  history (localStorage enabled_untracked) = [] /\
  history (localStorage
    (exec (updateProviderSettings true "Ollama" base_url_only) enabled_untracked))
  = ["Ollama"] /\
  auto_enabled_providers (localStorage first_run) = None /\
  auto_enabled_providers (localStorage
    (exec (updateProviderSettings true "Ollama" base_url_only) first_run))
  = Some (Json []).
Proof. repeat split; by_computation. Qed.



(** Scenario C: the placeholder token leaves its provider unconfigured. *)
Lemma placeholder_rejection_witness :
  Api.env_value placeholder_request registry "OPENAI_LIKE_API_KEY"
  = Str "sk-your_key_here" /\
  Api.check_provider placeholder_request registry "OpenAILike"
  = Return (Api.unconfigured "OpenAILike").
Proof.
  assert (Api.env_value placeholder_request registry "OPENAI_LIKE_API_KEY"
          = Str "sk-your_key_here") as Hvalue by by_computation.
  split; [exact Hvalue|].
  destruct (placeholder_rejection placeholder_request registry token_only
              "OPENAI_LIKE_API_KEY" "sk-your_key_here" Hvalue) as (_ & _ & Hc).
  destruct (Hc eq_refl eq_refl eq_refl) as [_ Hreport].
  exact (Hreport "OpenAILike" eq_refl).
Defined.

(** The registry fails on the third provider: the two entries already
    made are dropped and the answer lists all three as unconfigured. *)
Lemma loader_degrades_witness :
  Api.detect failing_request = Throw (Error "registry unavailable") /\
  Api.loader failing_request =
  {| Api.status := 200;
     Api.providers :=
       [ ConfiguredProvider.mk "OpenAILike" false ConfiguredProvider.none;
         ConfiguredProvider.mk "LMStudio" false ConfiguredProvider.none;
         ConfiguredProvider.mk "Ollama" false ConfiguredProvider.none ] |}.
Proof.
  assert (Api.detect failing_request = Throw (Error "registry unavailable")) as Hthrow
    by by_computation.
  split; [exact Hthrow|].
  exact (loader_degrades failing_request _ Hthrow).
Defined.

(** The padded base URL of Ollama closes the base-URL path. *)
Lemma leading_whitespace_rejected_witness :
  Api.env_value padded_request registry "OLLAMA_API_BASE_URL"
  = Str " http://localhost:11434" /\
  Api.isValidEnvValue (Api.env_value padded_request registry "OLLAMA_API_BASE_URL")
  = false /\
  Api.check_config padded_request registry url_only
  = (false, ConfiguredProvider.none).
Proof.
  assert (Api.env_value padded_request registry "OLLAMA_API_BASE_URL"
          = Str " http://localhost:11434") as Hvalue by by_computation.
  split; [exact Hvalue|].
  destruct (leading_whitespace_rejected padded_request registry url_only
              "OLLAMA_API_BASE_URL" " "%char "http://localhost:11434"
              eq_refl Hvalue eq_refl) as [Hinvalid Hclosed].
  split; [exact Hinvalid|]. rewrite Hclosed. reflexivity.
Defined.

End Scenarios.

(** ** Sessions of the store *)

Module SessionFacts.

Import JS Settings Session StringFacts SettingsFacts.

Section Sessions.

Context {ProviderInfo : Type}.

Implicit Types (st : State ProviderInfo) (n k : string)
  (p : IProviderConfig ProviderInfo) (report : list ConfiguredProvider.t).

(** *** The update in every setting *)

Lemma updateProviderSettings_missing isBrowser n partial st :
  spread_source (providersStore st) n = None ->
  updateProviderSettings isBrowser n partial st = (Throw TypeError, st).
Proof.
  intros Hm. unfold updateProviderSettings, bind, providersStore_get, gets.
  by rewrite Hm.
Qed.

Lemma updateProviderSettings_server n partial p st :
  spread_source (providersStore st) n = Some p ->
  updateProviderSettings false n partial st =
  (Throw ReferenceError,
   {| providersStore :=
        <[n := {| info := info p; settings := spread (settings p) partial |}]>
          (providersStore st);
      localStorage := localStorage st |}).
Proof.
  intros Hm. unfold updateProviderSettings, bind at 1, providersStore_get, gets.
  rewrite Hm. reflexivity.
Qed.

(** The whole effect of an update in a browser on a provider that the
    map holds. *)
Lemma updateProviderSettings_run n partial p st :
  spread_source (providersStore st) n = Some p ->
  let merged := spread (settings p) partial in
  let m' := <[n := {| info := info p; settings := merged |}]> (providersStore st) in
  updateProviderSettings true n partial st =
  (Return tt,
   {| providersStore := m';
      localStorage :=
        {| provider_settings := Some (JSON_stringify m');
           auto_enabled_providers :=
             if array_includes LOCAL_PROVIDERS n && defined (get merged "enabled")
                && history_readable (localStorage st)
             then
               if truthy (get merged "enabled") then
                 if array_includes (history (localStorage st)) n
                 then auto_enabled_providers (localStorage st)
                 else Some (Json (history (localStorage st) ++ [n]))
               else Some (Json (filter (fun x => x <> n) (history (localStorage st))))
             else auto_enabled_providers (localStorage st) |} |}).
Proof.
  intros Hm merged m'.
  pose proof (updateProviderSettings_browser n partial p st Hm) as Hrun.
  cbv zeta in Hrun. fold merged in Hrun. unfold enabled in Hrun.
  cbn [settings] in Hrun. fold m' in Hrun.
  set (st1 := {| providersStore := m'; localStorage := _ |}) in *.
  assert (history_readable (localStorage st1) = history_readable (localStorage st))
    as Hread1 by done.
  assert (history (localStorage st1) = history (localStorage st)) as Hh1 by done.
  rewrite updateAutoEnabledTracking_browser, Hread1, Hh1 in Hrun.
  rewrite Hrun. subst st1.
  destruct (array_includes LOCAL_PROVIDERS n); [|done].
  destruct (defined _); [|done].
  destruct (history_readable (localStorage st)); [|done].
  destruct (truthy _); [|done].
  by destruct (array_includes (history (localStorage st)) n).
Qed.

(** The three things an update can do to the stored history. *)
Lemma update_history isBrowser n partial st :
  let st' := exec (updateProviderSettings isBrowser n partial) st in
  auto_enabled_providers (localStorage st') = auto_enabled_providers (localStorage st)
  \/ (n ∈ LOCAL_PROVIDERS /\ (n ∉ history (localStorage st)) /\
      auto_enabled_providers (localStorage st')
      = Some (Json (history (localStorage st) ++ [n])))
  \/ auto_enabled_providers (localStorage st')
     = Some (Json (filter (fun x => x <> n) (history (localStorage st)))).
Proof.
  intros st'. subst st'. unfold exec.
  destruct (spread_source (providersStore st) n) as [p|] eqn:Hm.
  2: { rewrite updateProviderSettings_missing by done. by left. }
  destruct isBrowser.
  2: { rewrite (updateProviderSettings_server n partial p) by done.
       left. reflexivity. }
  rewrite (updateProviderSettings_run n partial p st Hm).
  cbn [snd localStorage auto_enabled_providers].
  destruct (array_includes LOCAL_PROVIDERS n) eqn:Hlocal; [|by left].
  destruct (defined _); [|by left].
  destruct (history_readable (localStorage st)); [|by left]. cbn [andb].
  destruct (truthy _).
  - destruct (array_includes (history (localStorage st)) n) eqn:Hin; [by left|].
    right. left. split; [by apply array_includes_spec|].
    split; [by apply array_includes_false | done].
  - by right; right.
Qed.

(** The two things a pass can do to the storage. *)
Lemma pass_storage isBrowser report st :
  let st' := exec (autoEnableConfiguredProviders isBrowser report) st in
  let r := pass (provider_settings (localStorage st)) (history (localStorage st))
                (providersStore st) report in
  st' = st \/
  (providersStore st' = r.1 /\
   provider_settings (localStorage st') = Some (JSON_stringify r.1) /\
   auto_enabled_providers (localStorage st')
   = Some (Json (unique (history (localStorage st) ++ r.2)))).
Proof.
  intros st' r.
  destruct (autoEnable_cases isBrowser report st) as [[Heq _]|(_ & _ & _ & Heq)];
    [by left | right]. fold st' in Heq. by rewrite Heq.
Qed.

Lemma pushed_local report st x :
  x ∈ (pass (provider_settings (localStorage st)) (history (localStorage st))
            (providersStore st) report).2 ->
  x ∈ LOCAL_PROVIDERS.
Proof.
  intros (Hcp & _)%pass_newly. by apply eligible_reported in Hcp as [_ Hl].
Qed.

Lemma history_of_json storage names :
  auto_enabled_providers storage = Some (Json names) -> history storage = names.
Proof. unfold history. by intros ->. Qed.

Lemma history_same storage storage' :
  auto_enabled_providers storage' = auto_enabled_providers storage ->
  history storage' = history storage.
Proof. unfold history. by intros ->. Qed.

Lemma run_action_history_ok isBrowser (a : action) st :
  history_ok (localStorage st) ->
  history_ok (localStorage (exec (run_action isBrowser a) st)).
Proof.
  intros [Hnd Hlocal]. destruct a as [report|n partial]; cbn [run_action].
  - destruct (pass_storage isBrowser report st) as [->|(_ & _ & Hh)]; [done|].
    apply history_of_json in Hh. unfold history_ok. rewrite Hh. split.
    + apply unique_NoDup.
    + intros x [Hx|Hx]%unique_elem%elem_of_app; [by apply Hlocal|].
      by eapply pushed_local.
  - destruct (update_history isBrowser n partial st) as [Hh|[(Hl & Hnot & Hh)|Hh]].
    + apply history_same in Hh. unfold history_ok. by rewrite Hh.
    + apply history_of_json in Hh. unfold history_ok. rewrite Hh. split.
      * apply list.NoDup_app. split; [done|]. split; [|apply NoDup_singleton].
        intros x Hx Heq%list_elem_of_singleton. by subst x.
      * intros x [Hx|Heq%list_elem_of_singleton]%elem_of_app;
          [by apply Hlocal | by subst x].
    + apply history_of_json in Hh. unfold history_ok. rewrite Hh. split.
      * by apply list.NoDup_filter.
      * intros x [_ Hx]%list_elem_of_filter. by apply Hlocal.
Qed.

(** X1.  Whatever the user and the detector do during a session, in a
    browser or not, a persisted history that names local providers only,
    each once, stays so. *)
Theorem session_keeps_history_ok isBrowser (actions : list action) st :
  history_ok (localStorage st) ->
  history_ok (localStorage (run_session isBrowser actions st)).
Proof.
  revert st. induction actions as [|a actions IH]; intros st Hok; [done|].
  cbn. apply IH. by apply run_action_history_ok.
Qed.

(** X2.  Running the pass a second time on the same report changes
    nothing more: the providers that the first pass turned on are on, and
    the ones it refused are still refused. *)
Theorem autoEnable_idempotent isBrowser report st :
  exec (autoEnableConfiguredProviders isBrowser report)
       (exec (autoEnableConfiguredProviders isBrowser report) st)
  = exec (autoEnableConfiguredProviders isBrowser report) st.
Proof.
  set (st' := exec (autoEnableConfiguredProviders isBrowser report) st).
  destruct (autoEnable_cases isBrowser report st) as [[Heq _]|(Hb & Hr & Hne & Heq)];
    fold st' in Heq.
  { rewrite Heq. exact Heq. }
  destruct (autoEnable_cases isBrowser report st') as [[Heq2 _]|(_ & _ & Hne2 & _)];
    [done|]. exfalso.
  set (r := pass (provider_settings (localStorage st)) (history (localStorage st))
                 (providersStore st) report) in *.
  destruct (pass _ _ (providersStore st') report).2 as [|x fl] eqn:Hfl; [done|].
  assert (x ∈ (pass (provider_settings (localStorage st')) (history (localStorage st'))
                    (providersStore st') report).2) as Hx by (rewrite Hfl; left).
  apply pass_newly in Hx as (Hcp & (p' & Hm' & Hs)).
  apply shouldAutoEnable_spec in Hs as [Hoff Hpol].
  rewrite Heq in Hm', Hpol. cbn in Hm', Hpol.
  destruct Hpol as [Hnone|Hin]; [done|].
  apply unique_elem, elem_of_app in Hin.
  unfold r in Hm'. rewrite pass_lookup in Hm'. fold r in Hm'.
  case_bool_decide as Hpushed.
  - destruct (providersStore st !! x) as [p0|]; [|done]. cbn in Hm'.
    injection Hm' as <-. by rewrite enabled_enable in Hoff.
  - destruct Hin as [Hin|Hin]; [|done]. apply Hpushed.
    apply pass_newly. split; [done|]. exists p'. split; [done|].
    apply shouldAutoEnable_spec. split; [done | by right].
Qed.

(** What a user's disabling leaves behind in a browser. *)
Lemma after_disable st n p :
  providersStore st !! n = Some p ->
  n ∈ LOCAL_PROVIDERS ->
  let st1 := exec (updateProviderSettings true n {[ "enabled" := Bool false ]}) st in
  snapshot_exists (localStorage st1) = true /\
  is_disabled (providersStore st1) n = true /\
  n ∉ history (localStorage st1).
Proof.
  intros Hm Hlocal st1. subst st1. unfold exec.
  rewrite (updateProviderSettings_run n _ p st (spread_source_own _ _ _ Hm)).
  cbn [snd].
  assert (get (spread (settings p) {[ "enabled" := Bool false ]}) "enabled"
          = Bool false) as Hget.
  { unfold get, spread. by rewrite (lookup_union_Some_l _ _ _ (Bool false)). }
  rewrite Hget. apply array_includes_spec in Hlocal as ->.
  cbn [defined truthy andb providersStore localStorage].
  split; [done|]. split.
  - unfold is_disabled, enabled. rewrite lookup_insert_eq. cbn [settings].
    by rewrite Hget.
  - unfold history at 1. cbn [auto_enabled_providers].
    destruct (history_readable (localStorage st)) eqn:Hr.
    + rewrite list_elem_of_filter. naive_solver.
    + unfold history_readable in Hr.
      destruct (auto_enabled_providers (localStorage st)) as [[]|];
        try done; apply not_elem_of_nil.
Qed.

(** A pass keeps the refusal of a provider that the user disabled. *)
Lemma pass_keeps_refusal isBrowser report st n :
  snapshot_exists (localStorage st) = true ->
  is_disabled (providersStore st) n = true ->
  n ∉ history (localStorage st) ->
  let st' := exec (autoEnableConfiguredProviders isBrowser report) st in
  snapshot_exists (localStorage st') = true /\
  is_disabled (providersStore st') n = true /\
  n ∉ history (localStorage st').
Proof.
  intros Hsnap Hoff Hnot st'.
  assert (n ∉ (pass (provider_settings (localStorage st)) (history (localStorage st))
                    (providersStore st) report).2) as Hnp.
  { intros (_ & (p & _ & Hs))%pass_newly.
    apply shouldAutoEnable_spec in Hs as [_ [Hnone|Hin]]; [|done].
    apply snapshot_exists_false in Hnone. congruence. }
  destruct (pass_storage isBrowser report st) as [Heq|(Hstore & Hs & Hh)];
    fold st' in Heq || fold st' in Hstore, Hs, Hh.
  { by rewrite Heq. }
  split; [|split].
  - unfold snapshot_exists. by rewrite Hs.
  - unfold is_disabled. rewrite Hstore, pass_lookup.
    by rewrite bool_decide_eq_false_2.
  - apply history_of_json in Hh. rewrite Hh, unique_elem, elem_of_app. naive_solver.
Qed.

(** X3.  Once the user has switched a local provider off in a browser, no
    number of passes switches it on again, whatever the reports say, for
    every stored history that is absent, empty, no JSON, or an array of
    names. *)
Theorem disabled_survives_passes st n p (reports : list (list ConfiguredProvider.t)) :
  providersStore st !! n = Some p ->
  n ∈ LOCAL_PROVIDERS ->
  let st1 := exec (updateProviderSettings true n {[ "enabled" := Bool false ]}) st in
  is_disabled (providersStore (run_session true (AutoEnable <$> reports) st1)) n = true.
Proof.
  intros Hm Hlocal st1.
  destruct (after_disable st n p Hm Hlocal) as (Hsnap & Hoff & Hnot).
  fold st1 in Hsnap, Hoff, Hnot. clearbody st1. clear Hm.
  revert st1 Hsnap Hoff Hnot.
  induction reports as [|report reports IH]; intros st1 Hsnap Hoff Hnot; [done|].
  cbn. destruct (pass_keeps_refusal true report st1 n Hsnap Hoff Hnot) as (? & ? & ?).
  by apply IH.
Qed.

(** X4.  A pass leaves the keys of the map as they are, touches no
    provider that is not local or that the report does not mark configured
    through the environment, and on an entry it changes nothing but
    [enabled]. *)
Theorem autoEnable_frame isBrowser report st k :
  let st' := exec (autoEnableConfiguredProviders isBrowser report) st in
  (is_Some (providersStore st' !! k) <-> is_Some (providersStore st !! k)) /\
  (k ∉ LOCAL_PROVIDERS \/ reported_by_environment report k = false ->
   providersStore st' !! k = providersStore st !! k) /\
  (forall p p',
     providersStore st !! k = Some p -> providersStore st' !! k = Some p' ->
     info p' = info p /\
     forall field, field <> "enabled" -> settings p' !! field = settings p !! field).
Proof.
  intros st'.
  destruct (pass_storage isBrowser report st) as [Heq|(Hstore & _ & _)];
    fold st' in Heq || fold st' in Hstore.
  { rewrite Heq. split; [done|]. split; [done|].
    intros p p' Hm Hm'. rewrite Hm in Hm'. by injection Hm' as <-. }
  rewrite Hstore, pass_lookup. case_bool_decide as Hin.
  - split; [|split].
    + rewrite !is_Some_alt. by destruct (providersStore st !! k).
    + intros Hout. exfalso. apply pass_newly in Hin as (Hcp & _).
      apply eligible_reported in Hcp as [Hrep Hlocal].
      destruct Hout as [Hout|Hout]; [done | congruence].
    + intros p p' Hm. rewrite Hm. cbn. intros [= <-]. split; [done|].
      intros field Hne. cbn. by rewrite lookup_insert_ne.
  - split; [done|]. split; [done|].
    intros p p' Hm Hm'. rewrite Hm in Hm'. by injection Hm' as <-.
Qed.

Lemma inherited_not_local n :
  n ∈ Object_prototype -> array_includes LOCAL_PROVIDERS n = false.
Proof.
  intros Hin. apply array_includes_false. intros Hlocal. revert Hin Hlocal.
  unfold LOCAL_PROVIDERS, Object_prototype. rewrite !elem_of_cons, !elem_of_nil.
  intros Hin [->|[->|[->|[]]]]; naive_solver.
Qed.

Lemma spread_source_inherited (m : gmap string (IProviderConfig ProviderInfo)) n :
  m !! n = None -> n ∈ Object_prototype ->
  spread_source m n = Some {| info := None; settings := ∅ |}.
Proof.
  intros Hm Hin. unfold spread_source. rewrite Hm.
  apply array_includes_spec in Hin. by rewrite Hin.
Qed.

Lemma spread_source_absent (m : gmap string (IProviderConfig ProviderInfo)) n :
  m !! n = None -> n ∉ Object_prototype -> spread_source m n = None.
Proof.
  intros Hm Hin. unfold spread_source. rewrite Hm.
  apply array_includes_false in Hin. by rewrite Hin.
Qed.

(** X5.  An update ends normally exactly when the code runs in a browser
    and the map holds the name or a plain object inherits it.  For any
    other name it throws before it changes anything.  For an inherited
    name that the map lacks it adds the name to the map, with the partial
    settings as its settings and no field of a provider, and in a browser
    it persists the map and leaves the history alone.  Outside a browser
    it throws after it has changed the map, and stores nothing. *)
Theorem updateProviderSettings_outcome isBrowser n partial st :
  let st' := exec (updateProviderSettings isBrowser n partial) st in
  (result (updateProviderSettings isBrowser n partial) st = Return tt
   <-> isBrowser = true /\
       (is_Some (providersStore st !! n) \/ n ∈ Object_prototype)) /\
  (providersStore st !! n = None -> n ∉ Object_prototype ->
   result (updateProviderSettings isBrowser n partial) st = Throw TypeError /\
   st' = st) /\
  (providersStore st !! n = None -> n ∈ Object_prototype ->
   providersStore st'
   = <[n := {| info := None; settings := partial |}]> (providersStore st) /\
   if isBrowser
   then in_sync st' /\
        auto_enabled_providers (localStorage st')
        = auto_enabled_providers (localStorage st)
   else result (updateProviderSettings isBrowser n partial) st = Throw ReferenceError /\
        localStorage st' = localStorage st) /\
  (forall p, isBrowser = false -> providersStore st !! n = Some p ->
   result (updateProviderSettings isBrowser n partial) st = Throw ReferenceError /\
   localStorage st' = localStorage st /\
   providersStore st' !! n
   = Some {| info := info p; settings := spread (settings p) partial |}).
Proof.
  intros st'. subst st'. unfold result, exec.
  destruct (providersStore st !! n) as [p|] eqn:Hm.
  - pose proof (spread_source_own _ _ _ Hm) as Hsrc. destruct isBrowser.
    + rewrite (updateProviderSettings_run n partial p st Hsrc). cbn [fst snd].
      split; [|split; [|split]]; [|done|done|done]. split; [by eauto | done].
    + rewrite (updateProviderSettings_server n partial p st Hsrc). cbn [fst snd].
      split; [|split; [|split]]; [|done|done|].
      * split; [done | by intros [? _]].
      * intros p0 _ [= <-]. split; [done|]. split; [done|].
        cbn. by rewrite lookup_insert_eq.
  - destruct (decide (n ∈ Object_prototype)) as [Hin|Hin].
    + pose proof (spread_source_inherited _ _ Hm Hin) as Hsrc.
      assert (spread (∅ : gmap string value) partial = partial) as Hspread
        by (unfold spread; apply map_union_empty).
      destruct isBrowser.
      * rewrite (updateProviderSettings_run n partial _ st Hsrc). cbn [fst snd].
        cbn [info settings]. rewrite Hspread, (inherited_not_local n Hin).
        cbn [andb]. split; [|split; [|split]]; [|done| |done].
        -- split; [by eauto | done].
        -- intros _ _. split; [done|]. by split.
      * rewrite (updateProviderSettings_server n partial _ st Hsrc). cbn [fst snd].
        cbn [info settings]. rewrite Hspread.
        split; [|split; [|split]]; [|done| |done].
        -- split; [done | by intros [? _]].
        -- intros _ _. by split.
    + rewrite updateProviderSettings_missing by (by apply spread_source_absent).
      cbn [fst snd].
      split; [|split; [|split]]; [|done|done|done].
      split; [done|]. intros [_ [[? ?]|?]]; done.
Qed.

Lemma run_action_in_sync (a : action) st :
  in_sync st -> in_sync (exec (run_action true a) st).
Proof.
  intros Hsync. destruct a as [report|n partial]; cbn [run_action].
  - destruct (pass_storage true report st) as [->|(Hstore & Hs & _)]; [done|].
    unfold in_sync. by rewrite Hs, Hstore.
  - unfold exec. destruct (spread_source (providersStore st) n) as [p|] eqn:Hm.
    + by rewrite (updateProviderSettings_run n partial p st Hm).
    + by rewrite updateProviderSettings_missing.
Qed.

(** X6.  In a browser the persisted snapshot follows the map: an update
    of a provider that the map holds leaves the snapshot equal to the map,
    and from then on every pass and every update keeps it so. *)
Theorem snapshot_follows_map st :
  (forall n partial,
     is_Some (providersStore st !! n) ->
     in_sync (exec (updateProviderSettings true n partial) st)) /\
  (in_sync st -> forall actions : list action, in_sync (run_session true actions st)).
Proof.
  split.
  - intros n partial [p Hm]. unfold exec, in_sync.
    by rewrite (updateProviderSettings_run n partial p st (spread_source_own _ _ _ Hm)).
  - intros Hsync actions. revert st Hsync.
    induction actions as [|a actions IH]; intros st Hsync; [done|].
    cbn. apply IH. by apply run_action_in_sync.
Qed.

Lemma get_stringify_record (o : gmap string value) (field : string) :
  get (stringify_record o) field = get o field.
Proof.
  unfold get, stringify_record.
  destruct (o !! field) as [v|] eqn:Ho.
  - destruct (decide (v = Undefined)) as [->|Hv].
    + rewrite (proj2 (map_lookup_filter_None _ o field)); [done|].
      right. intros v Hv. rewrite Ho in Hv. by injection Hv as <-; cbn; intros [].
    + by rewrite (proj2 (map_lookup_filter_Some _ o field v)).
  - rewrite (proj2 (map_lookup_filter_None _ o field)); [done | by left].
Qed.

(** X7.  Reloading restores what was persisted: when the snapshot is the
    map, initialisation gives every provider of the list that the map
    holds the settings record of the map, less the fields whose value is
    [undefined], so each field reads as before, [enabled] included. *)
Theorem reload_restores
    (provider_name : ProviderInfo -> string) (PROVIDER_LIST : list ProviderInfo)
    st k p :
  in_sync st ->
  providersStore st !! k = Some p ->
  k ∈ provider_name <$> PROVIDER_LIST ->
  exists q,
    providersStore_initial provider_name PROVIDER_LIST true (localStorage st) !! k
    = Some q /\
    settings q = stringify_record (settings p) /\
    (forall field, get (settings q) field = get (settings p) field) /\
    is_enabled (providersStore_initial provider_name PROVIDER_LIST true
                  (localStorage st)) k
    = is_enabled (providersStore st) k.
Proof.
  intros Hsync Hm Hknown.
  unfold in_sync, JSON_stringify in Hsync.
  destruct (default_settings_known provider_name PROVIDER_LIST k Hknown)
    as (x & _ & _ & Hd).
  assert (providersStore_initial provider_name PROVIDER_LIST true (localStorage st) !! k
          = Some {| info := Some x; settings := stringify_record (settings p) |})
    as Hlook.
  { rewrite providersStore_initial_lookup.
    rewrite (getInitialProviderSettings_entries _ _ _ _ Hsync).
    rewrite overlay_lookup, Hd. cbn [fmap option_fmap option_map].
    rewrite entry_of_assignments
      by (apply written_runs_through || (rewrite Hd; by eexists)).
    by rewrite stringified_entry, Hm. }
  eexists. split; [exact Hlook|]. split; [done|]. split.
  - intros field. apply get_stringify_record.
  - unfold is_enabled, enabled. rewrite Hlook, Hm. cbn [settings].
    by rewrite get_stringify_record.
Qed.

(** The store starts with every entry that initialisation built when no
    snapshot is stored and when the snapshot is one that the store
    wrote. *)
Lemma initial_well_typed
    (provider_name : ProviderInfo -> string) (PROVIDER_LIST : list ProviderInfo)
    isBrowser storage :
  provider_settings storage = None
  \/ (exists st, in_sync st /\ localStorage st = storage) ->
  well_typed provider_name PROVIDER_LIST isBrowser storage.
Proof.
  intros Hcase key q. rewrite getInitialProviderSettings_overlay.
  assert (forall d,
    default_settings provider_name PROVIDER_LIST !! key = Some d ->
    is_Some (as_config d)) as Hdefault.
  { intros d Hd.
    destruct (decide (key ∈ provider_name <$> PROVIDER_LIST)) as [Hk|Hk].
    - destruct (default_settings_known provider_name PROVIDER_LIST key Hk)
        as (x & _ & _ & Hx).
      rewrite Hx in Hd. injection Hd as <-. by eexists.
    - by rewrite default_settings_unknown in Hd. }
  destruct Hcase as [->|(st & Hsync & <-)].
  - destruct isBrowser; apply Hdefault.
  - destruct isBrowser; [|apply Hdefault].
    unfold in_sync, JSON_stringify in Hsync. rewrite Hsync.
    rewrite overlay_lookup.
    destruct (default_settings provider_name PROVIDER_LIST !! key) as [d|] eqn:Hd;
      [|done].
    cbn. rewrite entry_of_assignments
      by (apply written_runs_through || (rewrite Hd; by eexists)).
    rewrite stringified_entry. intros [= <-].
    destruct (providersStore st !! key); cbn; [by eexists | by apply Hdefault].
Qed.

(** X8.  A stored history that does not parse is tolerated: the pass
    gives up without a change and without throwing, and an update still
    writes the map and its snapshot and leaves the stored history as it
    found it. *)
Theorem unreadable_history_tolerated report n partial p st :
  history_readable (localStorage st) = false ->
  providersStore st !! n = Some p ->
  let st' := exec (updateProviderSettings true n partial) st in
  (result (autoEnableConfiguredProviders true report) st = Return tt /\
   exec (autoEnableConfiguredProviders true report) st = st) /\
  result (updateProviderSettings true n partial) st = Return tt /\
  providersStore st'
  = <[n := {| info := info p; settings := spread (settings p) partial |}]>
      (providersStore st) /\
  in_sync st' /\
  auto_enabled_providers (localStorage st') = Some Malformed.
Proof.
  intros Hr Hm st'. split.
  - split; [apply autoEnable_returns | by apply autoEnable_unreadable_history].
  - subst st'. unfold result, exec, in_sync.
    rewrite (updateProviderSettings_run n partial p st (spread_source_own _ _ _ Hm)).
    rewrite Hr, andb_false_r.
    cbn. split; [done|]. split; [done|]. split; [done|].
    unfold history_readable in Hr.
    by destruct (auto_enabled_providers (localStorage st)) as [[]|].
Qed.

(** *** The first run *)

(** An action in a browser either changes nothing or leaves a snapshot. *)
Lemma run_action_snapshot (a : action) st :
  exec (run_action true a) st = st \/
  snapshot_exists (localStorage (exec (run_action true a) st)) = true.
Proof.
  destruct a as [report|n partial]; cbn [run_action].
  - destruct (pass_storage true report st) as [Heq|(_ & Hs & _)]; [by left | right].
    unfold snapshot_exists. by rewrite Hs.
  - unfold exec. destruct (spread_source (providersStore st) n) as [p|] eqn:Hm.
    + right. by rewrite (updateProviderSettings_run n partial p st Hm).
    + left. by rewrite updateProviderSettings_missing.
Qed.

Lemma run_action_keeps_snapshot (a : action) st :
  snapshot_exists (localStorage st) = true ->
  snapshot_exists (localStorage (exec (run_action true a) st)) = true.
Proof.
  intros Hsnap. destruct (run_action_snapshot a st) as [->|Hs]; done.
Qed.

Lemma session_keeps_snapshot (actions : list action) : forall st,
  snapshot_exists (localStorage st) = true ->
  snapshot_exists (localStorage (run_session true actions st)) = true.
Proof.
  induction actions as [|a actions IH]; intros st Hsnap; [done|].
  cbn. apply IH. by apply run_action_keeps_snapshot.
Qed.

(** A session that leaves no snapshot has changed nothing. *)
Lemma session_without_snapshot (actions : list action) : forall st,
  snapshot_exists (localStorage (run_session true actions st)) = false ->
  run_session true actions st = st.
Proof.
  induction actions as [|a actions IH]; intros st Hnone; [done|].
  assert (run_session true (a :: actions) st
          = run_session true actions (exec (run_action true a) st)) as Hstep
    by reflexivity.
  rewrite Hstep in *. destruct (run_action_snapshot a st) as [Heq|Hs].
  - rewrite Heq in *. by apply IH.
  - rewrite (session_keeps_snapshot actions _ Hs) in Hnone. done.
Qed.

(** C4, as the code has it.  Take the state that the store is in after
    it was initialised in a browser and any passes and updates were run.
    When no snapshot is persisted and the persisted history is absent or
    parses, every local provider of the provider list is disabled, and
    after one pass each of them that the report marks configured through
    the environment is enabled and named in the persisted history. *)
Theorem first_run_auto_enable
    (provider_name : ProviderInfo -> string) (PROVIDER_LIST : list ProviderInfo)
    storage (actions : list action) report n :
  let st := run_session true actions
              (initial_state provider_name PROVIDER_LIST true storage) in
  snapshot_exists (localStorage st) = false ->
  history_readable (localStorage st) = true ->
  n ∈ LOCAL_PROVIDERS ->
  n ∈ provider_name <$> PROVIDER_LIST ->
  reported_by_environment report n = true ->
  let st' := exec (autoEnableConfiguredProviders true report) st in
  is_disabled (providersStore st) n = true /\
  is_enabled (providersStore st') n = true /\
  n ∈ history (localStorage st').
Proof.
  intros st Hsnap Hread Hlocal Hknown Hrep st'.
  assert (st = initial_state provider_name PROVIDER_LIST true storage) as Hst
    by (by apply session_without_snapshot).
  subst st'. rewrite Hst in *. clear st Hst.
  apply snapshot_exists_false in Hsnap. cbn [initial_state localStorage] in Hsnap, Hread.
  split.
  - unfold is_disabled. cbn [initial_state providersStore].
    rewrite (providersStore_initial_defaults _ _ _ _ _ Hsnap).
    rewrite bool_decide_eq_true_2 by done.
    apply array_includes_spec in Hlocal. rewrite Hlocal.
    unfold enabled, get. cbn [settings]. by rewrite lookup_singleton_eq.
  - by apply first_run_from_defaults.
Qed.

End Sessions.

End SessionFacts.

(** ** More on the detector *)

Module ApiMore.

Import JS Api StringFacts ApiFacts.

Lemma check_config_method ctx llmManager config :
  (check_config ctx llmManager config).2 =
  if (check_config ctx llmManager config).1
  then ConfiguredProvider.environment else ConfiguredProvider.none.
Proof.
  unfold check_config.
  destruct (baseUrlKey config) as [k|]; [destruct (_ && _)|];
    (destruct (apiTokenKey config) as [t|]; [destruct (_ && _ && _)|]); reflexivity.
Qed.

Lemma key_truthy_spec (key : string) : key_truthy (Some key) = true <-> key <> "".
Proof.
  cbn. rewrite negb_true_iff. split.
  - intros Hk ->. by rewrite String.eqb_refl in Hk.
  - intros Hk. by apply String.eqb_neq.
Qed.

(** A valid value under the declared base-URL variable configures the
    provider. *)
Lemma valid_base_url_configures ctx llmManager config key :
  baseUrlKey config = Some key ->
  key <> "" ->
  isValidEnvValue (env_value ctx llmManager key) = true ->
  (check_config ctx llmManager config).1 = true.
Proof.
  intros Hkey Hne Hvalid. apply key_truthy_spec in Hne.
  unfold check_config. rewrite Hkey, Hne, Hvalid. cbn [andb negb].
  destruct (apiTokenKey config); [rewrite andb_false_r|]; reflexivity.
Qed.

(** X9.  A provider is reported configured exactly when its base-URL
    variable is declared and holds a valid value, or its API-token variable
    is declared and holds a valid value: a valid token makes up for a
    missing or rejected base URL. *)
Theorem check_config_configured ctx llmManager config :
  (check_config ctx llmManager config).1 = true <->
  (exists key, baseUrlKey config = Some key /\ key <> "" /\
     isValidEnvValue (env_value ctx llmManager key) = true) \/
  (exists key, apiTokenKey config = Some key /\ key <> "" /\
     isValidApiToken (env_value ctx llmManager key) = true).
Proof.
  unfold check_config.
  destruct (baseUrlKey config) as [k|] eqn:Hk;
    destruct (apiTokenKey config) as [t|] eqn:Ht.
  - destruct (key_truthy (Some k) && _) eqn:Hb.
    + apply andb_true_iff in Hb as [Hk1 Hk2]. apply key_truthy_spec in Hk1.
      rewrite andb_false_r. cbn. split; [|done]. intros _. left. by exists k.
    + rewrite andb_true_r.
      destruct (key_truthy (Some t) && _) eqn:Htok; cbn.
      * apply andb_true_iff in Htok as [Ht1 Ht2]. apply key_truthy_spec in Ht1.
        split; [|done]. intros _. right. by exists t.
      * split; [done|].
        intros [(k' & [= <-] & Hne & Hv)|(t' & [= <-] & Hne & Hv)].
        -- apply key_truthy_spec in Hne. by rewrite Hne, Hv in Hb.
        -- apply key_truthy_spec in Hne. by rewrite Hne, Hv in Htok.
  - destruct (key_truthy (Some k) && _) eqn:Hb; cbn.
    + apply andb_true_iff in Hb as [Hk1 Hk2]. apply key_truthy_spec in Hk1.
      split; [|done]. intros _. left. by exists k.
    + split; [done|]. intros [(k' & [= <-] & Hne & Hv)|(t' & [=] & _)].
      apply key_truthy_spec in Hne. by rewrite Hne, Hv in Hb.
  - rewrite andb_true_r. destruct (key_truthy (Some t) && _) eqn:Htok; cbn.
    + apply andb_true_iff in Htok as [Ht1 Ht2]. apply key_truthy_spec in Ht1.
      split; [|done]. intros _. right. by exists t.
    + split; [done|]. intros [(k' & [=] & _)|(t' & [= <-] & Hne & Hv)].
      apply key_truthy_spec in Hne. by rewrite Hne, Hv in Htok.
  - cbn. split; [done|]. by intros [(k' & [=] & _)|(t' & [=] & _)].
Qed.

Lemma check_provider_consistent ctx llmManager name cp :
  check_provider ctx llmManager name = Return cp ->
  (ConfiguredProvider.isConfigured cp = true <->
   ConfiguredProvider.configMethod cp = ConfiguredProvider.environment).
Proof.
  unfold check_provider, bind.
  destruct (getProvider llmManager name) as [[instance|]|]; [| |done].
  - pose proof (check_config_method ctx llmManager (config instance)) as Hm.
    destruct (check_config _ _ _) as [b m]. cbn in Hm. subst m.
    intros [= <-]. cbn. by destruct b.
  - intros [= <-]. by cbn.
Qed.

Lemma for_of_consistent ctx llmManager names cps :
  for_of (check_provider ctx llmManager) names = Return cps ->
  forall cp, cp ∈ cps ->
    (ConfiguredProvider.isConfigured cp = true <->
     ConfiguredProvider.configMethod cp = ConfiguredProvider.environment).
Proof.
  revert cps. induction names as [|x names IH]; intros cps; cbn.
  - intros [= <-] cp Hin. by apply elem_of_nil in Hin.
  - destruct (check_provider ctx llmManager x) as [y|] eqn:Hy; [|done]. cbn.
    destruct (for_of _ names) as [ys|]; [|done]. cbn.
    intros [= <-] cp [->|Hin]%elem_of_cons.
    + by eapply check_provider_consistent.
    + by eapply IH.
Qed.

(** X10.  In every answer of the route the two fields of an entry agree:
    an entry is configured exactly when its method is "environment". *)
Theorem report_consistent ctx cp :
  cp ∈ providers (loader ctx) ->
  (ConfiguredProvider.isConfigured cp = true <->
   ConfiguredProvider.configMethod cp = ConfiguredProvider.environment).
Proof.
  unfold loader. destruct (detect ctx) as [cps|e] eqn:Hd; cbn.
  - unfold detect, bind in Hd. destruct (getInstance ctx) as [m|]; [|done].
    by eapply for_of_consistent.
  - intros Hin. apply list_elem_of_In in Hin. cbn in Hin.
    destruct Hin as [<-|[<-|[<-|[]]]]; by cbn.
Qed.

(** X11.  The sources are tried in order and the first truthy value is
    the candidate, valid or not: a non-empty placeholder in the request's
    environment hides a valid URL of the process environment, while an
    empty or missing one lets it through. *)
Theorem request_value_masks ctx llmManager config key s url :
  baseUrlKey config = Some key ->
  key <> "" ->
  process_lookup ctx key = Str url ->
  isValidEnvValue (Str url) = true ->
  (cloudflare_lookup ctx key = Str s -> s <> "" ->
   isValidEnvValue (Str s) = false ->
   env_value ctx llmManager key = Str s /\
   check_config ctx llmManager config
   = check_config ctx llmManager (without_baseUrlKey config)) /\
  (truthy (cloudflare_lookup ctx key) = false ->
   env_value ctx llmManager key = Str url /\
   check_config ctx llmManager config = (true, ConfiguredProvider.environment)).
Proof.
  intros Hkey Hne Hproc Hvalid. split.
  - intros Hcf Hs Hbad.
    assert (env_value ctx llmManager key = Str s) as Hv.
    { assert (truthy (Str s) = true) as Ht
        by (cbn [truthy]; apply negb_true_iff; by apply String.eqb_neq).
      unfold env_value, JS.or. by rewrite Hcf, !Ht. }
    split; [done|]. eapply base_url_path_closed; [done|]. by rewrite Hv.
  - intros Hcf.
    assert (truthy (Str url) = true) as Hurl.
    { unfold isValidEnvValue in Hvalid. by apply andb_true_iff in Hvalid as [? _]. }
    assert (env_value ctx llmManager key = Str url) as Hv.
    { unfold env_value, JS.or. by rewrite Hcf, Hproc, Hurl. }
    split; [done|].
    assert ((check_config ctx llmManager config).1 = true) as Hc.
    { apply (valid_base_url_configures ctx llmManager config key Hkey Hne).
      by rewrite Hv. }
    pose proof (check_config_method ctx llmManager config) as Hm.
    rewrite Hc in Hm. destruct (check_config _ _ _) as [b m]. cbn in *. by subst.
Qed.

End ApiMore.

(** ** From the environment to the store *)

Module EndToEnd.

Import JS Settings Session StringFacts SettingsFacts ApiFacts ApiMore SessionFacts.

Lemma loader_status ctx : Api.status (Api.loader ctx) = 200%Z.
Proof. unfold Api.loader. by destruct (Api.detect ctx). Qed.

Lemma fetch_delivered (response : Api.Response) :
  Api.status response = 200%Z ->
  fetchConfiguredProviders (delivered response) = Api.providers response.
Proof.
  intros Hs. unfold fetchConfiguredProviders, delivered, Api.bind, ok. cbn.
  by rewrite Hs.
Qed.

Lemma for_of_member {A B} (f : A -> outcome B) (l : list A) (ys : list B) (x : A) :
  Api.for_of f l = Return ys -> x ∈ l -> exists y, f x = Return y /\ y ∈ ys.
Proof.
  revert ys. induction l as [|a l IH]; intros ys; cbn.
  - intros _ Hx. by apply elem_of_nil in Hx.
  - destruct (f a) as [b|] eqn:Hfa; [|done]. cbn.
    destruct (Api.for_of f l) as [bs|]; [|done]. cbn.
    intros [= <-] [->|Hx]%elem_of_cons.
    + exists b. split; [done | left].
    + destruct (IH bs eq_refl Hx) as (y & Hy & Hin). exists y. split; [done | by right].
Qed.

Section Store.

Context {ProviderInfo : Type}.

Implicit Types (st : State ProviderInfo) (n : string).

(** A provider that the report does not mark configured through the
    environment keeps its entry. *)
Lemma unreported_untouched isBrowser report st n :
  reported_by_environment report n = false ->
  providersStore (exec (autoEnableConfiguredProviders isBrowser report) st) !! n
  = providersStore st !! n.
Proof.
  intros Hrep.
  destruct (autoEnable_lookup isBrowser report st n) as [H|(p & Hm & Hoff & Hon & _)];
    [done|].
  assert (is_disabled (providersStore st) n = true /\
          is_enabled (providersStore
            (exec (autoEnableConfiguredProviders isBrowser report) st)) n = true)
    as Hturned.
  { unfold is_disabled, is_enabled. rewrite Hm, Hon, Hoff. cbn -[enabled enable].
    by rewrite enabled_enable. }
  apply turned_on_pushed in Hturned as (_ & _ & Hin).
  apply pass_newly in Hin as (Hcp & _). apply eligible_reported in Hcp as [Hr _].
  congruence.
Qed.

(** X12.  When the fetch fails the pass has nothing to work on: a
    network error, a status outside 200-299, a body that is not JSON or a
    body without [providers] all leave the map and the storage as they
    are, and nothing is thrown. *)
Theorem failed_fetch_changes_nothing isBrowser (response : FetchResponse) e st :
  let quiet fetched :=
    result (initializeProviders isBrowser fetched) st = Return tt /\
    exec (initializeProviders isBrowser fetched) st = st in
  quiet (Throw e) /\
  (ok response = false -> quiet (Return response)) /\
  (json response = Throw e -> quiet (Return response)) /\
  (json response = Return None -> quiet (Return response)).
Proof.
  intros quiet.
  assert (forall fetched, fetchConfiguredProviders fetched = [] -> quiet fetched) as Hq.
  { intros fetched Hnil. unfold quiet, initializeProviders. rewrite Hnil. split.
    - apply autoEnable_returns.
    - apply autoEnable_nothing_detected. by intros cp Hcp%elem_of_nil. }
  split; [by apply Hq|]. split; [|split]; intros H; apply Hq;
    unfold fetchConfiguredProviders, Api.bind.
  - by rewrite H.
  - rewrite H. by destruct (ok response).
  - rewrite H. by destruct (ok response).
Qed.

(** X13.  From the environment to the store: on the first run of a
    machine without a snapshot, a local provider of the list whose
    base-URL variable holds a valid value is enabled and recorded in the
    history once the report of the route has been fetched and applied. *)
Theorem valid_base_url_enables_on_first_run
    (provider_name : ProviderInfo -> string) (PROVIDER_LIST : list ProviderInfo)
    ctx llmManager instance key cps storage n :
  Api.getInstance ctx = Return llmManager ->
  Api.detect ctx = Return cps ->
  Api.getProvider llmManager n = Return (Some instance) ->
  Api.baseUrlKey (Api.config instance) = Some key ->
  key <> "" ->
  Api.isValidEnvValue (Api.env_value ctx llmManager key) = true ->
  n ∈ LOCAL_PROVIDERS ->
  n ∈ provider_name <$> PROVIDER_LIST ->
  provider_settings storage = None ->
  history_readable storage = true ->
  let st := initial_state provider_name PROVIDER_LIST true storage in
  let st' := exec (initializeProviders true (delivered (Api.loader ctx))) st in
  is_enabled (providersStore st') n = true /\ n ∈ history (localStorage st').
Proof.
  intros Hmgr Hdetect Hget Hkey Hne Hvalid Hlocal Hknown Hnone Hread st st'.
  subst st'. unfold initializeProviders.
  rewrite fetch_delivered by apply loader_status.
  unfold Api.loader. rewrite Hdetect. cbn [Api.providers Api.json].
  apply (first_run_from_defaults provider_name PROVIDER_LIST storage cps n);
    try done.
  unfold Api.detect, Api.bind in Hdetect. rewrite Hmgr in Hdetect.
  destruct (for_of_member _ _ _ n Hdetect Hlocal) as (cp & Hcp & Hin).
  apply reported_by_environment_spec. exists cp. split; [done|].
  unfold Api.check_provider, Api.bind in Hcp. rewrite Hget in Hcp.
  assert ((Api.check_config ctx llmManager (Api.config instance)).1 = true) as Hc.
  { by apply (ApiMore.valid_base_url_configures ctx llmManager (Api.config instance) key). }
  pose proof (check_config_method ctx llmManager (Api.config instance)) as Hm.
  rewrite Hc in Hm. destruct (Api.check_config _ _ _) as [b m]. cbn in Hc, Hm.
  subst b m. by injection Hcp as <-.
Qed.

(** X14.  What the detector does not find is not turned on: when the
    detection pass throws, applying the fetched answer changes nothing at
    all, and a provider whose entries in the answer are all unconfigured
    keeps its entry in the map. *)
Theorem undetected_stays isBrowser ctx st n :
  let st' := exec (initializeProviders isBrowser (delivered (Api.loader ctx))) st in
  ((exists e, Api.detect ctx = Throw e) -> st' = st) /\
  ((forall cp, cp ∈ Api.providers (Api.loader ctx) ->
      ConfiguredProvider.name cp = n -> ConfiguredProvider.isConfigured cp = false) ->
   providersStore st' !! n = providersStore st !! n).
Proof.
  intros st'. subst st'. unfold initializeProviders.
  rewrite fetch_delivered by apply loader_status. split.
  - intros [e He]. apply autoEnable_nothing_detected. intros cp.
    unfold Api.loader. rewrite He. cbn. intros Hin.
    apply list_elem_of_In in Hin. cbn in Hin.
    by destruct Hin as [<-|[<-|[<-|[]]]].
  - intros Hun. apply unreported_untouched.
    destruct (reported_by_environment _ n) eqn:Hrep; [|done].
    apply reported_by_environment_spec in Hrep as (cp & Hin & Hn & Hc & _).
    by rewrite (Hun cp Hin Hn) in Hc.
Qed.

End Store.

End EndToEnd.

(** ** The development script for Electron *)

Module ElectronFacts.

Import JS Settings ElectronDev.

Lemma truthy_string (s : string) : truthy (Str s) = true <-> s <> "".
Proof.
  cbn. rewrite negb_true_iff. split.
  - intros Hs ->. by rewrite String.eqb_refl in Hs.
  - intros Hs. by apply String.eqb_neq.
Qed.

Lemma falsy_string (s : string) : truthy (Str s) = false <-> s = "".
Proof.
  cbn. rewrite negb_false_iff. apply String.eqb_eq.
Qed.

(** The loop from any value of [retries]. *)
Lemma checkServer_from lsof serverName : forall budget retries,
  MAX_RETRIES - retries = budget ->
  let r := checkServer lsof serverName retries in
  retries <= r.2 /\
  (retries <= MAX_RETRIES -> r.2 <= MAX_RETRIES) /\
  (forall j, retries <= j < r.2 -> lsof j = "") /\
  ((r.1 = Return tt /\ lsof r.2 <> "") \/
   (r.1 = Throw (Error ("Timeout waiting for " +:+ serverName +:+ " to start")) /\
    lsof r.2 = "" /\ MAX_RETRIES <= r.2)).
Proof.
  induction budget as [|budget IH]; intros retries Hb r; subst r;
    rewrite checkServer_equation_1; cbn [checkServer_unfold_clause_1];
    destruct (truthy (Str (lsof retries))) eqn:Hup;
    cbn [checkServer_unfold_clause_1].
  - split; [done|]. split; [done|]. split; [intros j; cbn; lia|].
    left. by apply truthy_string in Hup.
  - destruct (le_lt_dec MAX_RETRIES retries) as [Hge|Hlt]; [|lia].
    cbn. split; [done|]. split; [done|]. split; [intros j; lia|]. right.
    by apply falsy_string in Hup.
  - split; [done|]. split; [done|]. split; [intros j; cbn; lia|].
    left. by apply truthy_string in Hup.
  - destruct (le_lt_dec MAX_RETRIES retries) as [Hge|Hlt]; [lia|].
    cbn. destruct (IH (S retries)) as (Hle & Hmax & Hempty & Hend); [lia|].
    apply falsy_string in Hup.
    split; [lia|]. split; [intros _; apply Hmax; lia|]. split; [|done].
    intros j Hj. destruct (decide (j = retries)) as [->|Hne]; [done|].
    apply Hempty. lia.
Qed.

(** X15.  [waitForServer] resolves exactly when one of the first 31 runs
    of [lsof] prints something: it then stops at the first such run, having
    set one timer per empty run before it.  Otherwise it rejects with the
    timeout message after 31 runs and 30 timers, 30 seconds of waiting. *)
Theorem waitForServer_bound lsof port serverName :
  let r := waitForServer lsof port serverName in
  (r.1 = Return tt <-> exists k, k <= MAX_RETRIES /\ lsof port k <> "") /\
  (r.1 = Return tt ->
   lsof port r.2 <> "" /\ (forall j, j < r.2 -> lsof port j = "") /\
   r.2 <= MAX_RETRIES) /\
  (r.1 <> Return tt ->
   r.1 = Throw (Error ("Timeout waiting for " +:+ serverName +:+ " to start")) /\
   r.2 = MAX_RETRIES /\ waited r.2 = 30000%Z /\
   forall j, j <= MAX_RETRIES -> lsof port j = "").
Proof.
  intros r. subst r. unfold waitForServer.
  destruct (checkServer_from (lsof port) serverName MAX_RETRIES 0 eq_refl)
    as (_ & Hmax & Hempty & Hend).
  specialize (Hmax ltac:(unfold MAX_RETRIES; lia)).
  destruct Hend as [[Hok Hup]|(Hthrow & Hlast & Hge)].
  - split; [|split].
    + split; [|done]. intros _. eexists. split; [exact Hmax | exact Hup].
    + intros _. split; [done|]. split; [|done]. intros j Hj. apply Hempty. lia.
    + intros Hno. by rewrite Hok in Hno.
  - assert ((checkServer (lsof port) serverName 0).2 = MAX_RETRIES) as Hexact by lia.
    assert (forall j, j <= MAX_RETRIES -> lsof port j = "") as Hall.
    { intros j Hj. destruct (decide (j = MAX_RETRIES)) as [->|Hne].
      - by rewrite <- Hexact.
      - apply Hempty. lia. }
    split; [|split].
    + rewrite Hthrow. split; [done|]. intros (k & Hk & Hupk).
      by rewrite (Hall k Hk) in Hupk.
    + intros Hyes. by rewrite Hthrow in Hyes.
    + intros _. split; [done|]. split; [done|]. split; [|done].
      by rewrite Hexact.
Qed.

Lemma wait_resolves lsof port serverName :
  (waitForServer lsof port serverName).1 = Return tt <->
  exists k, k <= MAX_RETRIES /\ lsof port k <> "".
Proof.
  unfold waitForServer.
  destruct (checkServer_from (lsof port) serverName MAX_RETRIES 0 eq_refl)
    as (_ & Hmax & Hempty & Hend).
  specialize (Hmax ltac:(unfold MAX_RETRIES; lia)).
  destruct Hend as [[Hok Hup]|(Hthrow & Hlast & Hge)].
  - split; [|done]. intros _. eexists. split; [exact Hmax | exact Hup].
  - rewrite Hthrow. split; [done|]. intros (k & Hk & Hupk). exfalso. apply Hupk.
    destruct (decide (k = (checkServer (lsof port) serverName 0).2)) as [->|Hne];
      [done|]. apply Hempty. lia.
Qed.

Lemma build_succeeds (first : ChildEvent) :
  buildElectronDeps first = Return tt <-> first = Close (Some 0%Z).
Proof.
  destruct first as [code|message]; cbn; [|done].
  case_bool_decide as Hc; [subst|]; split; try done. by intros [= ->].
Qed.

(** The four ways the start of the script can go. *)
Lemma startup_cases (w : World) :
  exec (startElectronDev w) start =
  match buildElectronDeps (build w) with
  | Throw _ =>
      {| electronProcess := false; remixProcess := false;
         effects := [spawn_build; Exit 0]; exited := true |}
  | Return _ =>
      match (waitForServer (lsof w) REMIX_PORT "Remix development server").1 with
      | Throw _ =>
          {| electronProcess := false; remixProcess := true;
             effects := [spawn_build; spawn_remix; Kill Remix "SIGTERM"; Exit 0];
             exited := true |}
      | Return _ =>
          if existsSync w (mainPath w) then
            {| electronProcess := true; remixProcess := true;
               effects := [spawn_build; spawn_remix; spawn_electron w];
               exited := false |}
          else
            {| electronProcess := false; remixProcess := true;
               effects := [spawn_build; spawn_remix; Kill Remix "SIGTERM"; Exit 0];
               exited := true |}
      end
  end.
Proof.
  unfold startElectronDev, exec, try_catch, cleanup, process_exit, await,
    set_remixProcess, set_electronProcess, emit, modify, bind, gets, ret, throw, id.
  destruct (buildElectronDeps (build w)) as [[]|e]; cbn -[waitForServer];
    [|reflexivity].
  destruct (waitForServer (lsof w) REMIX_PORT "Remix development server").1
    as [[]|e]; cbn -[waitForServer]; [|reflexivity].
  destruct (existsSync w (mainPath w)); reflexivity.
Qed.

(** What Electron's being started says of the script. *)
Lemma electron_started (w : World) :
  electronProcess (exec (startElectronDev w) start) = true ->
  effects (exec (startElectronDev w) start)
  = [spawn_build; spawn_remix; spawn_electron w] /\
  remixProcess (exec (startElectronDev w) start) = true /\
  exited (exec (startElectronDev w) start) = false.
Proof.
  rewrite startup_cases.
  destruct (buildElectronDeps (build w)) as [[]|e]; cbn -[waitForServer]; [|done].
  destruct (waitForServer (lsof w) REMIX_PORT "Remix development server").1
    as [[]|e]; cbn -[waitForServer]; [|done].
  by destruct (existsSync w (mainPath w)).
Qed.

(** X16.  Electron is started exactly when the build closed with code
    0, one of the first 31 runs of [lsof] on port 5173 printed something and
    the main file exists; the script has then started the build, the Remix
    server and Electron, in this order, and goes on running. *)
Theorem electron_launched_iff (w : World) :
  let s := exec (startElectronDev w) start in
  (electronProcess s = true <->
   build w = Close (Some 0%Z) /\
   (exists k, k <= MAX_RETRIES /\ lsof w REMIX_PORT k <> "") /\
   existsSync w (mainPath w) = true) /\
  (electronProcess s = true ->
   effects s = [spawn_build; spawn_remix; spawn_electron w] /\
   remixProcess s = true /\ exited s = false).
Proof.
  intros s. subst s. rewrite startup_cases.
  rewrite <- build_succeeds.
  rewrite <- (wait_resolves (lsof w) REMIX_PORT "Remix development server").
  destruct (buildElectronDeps (build w)) as [[]|e]; cbn -[waitForServer].
  - destruct (waitForServer (lsof w) REMIX_PORT "Remix development server").1
      as [[]|e]; cbn -[waitForServer].
    + destruct (existsSync w (mainPath w)); cbn; [by repeat split|].
      split; [|done]. split; [done|]. by intros (_ & _ & ?).
    + split; [|done]. split; [done|]. by intros (_ & ? & _).
  - split; [|done]. split; [done|]. by intros (? & _).
Qed.

(** X17.  When the start fails - the build fails, the server does not
    show up, or the main file is missing - the script still exits with
    code 0, after it has sent SIGTERM to the Remix server if it had started
    it; Electron is neither started nor signalled. *)
Theorem startup_failure_exits_zero (w : World) :
  let s := exec (startElectronDev w) start in
  electronProcess s = false ->
  exited s = true /\
  (remixProcess s = true <-> build w = Close (Some 0%Z)) /\
  effects s =
    spawn_build ::
    (if remixProcess s then [spawn_remix; Kill Remix "SIGTERM"] else []) ++ [Exit 0].
Proof.
  intros s. subst s. rewrite startup_cases. rewrite <- build_succeeds.
  destruct (buildElectronDeps (build w)) as [[]|e]; cbn -[waitForServer].
  - destruct (waitForServer (lsof w) REMIX_PORT "Remix development server").1
      as [[]|e]; cbn -[waitForServer]; [|done].
    by destruct (existsSync w (mainPath w)).
  - done.
Qed.

Lemma handle_exited (e : event) (s : Script) :
  exited s = true -> exec (handle e) s = s.
Proof. intros He. unfold handle, exec, bind, gets, id. cbn. by rewrite He. Qed.

Lemma events_after_exit (events : list event) (s : Script) :
  exited s = true -> foldl (fun s e => exec (handle e) s) s events = s.
Proof.
  induction events as [|e events IH]; intros He; [done|].
  cbn. rewrite handle_exited by done. by apply IH.
Qed.

Lemma handle_running (e : event) (s : Script) :
  electronProcess s = true -> remixProcess s = true -> exited s = false ->
  exec (handle e) s =
  if clean_exit e then s
  else {| electronProcess := true; remixProcess := true;
          effects := effects s ++ shutdown; exited := true |}.
Proof.
  intros He Hr Hx. destruct s as [el re eff ex]. cbn in He, Hr, Hx. subst.
  unfold shutdown, handle, exec, cleanup, process_exit, emit, modify, bind, gets,
    ret, id.
  destruct e as [|code| |]; cbn.
  - rewrite <- !app_assoc. reflexivity.
  - case_bool_decide as Hc.
    + destruct code as [[| |]|]; cbn; try done; rewrite <- !app_assoc; reflexivity.
    + destruct (decide (code = Some 0%Z)) as [->|Hne]; [reflexivity | done].
  - rewrite <- !app_assoc. reflexivity.
  - rewrite <- !app_assoc. reflexivity.
Qed.

(** X18.  Once Electron runs, its exit with code 0 is let pass: the Remix
    server is left running and the script goes on.  The first event of any
    other kind - an error of Electron, its exit with another code or none,
    SIGINT or SIGTERM - sends SIGTERM to both processes and exits with code
    0, and nothing that comes later has any effect. *)
Theorem running_script_events (w : World) (events : list event) :
  electronProcess (exec (startElectronDev w) start) = true ->
  let s := run w events in
  effects s =
    [spawn_build; spawn_remix; spawn_electron w]
    ++ (if forallb clean_exit events then [] else shutdown) /\
  exited s = negb (forallb clean_exit events) /\
  remixProcess s = true.
Proof.
  intros Hlaunched.
  destruct (electron_started w Hlaunched) as (Heff & Hre & Hex).
  unfold run. revert Heff Hre Hex Hlaunched.
  generalize (exec (startElectronDev w) start). intros s0 Heff Hre Hex Hel.
  rewrite <- Heff. clear Heff.
  assert (effects s0 = effects s0 ++ []) as Hnil by (by rewrite app_nil_r).
  revert s0 Hre Hex Hel Hnil.
  induction events as [|e events IH]; intros s0 Hre Hex Hel _; cbn.
  - by rewrite app_nil_r, Hex.
  - rewrite handle_running by done. destruct (clean_exit e); cbn.
    + apply IH; try done. by rewrite app_nil_r.
    + by rewrite events_after_exit.
Qed.

Lemma events_while_running (events : list event) (s : Script) :
  electronProcess s = true -> remixProcess s = true -> exited s = false ->
  foldl (fun s e => exec (handle e) s) s events =
  if forallb clean_exit events then s
  else {| electronProcess := true; remixProcess := true;
          effects := effects s ++ shutdown; exited := true |}.
Proof.
  revert s. induction events as [|e events IH]; intros s Hel Hre Hex; [done|].
  cbn [foldl forallb]. rewrite handle_running by done.
  destruct (clean_exit e); cbn [andb]; [by apply IH|].
  by rewrite events_after_exit.
Qed.

Local Ltac not_an_exit :=
  intros code Hin; unfold spawn_build, spawn_remix, spawn_electron in Hin;
  repeat (apply elem_of_cons in Hin as [Hin|Hin]; [discriminate Hin|]);
  by apply elem_of_nil in Hin.

Local Ltac at_position i H :=
  unfold spawn_build, spawn_remix, spawn_electron in *;
  do 6 (try destruct i as [|i]); cbn in H; try discriminate H;
  try (injection H; intros; subst).

Local Ltac earlier :=
  unfold spawn_build, spawn_remix, spawn_electron;
  first [ exists 0; split; [lia | reflexivity]
        | exists 1; split; [lia | reflexivity]
        | exists 2; split; [lia | reflexivity] ].

Local Ltac in_order Hbuild :=
  split; [reflexivity|]; split; [not_an_exit|]; split; [|split];
  [ intros i process signal Hi; at_position i Hi; earlier
  | intros i Hi; at_position i Hi; (split; [exact Hbuild | earlier])
  | intros i Hi; at_position i Hi; (split; [exact Hbuild | earlier]) ].

(** X25.  On every machine and for every sequence of events the script
    exits at most once, as the last thing it does and with code 0.  It
    sends a signal only to a process that it has started earlier, it
    starts Electron only after the Remix server, and the Remix server only
    after a build that closed with code 0. *)
Theorem script_exit_discipline (w : World) (events : list event) :
  let s := run w events in
  exists body : list effect,
    effects s = body ++ (if exited s then [Exit 0] else []) /\
    (forall code, Exit code ∉ body) /\
    (forall i process signal,
       body !! i = Some (Kill process signal) ->
       exists j, j < i /\
         body !! j = Some match process with
                          | Electron => spawn_electron w
                          | Remix => spawn_remix
                          end) /\
    (forall i,
       body !! i = Some (spawn_electron w) ->
       build w = Close (Some 0%Z) /\
       exists j, j < i /\ body !! j = Some spawn_remix) /\
    (forall i,
       body !! i = Some spawn_remix ->
       build w = Close (Some 0%Z) /\
       exists j, j < i /\ body !! j = Some spawn_build).
Proof.
  intros s. subst s. unfold run. rewrite startup_cases.
  destruct (buildElectronDeps (build w)) as [[]|e] eqn:Hbuild; cbn -[waitForServer].
  - apply build_succeeds in Hbuild.
    destruct (waitForServer (lsof w) REMIX_PORT "Remix development server").1
      as [[]|e]; cbn -[waitForServer].
    + destruct (existsSync w (mainPath w)).
      * rewrite events_while_running by done.
        destruct (forallb clean_exit events); cbn.
        -- exists [spawn_build; spawn_remix; spawn_electron w]. in_order Hbuild.
        -- exists [spawn_build; spawn_remix; spawn_electron w;
                   Kill Electron "SIGTERM"; Kill Remix "SIGTERM"]. in_order Hbuild.
      * rewrite events_after_exit by done. cbn.
        exists [spawn_build; spawn_remix; Kill Remix "SIGTERM"]. in_order Hbuild.
    + rewrite events_after_exit by done. cbn.
      exists [spawn_build; spawn_remix; Kill Remix "SIGTERM"]. in_order Hbuild.
  - rewrite events_after_exit by done. cbn.
    exists [spawn_build].
    split; [reflexivity|]. split; [not_an_exit|]. split; [|split].
    + intros i process signal Hi. at_position i Hi.
    + intros i Hi. at_position i Hi.
    + intros i Hi. at_position i Hi.
Qed.

End ElectronFacts.

(** ** The other settings of the store *)

Module PreferencesFacts.

Import JS Settings Preferences.

Lemma getStoredBoolean_insert_eq storage' key (b dflt : bool) :
  flags storage' !! key = Some (Json (Bool b)) ->
  getStoredBoolean true storage' key dflt = Bool b.
Proof. intros Hk. unfold getStoredBoolean. cbn. by rewrite Hk. Qed.

Lemma getStoredBoolean_same storage storage' key (dflt : bool) :
  flags storage' !! key = flags storage !! key ->
  getStoredBoolean true storage' key dflt = getStoredBoolean true storage key dflt.
Proof. intros Hk. unfold getStoredBoolean. cbn. by rewrite Hk. Qed.

Local Ltac flag_round_trip :=
  intros;
  unfold reload, initial_atoms, getInitialSettings, exec, bind, modify, ret,
    setItem_flag, updateLatestBranch, updateAutoSelectTemplate,
    updateContextOptimization, updateEventLogs;
  cbn -[getStoredBoolean];
  f_equal;
  first
    [ apply getStoredBoolean_insert_eq; cbn [flags]; by rewrite lookup_insert_eq
    | apply getStoredBoolean_same; cbn [flags]; by rewrite lookup_insert_ne ].

(** X19.  A switch that the user sets survives a reload, and only it
    changes: for each of the four switches, setting it and then reloading
    gives the same atoms and storage as reloading and then setting it. *)
Theorem flag_update_commutes_with_reload (b : bool) (a : Atoms) :
  reload (exec (updateLatestBranch true b) a)
  = exec (updateLatestBranch true b) (reload a) /\
  reload (exec (updateAutoSelectTemplate true b) a)
  = exec (updateAutoSelectTemplate true b) (reload a) /\
  reload (exec (updateContextOptimization true b) a)
  = exec (updateContextOptimization true b) (reload a) /\
  reload (exec (updateEventLogs true b) a)
  = exec (updateEventLogs true b) (reload a).
Proof.
  split; [|split; [|split]]; flag_round_trip.
Qed.

(** X20.  A prompt id that is not empty survives a reload as it is.  The
    empty id does not: the session shows the empty id and the reload shows
    "default". *)
Theorem prompt_id_reload (id : string) (a : Atoms) :
  let a' := exec (updatePromptId true id) a in
  promptStore a' = id /\
  promptStore (reload a') = (if String.eqb id "" then "default" else id) /\
  (id <> "" -> reload a' = exec (updatePromptId true id) (reload a)) /\
  (id = "" -> promptStore (reload a') <> promptStore a').
Proof.
  intros a'. subst a'.
  unfold reload, initial_atoms, getInitialSettings, exec, bind, modify, ret,
    updatePromptId.
  cbn -[getStoredBoolean String.eqb].
  split; [done|]. split; [done|]. split.
  - intros Hid. apply String.eqb_neq in Hid. rewrite Hid.
    f_equal; by apply getStoredBoolean_same.
  - intros ->. by cbn.
Qed.

End PreferencesFacts.

(** ** The configuration of the tabs *)

Module TabsFacts.

Import JS Settings Tabs.

Section Tabs.

Context {Tab : Type}.
Variable window : Tab -> string.
Variable DEFAULT_TAB_CONFIG : list Tab.

Lemma user_tabs_window (tabs : list Tab) (tab : Tab) :
  In tab (user_tabs window tabs) <-> In tab tabs /\ window tab = "user".
Proof.
  unfold user_tabs. rewrite filter_In. by rewrite String.eqb_eq.
Qed.

Lemma user_tabs_idempotent (tabs : list Tab) :
  user_tabs window (user_tabs window tabs) = user_tabs window tabs.
Proof.
  unfold user_tabs. induction tabs as [|tab tabs IH]; [done|].
  cbn. destruct (String.eqb (window tab) "user") eqn:Hw; [|done].
  cbn. by rewrite Hw, IH.
Qed.

Lemma getInitialTabConfiguration_cases isBrowser saved :
  getInitialTabConfiguration window DEFAULT_TAB_CONFIG isBrowser saved =
  match (if isBrowser then saved else None) with
  | Some (Json (Some tabs)) => {| userTabs := user_tabs window tabs |}
  | _ => defaultConfig window DEFAULT_TAB_CONFIG
  end.
Proof.
  unfold getInitialTabConfiguration. destruct isBrowser; [|done].
  by destruct saved as [[| |[tabs|]]|].
Qed.

(** X21.  Whatever is stored, the initial configuration holds tabs of the
    user window only.  It is the default one unless, in a browser, a
    stored configuration parses and has its list of tabs; then it is that
    list, filtered, also when the list is empty. *)
Theorem initial_tabs_are_user_tabs isBrowser saved :
  let config := getInitialTabConfiguration window DEFAULT_TAB_CONFIG isBrowser saved in
  (forall tab, In tab (userTabs config) -> window tab = "user") /\
  (config = defaultConfig window DEFAULT_TAB_CONFIG \/
   exists tabs, isBrowser = true /\ saved = Some (Json (Some tabs)) /\
     userTabs config = user_tabs window tabs) /\
  (forall tabs, isBrowser = true -> saved = Some (Json (Some tabs)) ->
     (forall tab, In tab (userTabs config) <-> In tab tabs /\ window tab = "user") /\
     (tabs = [] -> userTabs config = [])).
Proof.
  intros config. subst config. rewrite getInitialTabConfiguration_cases.
  destruct isBrowser; cbn.
  - destruct saved as [[| |[tabs|]]|]; cbn.
    all: split; [intros tab Hin; by apply user_tabs_window in Hin as [_ ?]|].
    all: split; [first [by left | right; by eexists]|].
    all: intros tabs' _ [=]; subst.
    split; [intros tab; apply user_tabs_window | by intros ->].
  - split; [intros tab Hin; by apply user_tabs_window in Hin as [_ ?]|].
    split; [by left | done].
Qed.

(** X22.  After a reset in a browser the store holds the default
    configuration and a reload gives the same. *)
Theorem reset_then_reload (st : TabState) :
  let st' := exec (resetTabConfiguration window DEFAULT_TAB_CONFIG true) st in
  result (resetTabConfiguration window DEFAULT_TAB_CONFIG true) st = Return tt /\
  tabConfigurationStore st' = defaultConfig window DEFAULT_TAB_CONFIG /\
  getInitialTabConfiguration window DEFAULT_TAB_CONFIG true (bolt_tab_configuration st')
  = tabConfigurationStore st'.
Proof.
  intros st'. subst st'. rewrite getInitialTabConfiguration_cases.
  unfold resetTabConfiguration, result, exec, bind, modify, ret.
  cbn -[user_tabs].
  split; [done|]. split; [done|].
  unfold defaultConfig. by rewrite user_tabs_idempotent.
Qed.

End Tabs.

End TabsFacts.


(** ** More scenarios *)

Module MoreScenarios.

Import JS Settings Examples MoreExamples StringFacts.

Local Ltac by_computation := vm_compute; reflexivity.
Local Ltac is_member := apply array_includes_spec; by_computation.

(** Detected, switched off by the user, detected again: the history stays
    well formed. *)
Lemma session_keeps_history_ok_witness :
  Session.history_ok (localStorage first_run) /\
  Session.history_ok
    (localStorage (Session.run_session true detect_disable_detect first_run)).
Proof.
  assert (Session.history_ok (localStorage first_run)) as Hok.
  { split; [apply NoDup_nil_2 | intros x Hx; by apply elem_of_nil in Hx]. }
  split; [exact Hok|].
  exact (SessionFacts.session_keeps_history_ok true detect_disable_detect first_run Hok).
Defined.

(** The user switches Ollama off; two passes that find it leave it off. *)
Lemma disabled_survives_passes_witness :
  "Ollama" ∈ LOCAL_PROVIDERS /\
  is_disabled
    (providersStore
       (Session.run_session true
          (Session.AutoEnable <$> [ollama_detected; ollama_detected])
          (exec (updateProviderSettings true "Ollama" {[ "enabled" := Bool false ]})
                first_run)))
    "Ollama" = true.
Proof.
  assert ("Ollama" ∈ LOCAL_PROVIDERS) as Hlocal by is_member.
  assert (providersStore first_run !! "Ollama"
          = Some {| info := Some "Ollama"; settings := {[ "enabled" := Bool false ]} |})
    as Hm by by_computation.
  split; [exact Hlocal|].
  exact (SessionFacts.disabled_survives_passes first_run "Ollama" _
           [ollama_detected; ollama_detected] Hm Hlocal).
Defined.

(** The base URL that the user gave to Ollama is there after a reload. *)
Lemma reload_restores_witness :
  Session.in_sync ollama_with_url /\
  exists q,
    providersStore_initial id providers true (localStorage ollama_with_url)
      !! "Ollama" = Some q /\
    get (settings q) "baseUrl" = Str "http://127.0.0.1:11434".
Proof.
  assert (Session.in_sync ollama_with_url) as Hsync by by_computation.
  assert (providersStore ollama_with_url !! "Ollama"
          = Some {| info := Some "Ollama";
                    settings := {[ "enabled" := Bool false;
                                   "baseUrl" := Str "http://127.0.0.1:11434" ]} |})
    as Hm by by_computation.
  assert ("Ollama" ∈ id <$> providers) as Hin by is_member.
  split; [exact Hsync|].
  destruct (SessionFacts.reload_restores id providers ollama_with_url "Ollama" _
              Hsync Hm Hin) as (q & Hq & _ & Hfields & _).
  exists q. split; [exact Hq|]. rewrite Hfields. by_computation.
Defined.

(** With a history that is not JSON the pass does nothing and the update
    of Ollama goes through. *)
Lemma unreadable_history_tolerated_witness :
  history_readable (localStorage unreadable_history) = false /\
  exec (autoEnableConfiguredProviders true ollama_detected) unreadable_history
  = unreadable_history /\
  result (updateProviderSettings true "Ollama" base_url_only) unreadable_history
  = Return tt.
Proof.
  assert (history_readable (localStorage unreadable_history) = false) as Hread
    by by_computation.
  assert (providersStore unreadable_history !! "Ollama"
          = Some {| info := Some "Ollama"; settings := {[ "enabled" := Bool false ]} |})
    as Hm by by_computation.
  destruct (SessionFacts.unreadable_history_tolerated ollama_detected "Ollama"
              base_url_only _ unreadable_history Hread Hm)
    as ((_ & Hpass) & Hupdate & _).
  split; [exact Hread|]. split; [exact Hpass | exact Hupdate].
Defined.

(** The entry of OpenAILike in the answer to the placeholder request. *)
Lemma report_consistent_witness :
  ConfiguredProvider.mk "OpenAILike" false ConfiguredProvider.none
    ∈ Api.providers (Api.loader placeholder_request) /\
  (false = true <-> ConfiguredProvider.none = ConfiguredProvider.environment).
Proof.
  assert (ConfiguredProvider.mk "OpenAILike" false ConfiguredProvider.none
            ∈ Api.providers (Api.loader placeholder_request)) as Hin.
  { assert (Api.providers (Api.loader placeholder_request)
            = [ ConfiguredProvider.mk "OpenAILike" false ConfiguredProvider.none;
                ConfiguredProvider.mk "LMStudio" false ConfiguredProvider.none;
                ConfiguredProvider.mk "Ollama" false ConfiguredProvider.none ])
      as -> by by_computation.
    by constructor. }
  split; [exact Hin|].
  exact (ApiMore.report_consistent placeholder_request _ Hin).
Defined.

(** The placeholder of the request hides the URL of the process. *)
Lemma request_value_masks_witness :
  Api.process_lookup masked_request "OLLAMA_API_BASE_URL"
  = Str "http://localhost:11434" /\
  Api.isValidEnvValue (Str "http://localhost:11434") = true /\
  Api.env_value masked_request registry "OLLAMA_API_BASE_URL"
  = Str "your_ollama_url_here" /\
  Api.check_config masked_request registry url_only
  = (false, ConfiguredProvider.none).
Proof.
  assert (Api.baseUrlKey url_only = Some "OLLAMA_API_BASE_URL") as Hkey
    by reflexivity.
  assert ("OLLAMA_API_BASE_URL" <> "") as Hne by discriminate.
  assert (Api.process_lookup masked_request "OLLAMA_API_BASE_URL"
          = Str "http://localhost:11434") as Hproc by by_computation.
  assert (Api.isValidEnvValue (Str "http://localhost:11434") = true) as Hvalid
    by by_computation.
  destruct (ApiMore.request_value_masks masked_request registry url_only
              "OLLAMA_API_BASE_URL" "your_ollama_url_here" "http://localhost:11434"
              Hkey Hne Hproc Hvalid) as [Hmask _].
  destruct Hmask as [Hvalue Hcheck];
    [by_computation | discriminate | by_computation |].
  split; [exact Hproc|]. split; [exact Hvalid|]. split; [exact Hvalue|].
  rewrite Hcheck. by_computation.
Defined.

(** A running Ollama in the environment is on after the first start. *)
Lemma valid_base_url_enables_on_first_run_witness :
  Api.isValidEnvValue (Api.env_value valid_request registry "OLLAMA_API_BASE_URL")
  = true /\
  is_enabled
    (providersStore
       (exec (Session.initializeProviders true
                (Session.delivered (Api.loader valid_request)))
             first_run))
    "Ollama" = true /\
  "Ollama" ∈
    history
      (localStorage
         (exec (Session.initializeProviders true
                  (Session.delivered (Api.loader valid_request)))
               first_run)).
Proof.
  assert (Api.isValidEnvValue
            (Api.env_value valid_request registry "OLLAMA_API_BASE_URL") = true)
    as Hvalid by by_computation.
  split; [exact Hvalid|].
  apply (EndToEnd.valid_base_url_enables_on_first_run id providers
           valid_request registry {| Api.config := url_only |}
           "OLLAMA_API_BASE_URL"
           [ ConfiguredProvider.mk "OpenAILike" false ConfiguredProvider.none;
             ConfiguredProvider.mk "LMStudio" false ConfiguredProvider.none;
             ConfiguredProvider.mk "Ollama" true ConfiguredProvider.environment ]
           fresh_storage "Ollama").
  - reflexivity.
  - by_computation.
  - reflexivity.
  - reflexivity.
  - discriminate.
  - exact Hvalid.
  - is_member.
  - is_member.
  - reflexivity.
  - by_computation.
Defined.

(** The build fails: nothing else is started and the script exits with
    code 0. *)
Lemma startup_failure_exits_zero_witness :
  ElectronDev.electronProcess
    (exec (ElectronDev.startElectronDev broken_build) ElectronDev.start) = false /\
  ElectronDev.effects
    (exec (ElectronDev.startElectronDev broken_build) ElectronDev.start)
  = [ElectronDev.spawn_build; ElectronDev.Exit 0].
Proof.
  assert (ElectronDev.electronProcess
            (exec (ElectronDev.startElectronDev broken_build) ElectronDev.start)
          = false) as Hoff by by_computation.
  split; [exact Hoff|].
  destruct (ElectronFacts.startup_failure_exits_zero broken_build Hoff)
    as (_ & _ & Heff).
  rewrite Heff. by_computation.
Defined.

(** Electron exits with code 0, then the user presses Ctrl-C twice. *)
Lemma running_script_events_witness :
  ElectronDev.electronProcess
    (exec (ElectronDev.startElectronDev working_machine) ElectronDev.start) = true /\
  ElectronDev.effects
    (ElectronDev.run working_machine
       [ElectronDev.ElectronExit (Some 0%Z); ElectronDev.SIGINT; ElectronDev.SIGINT])
  = [ ElectronDev.spawn_build; ElectronDev.spawn_remix;
      ElectronDev.spawn_electron working_machine;
      ElectronDev.Kill ElectronDev.Electron "SIGTERM";
      ElectronDev.Kill ElectronDev.Remix "SIGTERM";
      ElectronDev.Exit 0 ].
Proof.
  assert (ElectronDev.electronProcess
            (exec (ElectronDev.startElectronDev working_machine) ElectronDev.start)
          = true) as Hon by by_computation.
  split; [exact Hon|].
  exact (proj1 (ElectronFacts.running_script_events working_machine
                  [ElectronDev.ElectronExit (Some 0%Z); ElectronDev.SIGINT;
                   ElectronDev.SIGINT] Hon)).
Defined.

(** Scenario A: on the first run, after a session that stored nothing,
    the detected Ollama is on and recorded. *)
Lemma first_run_auto_enable_witness :
  snapshot_exists
    (localStorage (Session.run_session true idle_session
                     (initial_state id providers true fresh_storage))) = false /\
  is_enabled
    (providersStore
       (exec (autoEnableConfiguredProviders true ollama_detected)
             (Session.run_session true idle_session
                (initial_state id providers true fresh_storage))))
    "Ollama" = true /\
  "Ollama" ∈
    history
      (localStorage
         (exec (autoEnableConfiguredProviders true ollama_detected)
               (Session.run_session true idle_session
                  (initial_state id providers true fresh_storage)))).
Proof.
  assert (snapshot_exists
            (localStorage (Session.run_session true idle_session
                             (initial_state id providers true fresh_storage)))
          = false) as Hsnap by by_computation.
  split; [exact Hsnap|].
  apply (SessionFacts.first_run_auto_enable id providers fresh_storage idle_session
           ollama_detected "Ollama").
  - exact Hsnap.
  - by_computation.
  - is_member.
  - is_member.
  - by_computation.
Defined.

(** C4 as stated fails where the stored history does not parse: on the
    first run no snapshot is persisted and the detector finds Ollama, and
    after the pass Ollama is neither enabled nor in the history. *)
Lemma first_run_counterexample :
  unreadable_history = initial_state id providers true unreadable_history_storage /\
  snapshot_exists (localStorage unreadable_history) = false /\
  "Ollama" ∈ LOCAL_PROVIDERS /\
  reported_by_environment ollama_detected "Ollama" = true /\
  is_enabled
    (providersStore (exec (autoEnableConfiguredProviders true ollama_detected)
                          unreadable_history))
    "Ollama" = false /\
  ("Ollama" ∉
     history (localStorage (exec (autoEnableConfiguredProviders true ollama_detected)
                                 unreadable_history))).
Proof.
  split; [reflexivity|]. split; [by_computation|]. split; [is_member|].
  split; [by_computation|]. split; [by_computation|].
  apply array_includes_false. by_computation.
Qed.

End MoreScenarios.
